(** * bigcoin-price-bot: a shallow embedding of [src/index.ts]

    The bot keeps, per Discord guild, one category channel and two voice
    channels whose names show the latest price and the halvening
    countdown.  The ids of the three channels are cached in Redis.

    The embedding follows the source function by function.  Asynchronous
    functions become computations in a small monad that threads the
    state of the two external systems (Discord, Redis), may throw, and
    records every external call it issues. *)

From Stdlib Require Import ZArith List Lia.
From Stdlib Require Import Floats.PrimFloat.
From stdpp Require Import base gmap strings list pretty.

Open Scope Z_scope.

(** ** JavaScript values and errors *)

(** The values a JSON payload field can hold once TypeScript's types are
    erased.  Objects and arrays are not needed by the program. *)
Inductive JsValue :=
| JsNumber (x : float)
| JsString (s : string)
| JsBoolean (b : bool)
| JsNull
| JsUndefined.

(** [typeof v === 'number'] *)
Definition typeof_number (v : JsValue) : bool :=
  match v with JsNumber _ => true | _ => false end.

Inductive Error :=
| DiscordAPIError (code : Z)        (* 10003 unknown channel, 10004 unknown guild, ... *)
| AxiosError (status : option Z)    (* None: no response; Some s: non-2xx status s *)
| TypeError                         (* property access on null or undefined *)
| JsError (message : string).       (* new Error(message) *)

(** [error.code === 10004] *)
Definition error_code_is (e : Error) (c : Z) : bool :=
  match e with DiscordAPIError c' => Z.eqb c' c | _ => false end.

Inductive Result (A : Type) :=
| Ok (a : A)
| Throw (e : Error).
Arguments Ok {A} a.
Arguments Throw {A} e.

(** ** Discord *)

Inductive ChannelType := GuildText | GuildVoice | GuildCategory | GuildOther.

Definition ChannelType_eqb (a b : ChannelType) : bool :=
  match a, b with
  | GuildText, GuildText | GuildVoice, GuildVoice
  | GuildCategory, GuildCategory | GuildOther, GuildOther => true
  | _, _ => false
  end.

Record Channel := mkChannel {
  ch_id : string;
  ch_name : string;
  ch_type : ChannelType;
  ch_parentId : option string;
  ch_position : Z
}.

Record Permissions := mkPermissions {
  ManageChannels : bool;
  ViewChannel : bool;
  ManageRoles : bool
}.

(** The bot's own member record in a guild: [botMember.permissions] and
    [botMember.roles.highest.position]. *)
Record GuildMember := mkGuildMember {
  permissions : Permissions;
  roles_highest_position : Z
}.

Record Guild := mkGuild {
  g_botMember : GuildMember;
  g_channels : gmap string Channel
}.

(** [d_nextId] is the snowflake the platform gives to the next channel. *)
Record Discord := mkDiscord {
  d_guilds : gmap string Guild;
  d_nextId : N
}.

(** ** Redis

    The value under [GUILD_KEY] is a JSON array of guild ids; it is kept
    as the list itself, so that [JSON.parse (JSON.stringify l)] is [l].
    Every other key has the shape ["<guildId>:<suffix>"] and holds a
    channel id. *)
Record Redis := mkRedis {
  r_guilds : option (list string);
  r_ids : gmap string string
}.

(** ** What the outside world does *)

Inductive FetchFault :=
| FetchNormally
| FetchRejects (e : Error)
| FetchResolvesNull.

(** [response.data] of the statistics endpoint. *)
Inductive ResponseData :=
| DataNullish                                     (* null or undefined *)
| DataPrimitive (truthy : bool)                   (* a string, number or boolean body *)
| DataObject (bigPrice blocksUntilHalving : JsValue).

Inductive HttpOutcome :=
| HttpRejects (e : Error)
| HttpResolves (data : ResponseData).

(** Which external calls fail, and how.  A field answers [Some e] when
    the call with these arguments is rejected with [e]. *)
Record Env := mkEnv {
  e_http : HttpOutcome;
  e_guildsFetch : string -> option Error;
  e_membersFetch : string -> option Error;
  e_channelsFetch : string -> string -> FetchFault;
  e_channelsCreate : string -> string -> ChannelType -> option Error;
  e_setName : string -> string -> option Error;
  e_editParent : string -> string -> option Error;
  e_editPosition : string -> string -> option Error;
  e_delete : string -> string -> option Error;
  e_permissionOverwrites : string -> string -> option Error;
  e_manageable : string -> string -> bool          (* [channel.manageable] *)
}.

Record World := mkWorld {
  w_env : Env;
  w_discord : Discord;
  w_redis : Redis
}.

Definition with_discord (d : Discord) (w : World) : World :=
  {| w_env := w_env w; w_discord := d; w_redis := w_redis w |}.

Definition with_redis (r : Redis) (w : World) : World :=
  {| w_env := w_env w; w_discord := w_discord w; w_redis := r |}.

(** ** Observable calls *)

(** ['price' | 'halvening'] *)
Inductive ChannelKind := Price | Halvening.

(** The [console.error] messages of the program.  Where the source
    prints [guild.name] the tag carries the guild id. *)
Inductive ErrorMsg :=
| MissingManageChannels (guildId : string)
| MissingViewChannel (guildId : string)
| BotHasNoRoles (guildId : string)
| FailedToFetchChannelGroup (guildId channelGroupId : string) (e : Error)
| StoredChannelNotVoice (k : ChannelKind) (t : ChannelType)
| FailedToCreateChannel (k : ChannelKind) (guildId : string) (e : Error)
| FailedToUpdatePermissions (k : ChannelKind) (guildId : string) (e : Error)
| FailedToUpdateName (k : ChannelKind) (guildId : string) (e : Error)
| FailedToMove (k : ChannelKind) (guildId : string) (e : Error)
| FailedToUpdatePosition (k : ChannelKind) (guildId : string) (e : Error)
| FailedToEdit (k : ChannelKind) (guildId : string) (e : Error)
| ErrorUpdatingChannel (k : ChannelKind) (guildId : string) (e : Error)
| ErrorRemovingChannel (k : ChannelKind) (guildId : string) (e : Error)
| ErrorRemovingChannelGroup (guildId : string) (e : Error)
| InvalidResponseData
| FailedToFetchStats (e : Error)
(* the messages only the later revision of the file prints *)
| FailedToCreateChannelGroup (guildId : string) (e : Error)
| FailedToCreateChannelIn (k : ChannelKind) (guildId : string)
| CreateErrorCode (e : Error)
| CreateErrorMessage (e : Error)
| CreateErrorGuildId (guildId : string)
| CreateErrorChannelGroupId (channelGroupId : string)
| CreateErrorBotUserId
| FailedToUpdateGuild (guildId : string) (e : Error)
| CannotCreateChannels (guildId : string)
| FailedToSetUpChannels (guildId : string) (e : Error).

Inductive Event :=
| EHttpGet (url : string)
| ERedisGet (key : string)
| ERedisSet (key : string)
| ERedisDel (key : string)
| EGuildsFetch (guildId : string)
| EMembersFetch (guildId : string)
| EChannelsFetch (guildId channelId : string)
| EChannelsCreate (guildId name : string) (type : ChannelType)
                  (parent : option string) (position : Z)
| ESetName (guildId channelId name : string)
| EEditParent (guildId channelId parent : string)
| EEditPosition (guildId channelId : string) (position : Z)
| EDelete (guildId channelId : string)
| EPermissionOverwritesCreate (guildId channelId : string)
| EConsoleError (m : ErrorMsg)
| EUpdateChannel (guildId : string) (k : ChannelKind) (value : string) (position : Z).
    (* ghost: [updateChannel] was entered with these arguments *)

(** A call that changes the platform. *)
Definition is_mutation (e : Event) : bool :=
  match e with
  | EChannelsCreate _ _ _ _ _ | ESetName _ _ _ | EEditParent _ _ _
  | EEditPosition _ _ _ | EDelete _ _ | EPermissionOverwritesCreate _ _ => true
  | _ => false
  end.

(** Any access to the mapping store. *)
Definition is_redis (e : Event) : bool :=
  match e with
  | ERedisGet _ | ERedisSet _ | ERedisDel _ => true
  | _ => false
  end.

Definition is_redis_write (e : Event) : bool :=
  match e with
  | ERedisSet _ | ERedisDel _ => true
  | _ => false
  end.

(** ** The monad of asynchronous functions *)

Record Outcome (A : Type) := mkOutcome {
  result : Result A;
  final : World;
  emitted : list Event
}.
Arguments mkOutcome {A} _ _ _.
Arguments result {A} _.
Arguments final {A} _.
Arguments emitted {A} _.

Definition M (A : Type) : Type := World -> Outcome A.

Definition ret {A} (a : A) : M A := fun w => mkOutcome (Ok a) w [].

Definition throw {A} (e : Error) : M A := fun w => mkOutcome (Throw e) w [].

Definition bind {A B} (m : M A) (f : A -> M B) : M B := fun w =>
  match m w with
  | mkOutcome (Ok a) w1 t1 =>
      match f a w1 with
      | mkOutcome r w2 t2 => mkOutcome r w2 (t1 ++ t2)
      end
  | mkOutcome (Throw e) w1 t1 => mkOutcome (Throw e) w1 t1
  end.

(** [try { m } catch (error) { h error }] *)
Definition try_catch {A} (m : M A) (h : Error -> M A) : M A := fun w =>
  match m w with
  | mkOutcome (Ok a) w1 t1 => mkOutcome (Ok a) w1 t1
  | mkOutcome (Throw e) w1 t1 =>
      match h e w1 with
      | mkOutcome r w2 t2 => mkOutcome r w2 (t1 ++ t2)
      end
  end.

(** Lifts a pure computation that may throw. *)
Definition lift {A} (r : Result A) : M A := fun w => mkOutcome r w [].

Definition emit (e : Event) : M unit := fun w => mkOutcome (Ok tt) w [e].

Declare Scope js_scope.
Delimit Scope js_scope with js.
Notation "'let*' x ':=' m 'in' k" := (bind m (fun x => k))
  (at level 10, x name, m at level 100, k at level 200) : js_scope.
Notation "m ';;' k" := (bind m (fun _ => k))
  (at level 100, k at level 200, right associativity) : js_scope.
Open Scope js_scope.

(** [for (const x of l) { body x }] *)
Fixpoint for_of {A} (l : list A) (body : A -> M unit) : M unit :=
  match l with
  | [] => ret tt
  | x :: l' => body x ;; for_of l' body
  end.

Definition console_error (m : ErrorMsg) : M unit := emit (EConsoleError m).

(** ** The clients: ioredis, discord.js, axios

    Every call is recorded, whether it succeeds or not. *)

Definition out {A} (r : Result A) (w : World) (e : Event) : Outcome A :=
  mkOutcome r w [e].

(** [redis.get(key)], [redis.set(key, id)], [redis.del(key)] on a
    channel-id key.

    The store is taken to answer every call: a world holds the failures
    of the metrics request and of the platform and none of the store,
    so a rejected [redis] call lies outside every statement below. *)
Definition redis_get (key : string) : M (option string) := fun w =>
  out (Ok (r_ids (w_redis w) !! key)) w (ERedisGet key).

Definition redis_set (key id : string) : M unit := fun w =>
  out (Ok tt)
      (with_redis {| r_guilds := r_guilds (w_redis w);
                     r_ids := <[key := id]> (r_ids (w_redis w)) |} w)
      (ERedisSet key).

Definition redis_del (key : string) : M unit := fun w =>
  out (Ok tt)
      (with_redis {| r_guilds := r_guilds (w_redis w);
                     r_ids := delete key (r_ids (w_redis w)) |} w)
      (ERedisDel key).

(** The same on the registry key, whose value is a JSON array. *)
Definition redis_get_json (key : string) : M (option (list string)) := fun w =>
  out (Ok (r_guilds (w_redis w))) w (ERedisGet key).

Definition redis_set_json (key : string) (l : list string) : M unit := fun w =>
  out (Ok tt)
      (with_redis {| r_guilds := Some l; r_ids := r_ids (w_redis w) |} w)
      (ERedisSet key).

Definition lookup_channel (guildId channelId : string) (d : Discord) : option Channel :=
  match d_guilds d !! guildId with
  | Some g => g_channels g !! channelId
  | None => None
  end.

Definition set_channels (guildId : string) (cs : gmap string Channel) (d : Discord) : Discord :=
  {| d_guilds :=
       alter (fun g => {| g_botMember := g_botMember g; g_channels := cs |})
             guildId (d_guilds d);
     d_nextId := d_nextId d |}.

(** [client.guilds.fetch(guildId)].  The guild object is a handle: the
    calls made through it see the platform as it is when they are made,
    so the handle is the guild id. *)
Definition client_guilds_fetch (guildId : string) : M string := fun w =>
  let r :=
    match e_guildsFetch (w_env w) guildId with
    | Some e => Throw e
    | None =>
        match d_guilds (w_discord w) !! guildId with
        | Some _ => Ok guildId
        | None => Throw (DiscordAPIError 10004)
        end
    end in
  out r w (EGuildsFetch guildId).

(** [guild.members.fetch(client.user!.id)] *)
Definition guild_members_fetch (guild : string) : M GuildMember := fun w =>
  let r :=
    match e_membersFetch (w_env w) guild with
    | Some e => Throw e
    | None =>
        match d_guilds (w_discord w) !! guild with
        | Some g => Ok (g_botMember g)
        | None => Throw (DiscordAPIError 10004)
        end
    end in
  out r w (EMembersFetch guild).

(** [guild.channels.fetch(id)] *)
Definition guild_channels_fetch (guild channelId : string) : M (option Channel) := fun w =>
  let r :=
    match e_channelsFetch (w_env w) guild channelId with
    | FetchRejects e => Throw e
    | FetchResolvesNull => Ok None
    | FetchNormally =>
        match lookup_channel guild channelId (w_discord w) with
        | Some c => Ok (Some c)
        | None => Throw (DiscordAPIError 10003)
        end
    end in
  out r w (EChannelsFetch guild channelId).

(** [guild.channels.create({ name, type, parent, position, ... })].
    The permission overwrites passed along are not part of the model. *)
Definition guild_channels_create (guild name : string) (type : ChannelType)
    (parent : option string) (position : Z) : M Channel := fun w =>
  let ev := EChannelsCreate guild name type parent position in
  match e_channelsCreate (w_env w) guild name type with
  | Some e => out (Throw e) w ev
  | None =>
      match d_guilds (w_discord w) !! guild with
      | None => out (Throw (DiscordAPIError 10004)) w ev
      | Some g =>
          let c := {| ch_id := pretty (d_nextId (w_discord w)); ch_name := name;
                      ch_type := type; ch_parentId := parent;
                      ch_position := position |} in
          let d := set_channels guild (<[ch_id c := c]> (g_channels g)) (w_discord w) in
          out (Ok c)
              (with_discord {| d_guilds := d_guilds d;
                               d_nextId := N.succ (d_nextId d) |} w)
              ev
      end
  end.

(** The shape shared by the calls that change one live channel. *)
Definition channel_mutation (fault : Env -> string -> string -> option Error)
    (change : Channel -> option Channel) (ev : Event)
    (guild : string) (channel : Channel) : M unit := fun w =>
  match fault (w_env w) guild (ch_id channel) with
  | Some e => out (Throw e) w ev
  | None =>
      match d_guilds (w_discord w) !! guild with
      | None => out (Throw (DiscordAPIError 10004)) w ev
      | Some g =>
          match g_channels g !! ch_id channel with
          | None => out (Throw (DiscordAPIError 10003)) w ev
          | Some c =>
              let cs :=
                match change c with
                | Some c' => <[ch_id channel := c']> (g_channels g)
                | None => delete (ch_id channel) (g_channels g)
                end in
              out (Ok tt) (with_discord (set_channels guild cs (w_discord w)) w) ev
          end
      end
  end.

(** [channel.setName(value)] *)
Definition channel_setName (guild : string) (channel : Channel) (value : string) : M unit :=
  channel_mutation e_setName
    (fun c => Some {| ch_id := ch_id c; ch_name := value; ch_type := ch_type c;
                      ch_parentId := ch_parentId c; ch_position := ch_position c |})
    (ESetName guild (ch_id channel) value) guild channel.

(** [channel.edit({ parent })] *)
Definition channel_edit_parent (guild : string) (channel : Channel) (parent : string) : M unit :=
  channel_mutation e_editParent
    (fun c => Some {| ch_id := ch_id c; ch_name := ch_name c; ch_type := ch_type c;
                      ch_parentId := Some parent; ch_position := ch_position c |})
    (EEditParent guild (ch_id channel) parent) guild channel.

(** [channel.edit({ position })] *)
Definition channel_edit_position (guild : string) (channel : Channel) (position : Z) : M unit :=
  channel_mutation e_editPosition
    (fun c => Some {| ch_id := ch_id c; ch_name := ch_name c; ch_type := ch_type c;
                      ch_parentId := ch_parentId c; ch_position := position |})
    (EEditPosition guild (ch_id channel) position) guild channel.

(** [channel.delete()] *)
Definition channel_delete (guild : string) (channel : Channel) : M unit :=
  channel_mutation e_delete (fun _ => None) (EDelete guild (ch_id channel)) guild channel.

(** [channel.permissionOverwrites.create(client.user!.id, ...)].  The
    overwrites themselves are not part of the model. *)
Definition channel_permissionOverwrites_create (guild : string) (channel : Channel) : M unit :=
  channel_mutation e_permissionOverwrites (fun c => Some c)
    (EPermissionOverwritesCreate guild (ch_id channel)) guild channel.

(** [channel.manageable] *)
Definition channel_manageable (guild : string) (channel : Channel) : M bool := fun w =>
  mkOutcome (Ok (e_manageable (w_env w) guild (ch_id channel))) w [].

(** [axios.get(url)]: rejects when there is no response or when the
    status is not 2xx, resolves with the body otherwise. *)
Definition axios_get (url : string) : M ResponseData := fun w =>
  let r :=
    match e_http (w_env w) with
    | HttpRejects e => Throw e
    | HttpResolves data => Ok data
    end in
  out r w (EHttpGet url).

(** [data.field]: a [TypeError] on null and undefined, [undefined] on a
    primitive. *)
Definition data_bigPrice (data : ResponseData) : Result JsValue :=
  match data with
  | DataNullish => Throw TypeError
  | DataPrimitive _ => Ok JsUndefined
  | DataObject p _ => Ok p
  end.

Definition data_blocksUntilHalving (data : ResponseData) : Result JsValue :=
  match data with
  | DataNullish => Throw TypeError
  | DataPrimitive _ => Ok JsUndefined
  | DataObject _ b => Ok b
  end.

(** [!data] *)
Definition data_falsy (data : ResponseData) : bool :=
  match data with
  | DataNullish => true
  | DataPrimitive truthy => negb truthy
  | DataObject _ _ => false
  end.

(** [!s] on a string: only the empty string is falsy. *)
Definition string_falsy (s : string) : bool := String.eqb s "".

(** [Array.from(new Set(l))]: the first occurrence of every element, in
    order. *)
Fixpoint Array_from_Set (l : list string) : list string :=
  match l with
  | [] => []
  | x :: l' => x :: List.filter (fun y => negb (String.eqb y x)) (Array_from_Set l')
  end.

Record Stats := mkStats {
  s_price : JsValue;
  s_blocksUntilHalving : JsValue
}.

Definition STATS_URL : string := "https://bigpool.tech/api/stats/global".
Definition GUILD_KEY : string := "guilds".

(** * src/index.ts *)

Module Index.

(** ** The mapping store accessors *)

Definition getGuilds : M (list string) :=
  let* guilds := redis_get_json GUILD_KEY in
  match guilds with
  | None => ret []
  | Some l => ret l
  end.

(** [getGuilds] answers an array, and an array is never falsy: the
    first branch of the source cannot be taken. *)
Definition array_falsy (l : list string) : bool := false.

Definition addGuild (guildId : string) : M (list string) :=
  let* guilds := getGuilds in
  if array_falsy guilds then
    redis_set_json GUILD_KEY [guildId] ;;
    ret guilds
  else
    let guilds := guilds ++ [guildId] in
    redis_set_json GUILD_KEY (Array_from_Set guilds) ;;
    ret guilds.

Definition removeGuild (guildId : string) : M (option (list string)) :=
  let* guilds := getGuilds in
  if (length guilds =? 0)%nat then
    ret None
  else
    let newGuilds := List.filter (fun id => negb (String.eqb id guildId)) guilds in
    redis_set_json GUILD_KEY (Array_from_Set newGuilds) ;;
    ret (Some guilds).

Definition get_id (key : string) : M (option string) :=
  let* id := redis_get key in
  match id with
  | None => ret None
  | Some id => if string_falsy id then ret None else ret (Some id)
  end.

Definition getChannelGroupId (guildId : string) : M (option string) :=
  get_id (guildId +:+ ":channelGroup").

Definition setChannelGroupId (guildId id : string) : M unit :=
  redis_set (guildId +:+ ":channelGroup") id.

Definition removeChannelGroupId (guildId : string) : M unit :=
  redis_del (guildId +:+ ":channelGroup").

Definition getPriceChannelId (guildId : string) : M (option string) :=
  get_id (guildId +:+ ":priceChannel").

Definition setPriceChannelId (guildId id : string) : M unit :=
  redis_set (guildId +:+ ":priceChannel") id.

Definition removePriceChannelId (guildId : string) : M unit :=
  redis_del (guildId +:+ ":priceChannel").

Definition getHalveningChannelId (guildId : string) : M (option string) :=
  get_id (guildId +:+ ":halveningChannel").

Definition setHalveningChannelId (guildId id : string) : M unit :=
  redis_set (guildId +:+ ":halveningChannel") id.

Definition removeHalveningChannelId (guildId : string) : M unit :=
  redis_del (guildId +:+ ":halveningChannel").

(** ** The metrics fetcher *)

Definition getStats : M Stats :=
  let* response_data := axios_get STATS_URL in
  let* bigPrice := lift (data_bigPrice response_data) in
  let* blocksUntilHalving := lift (data_blocksUntilHalving response_data) in
  ret {| s_price := bigPrice; s_blocksUntilHalving := blocksUntilHalving |}.

(** ** The channel group *)

(** The literal of the source, byte for byte. *)
Definition CHANNEL_GROUP_NAME : string := "ðŸŒ• BIGCOIN".

Definition createChannelGroup (guildId : string) : M string :=
  let* guild := client_guilds_fetch guildId in
  let* channelGroup :=
    guild_channels_create guild CHANNEL_GROUP_NAME GuildCategory None 0 in
  setChannelGroupId guildId (ch_id channelGroup) ;;
  ret (ch_id channelGroup).

Definition ensureChannelGroupExists (guildId : string) : M string :=
  let* guild := client_guilds_fetch guildId in
  let* channelGroupId := getChannelGroupId guildId in
  match channelGroupId with
  | None => createChannelGroup guildId
  | Some channelGroupId =>
      (* Verify the channel group still exists *)
      let* exists_ :=
        try_catch
          (let* existingChannelGroup := guild_channels_fetch guild channelGroupId in
           match existingChannelGroup with
           | Some _ => ret true
           | None => ret false
           end)
          (fun _ => ret false) in
      if exists_ then ret channelGroupId
      else
        (* Channel group doesn't exist, create a new one *)
        removeChannelGroupId guildId ;;
        createChannelGroup guildId
  end.

(** ** Teardown *)

(** [try { c = fetch(id); if (c) c.delete() } catch { log }] *)
Definition delete_if_present (guild id : string) : M unit :=
  try_catch
    (let* channel := guild_channels_fetch guild id in
     match channel with
     | Some c => channel_delete guild c
     | None => ret tt
     end)
    (fun _ => ret tt).

Definition removeChannelGroup (guildId : string) : M unit :=
  let* guild := client_guilds_fetch guildId in
  let* id := getChannelGroupId guildId in
  match id with
  | Some id =>
      delete_if_present guild id ;;
      removeChannelGroupId guildId
  | None => ret tt
  end.

Definition removePriceChannel (guildId : string) : M unit :=
  try_catch
    (let* guild := client_guilds_fetch guildId in
     let* priceChannelId := getPriceChannelId guildId in
     match priceChannelId with
     | Some id =>
         delete_if_present guild id ;;
         removePriceChannelId guildId
     | None => ret tt
     end)
    (fun error => console_error (ErrorRemovingChannel Price guildId error)).

Definition removeHalveningChannel (guildId : string) : M unit :=
  try_catch
    (let* guild := client_guilds_fetch guildId in
     let* halveningChannelId := getHalveningChannelId guildId in
     match halveningChannelId with
     | Some id =>
         delete_if_present guild id ;;
         removeHalveningChannelId guildId
     | None => ret tt
     end)
    (fun error => console_error (ErrorRemovingChannel Halvening guildId error)).

(** ** The reconciler *)

Definition getChannelId (channelType : ChannelKind) : string -> M (option string) :=
  match channelType with Price => getPriceChannelId | Halvening => getHalveningChannelId end.

Definition setChannelId (channelType : ChannelKind) : string -> string -> M unit :=
  match channelType with Price => setPriceChannelId | Halvening => setHalveningChannelId end.

Definition removeChannelId (channelType : ChannelKind) : string -> M unit :=
  match channelType with Price => removePriceChannelId | Halvening => removeHalveningChannelId end.

(** Lines 319-347: the category the two channels live under. *)
Definition fetchChannelGroup (guildId guild channelGroupId : string) : M Channel :=
  try_catch
    (let* channelGroup := guild_channels_fetch guild channelGroupId in
     match channelGroup with
     | None => throw TypeError      (* [channelGroup.name] in the log line *)
     | Some channelGroup =>
         (* Verify the channel group is actually a category *)
         if negb (ChannelType_eqb (ch_type channelGroup) GuildCategory) then
           throw (JsError "Channel group is not a category")
         else ret channelGroup
     end)
    (fun error =>
       console_error (FailedToFetchChannelGroup guildId channelGroupId error) ;;
       removeChannelGroupId guildId ;;
       let* newChannelGroupId := createChannelGroup guildId in
       let* channelGroup := guild_channels_fetch guild newChannelGroupId in
       match channelGroup with
       | None => throw TypeError    (* [channelGroup.name] in the log line *)
       | Some channelGroup => ret channelGroup
       end).

(** Lines 357-400: the stored channel, when it is still a live voice
    channel. *)
Definition fetchStoredChannel (guildId guild : string) (channelType : ChannelKind)
    : M (option Channel) :=
  let* channelId := getChannelId channelType guildId in
  match channelId with
  | None => ret None
  | Some channelId =>
      try_catch
        (let* fetchedChannel := guild_channels_fetch guild channelId in
         match fetchedChannel with
         | None =>
             removeChannelId channelType guildId ;;
             ret None
         | Some fetchedChannel =>
             if negb (ChannelType_eqb (ch_type fetchedChannel) GuildVoice) then
               console_error (StoredChannelNotVoice channelType (ch_type fetchedChannel)) ;;
               removeChannelId channelType guildId ;;
               ret None
             else ret (Some fetchedChannel)
         end)
        (fun _ =>
           removeChannelId channelType guildId ;;
           ret None)
  end.

(** Lines 404-430: no channel exists, create one. *)
Definition createChannel (guildId guild : string) (channelType : ChannelKind)
    (value : string) (position : Z) (channelGroup : Channel) : M unit :=
  try_catch
    (let* newChannel :=
       guild_channels_create guild value GuildVoice (Some (ch_id channelGroup)) position in
     setChannelId channelType guildId (ch_id newChannel))
    (fun createError =>
       console_error (FailedToCreateChannel channelType guildId createError) ;;
       throw createError).

Definition option_string_eqb (a : option string) (b : string) : bool :=
  match a with
  | Some a => String.eqb a b
  | None => false
  end.

(** Lines 433-534: update the existing channel.  A [return] inside a
    [catch] leaves the function: the steps after it are not run. *)
Definition updateExisting (guildId guild : string) (channelType : ChannelKind)
    (value : string) (position : Z) (channelGroup channel : Channel) : M unit :=
  try_catch
    ((* Check if channel is manageable *)
     let* manageable := channel_manageable guild channel in
     let* continue_ :=
       if negb manageable then
         try_catch
           (channel_permissionOverwrites_create guild channel ;; ret true)
           (fun permError =>
              console_error (FailedToUpdatePermissions channelType guildId permError) ;;
              ret false)
       else ret true in
     if negb continue_ then ret tt
     else
       (* Only update name if it's different *)
       let* continue_ :=
         if negb (String.eqb (ch_name channel) value) then
           try_catch
             (channel_setName guild channel value ;; ret true)
             (fun nameError =>
                console_error (FailedToUpdateName channelType guildId nameError) ;;
                (* Don't continue with other operations if name update fails *)
                ret false)
         else ret true in
       if negb continue_ then ret tt
       else
         (* Only move to category if it's different and category exists *)
         (if negb (option_string_eqb (ch_parentId channel) (ch_id channelGroup)) then
            try_catch
              (channel_edit_parent guild channel (ch_id channelGroup))
              (fun moveError =>
                 (* Continue without moving the channel *)
                 console_error (FailedToMove channelType guildId moveError))
          else ret tt) ;;
         (* Only update position if it's different *)
         (if negb (ch_position channel =? position) then
            try_catch
              (channel_edit_position guild channel position)
              (fun positionError =>
                 (* Continue without updating position *)
                 console_error (FailedToUpdatePosition channelType guildId positionError))
          else ret tt))
    (fun editError =>
       console_error (FailedToEdit channelType guildId editError) ;;
       throw editError).

Definition updateChannel (guildId : string) (channelType : ChannelKind)
    (value : string) (position : Z) : M unit :=
  emit (EUpdateChannel guildId channelType value position) ;;
  try_catch
    (let* guild := client_guilds_fetch guildId in
     (* Comprehensive bot permissions check *)
     let* botMember := guild_members_fetch guild in
     let permissions := permissions botMember in
     if negb (ManageChannels permissions) then
       console_error (MissingManageChannels guildId)
     else if negb (ViewChannel permissions) then
       console_error (MissingViewChannel guildId)
     else
       (* Check bot's role hierarchy position *)
       let botRolePosition := roles_highest_position botMember in
       if botRolePosition =? 0 then
         console_error (BotHasNoRoles guildId)
       else
         (* Ensure channel group exists *)
         let* channelGroupId := ensureChannelGroupExists guildId in
         let* channelGroup := fetchChannelGroup guildId guild channelGroupId in
         (* Get existing channel ID from Redis *)
         let* channel := fetchStoredChannel guildId guild channelType in
         match channel with
         | None => createChannel guildId guild channelType value position channelGroup
         | Some channel =>
             updateExisting guildId guild channelType value position channelGroup channel
         end)
    (fun error => console_error (ErrorUpdatingChannel channelType guildId error)).

Section Formatting.

(** [formatter.format] for the en-US currency formatter with four
    fraction digits, and [toLocaleString] with the compact options, are
    the runtime's; the program only passes values to them. *)
Variable currencyFormat : JsValue -> string.
Variable compactFormat : float -> string.

(** [number.toLocaleString('en-US', { ... })] *)
Definition formatNumber (number : JsValue) : Result string :=
  match number with
  | JsNumber x => Ok (compactFormat x)
  | JsString s => Ok s
  | JsBoolean b => Ok (if b then "true" else "false")
  | JsNull | JsUndefined => Throw TypeError
  end.

Definition updatePriceChannel (guildId : string) (price : JsValue) : M unit :=
  let newName := "$BIG: " +:+ currencyFormat price in
  updateChannel guildId Price newName 0.

Definition updateHalveningChannel (guildId : string) (blocksUntilHalving : JsValue) : M unit :=
  let* formatted := lift (formatNumber blocksUntilHalving) in
  let newName := "HALVENING: " +:+ formatted in
  updateChannel guildId Halvening newName 1.

Definition updatePrice : M unit :=
  let* stats := getStats in
  let price := s_price stats in
  let blocksUntilHalving := s_blocksUntilHalving stats in
  let* guilds := getGuilds in
  (* the log line formats the countdown *)
  let* _ := lift (formatNumber blocksUntilHalving) in
  if (length guilds =? 0)%nat then ret tt
  else
    for_of guilds (fun guildId =>
      updatePriceChannel guildId price ;;
      updateHalveningChannel guildId blocksUntilHalving).

(** [client.on('guildCreate', ...)] *)
Definition guildCreate (guild_id : string) : M unit :=
  let* stats := getStats in
  let price := s_price stats in
  let blocksUntilHalving := s_blocksUntilHalving stats in
  updatePriceChannel guild_id price ;;
  updateHalveningChannel guild_id blocksUntilHalving ;;
  addGuild guild_id ;;
  ret tt.

End Formatting.

(** [client.on('guildDelete', ...)] *)
Definition guildDelete (guild_id : string) : M unit :=
  removeGuild guild_id ;;
  removePriceChannel guild_id ;;
  removeHalveningChannel guild_id ;;
  removeChannelGroup guild_id.

End Index.

(** * The later revision of the file

    A second copy of [index.ts] in the repository differs from the one
    above in the functions below; the store accessors are the same, and
    are shared. *)

Module Revised.

(** [number === null || number === undefined] is answered before
    [toLocaleString] is called. *)
Definition formatNumber (compactFormat : float -> string) (number : JsValue)
    : Result string :=
  match number with
  | JsNull | JsUndefined => Ok "0"
  | JsNumber x => Ok (compactFormat x)
  | JsString s => Ok s
  | JsBoolean b => Ok (if b then "true" else "false")
  end.

Definition zero_stats : Stats :=
  {| s_price := JsNumber 0%float; s_blocksUntilHalving := JsNumber 0%float |}.

Definition getStats : M Stats :=
  try_catch
    (let* response_data := axios_get STATS_URL in
     (* Validate the response data *)
     if data_falsy response_data then
       console_error InvalidResponseData ;;
       ret zero_stats
     else
       let* bigPrice := lift (data_bigPrice response_data) in
       if negb (typeof_number bigPrice) then
         console_error InvalidResponseData ;;
         ret zero_stats
       else
         let* blocksUntilHalving := lift (data_blocksUntilHalving response_data) in
         if negb (typeof_number blocksUntilHalving) then
           console_error InvalidResponseData ;;
           ret zero_stats
         else
           ret {| s_price := bigPrice; s_blocksUntilHalving := blocksUntilHalving |})
    (fun error =>
       console_error (FailedToFetchStats error) ;;
       ret zero_stats).

Definition removeChannelGroup (guildId : string) : M unit :=
  try_catch
    (let* guild := client_guilds_fetch guildId in
     let* id := Index.getChannelGroupId guildId in
     match id with
     | Some id =>
         Index.delete_if_present guild id ;;
         Index.removeChannelGroupId guildId
     | None => ret tt
     end)
    (fun error =>
       if error_code_is error 10004 then
         Index.removeChannelGroupId guildId
       else
         console_error (ErrorRemovingChannelGroup guildId error)).

Definition removePriceChannel (guildId : string) : M unit :=
  try_catch
    (let* guild := client_guilds_fetch guildId in
     let* priceChannelId := Index.getPriceChannelId guildId in
     match priceChannelId with
     | Some id =>
         Index.delete_if_present guild id ;;
         Index.removePriceChannelId guildId
     | None => ret tt
     end)
    (fun error =>
       if error_code_is error 10004 then
         Index.removePriceChannelId guildId
       else
         console_error (ErrorRemovingChannel Price guildId error)).

Definition removeHalveningChannel (guildId : string) : M unit :=
  try_catch
    (let* guild := client_guilds_fetch guildId in
     let* halveningChannelId := Index.getHalveningChannelId guildId in
     match halveningChannelId with
     | Some id =>
         Index.delete_if_present guild id ;;
         Index.removeHalveningChannelId guildId
     | None => ret tt
     end)
    (fun error =>
       if error_code_is error 10004 then
         Index.removeHalveningChannelId guildId
       else
         console_error (ErrorRemovingChannel Halvening guildId error)).

Definition guildDelete (guild_id : string) : M unit :=
  Index.removeGuild guild_id ;;
  removePriceChannel guild_id ;;
  removeHalveningChannel guild_id ;;
  removeChannelGroup guild_id.

(** ** The channel group of the later revision *)

Definition CHANNEL_GROUP_NAME : string := "BIGCOIN ₿".

(** [channel.permissionOverwrites.edit(target, ...)] sends the request
    [permissionOverwrites.create] sends, and is recorded as that call.
    The environment decides per guild and channel whether the request is
    refused, whatever the target. *)
Definition channel_permissionOverwrites_edit (guild : string) (channel : Channel) : M unit :=
  channel_permissionOverwrites_create guild channel.

Definition createChannelGroup (guildId : string) : M string :=
  try_catch
    (let* guild := client_guilds_fetch guildId in
     (* Check bot permissions before creating *)
     let* botMember := guild_members_fetch guild in
     let permissions := permissions botMember in
     if negb (ManageChannels permissions) then
       throw (JsError ("Bot missing ManageChannels permission in " +:+ guildId))
     else if roles_highest_position botMember =? 0 then
       throw (JsError ("Bot has no roles in " +:+ guildId))
     else
       let* channelGroup :=
         guild_channels_create guild CHANNEL_GROUP_NAME GuildCategory None 0 in
       (* 2) deny connect on @everyone *)
       channel_permissionOverwrites_edit guild channelGroup ;;
       (* 3) explicitly allow your bot user to view & connect *)
       channel_permissionOverwrites_edit guild channelGroup ;;
       Index.setChannelGroupId guildId (ch_id channelGroup) ;;
       ret (ch_id channelGroup))
    (fun error =>
       console_error (FailedToCreateChannelGroup guildId error) ;;
       throw error).

Definition ensureChannelGroupExists (guildId : string) : M string :=
  let* guild := client_guilds_fetch guildId in
  let* channelGroupId := Index.getChannelGroupId guildId in
  match channelGroupId with
  | None => createChannelGroup guildId
  | Some channelGroupId =>
      (* Verify the channel group still exists *)
      let* exists_ :=
        try_catch
          (let* existingChannelGroup := guild_channels_fetch guild channelGroupId in
           match existingChannelGroup with
           | Some _ => ret true
           | None => ret false
           end)
          (fun _ => ret false) in
      if exists_ then ret channelGroupId
      else
        (* Channel group doesn't exist, create a new one *)
        Index.removeChannelGroupId guildId ;;
        createChannelGroup guildId
  end.

(** ** The reconciler of the later revision *)

Definition fetchChannelGroup (guildId guild channelGroupId : string) : M Channel :=
  try_catch
    (let* channelGroup := guild_channels_fetch guild channelGroupId in
     match channelGroup with
     | None => throw TypeError      (* [channelGroup.name] in the log line *)
     | Some channelGroup =>
         (* Verify the channel group is actually a category *)
         if negb (ChannelType_eqb (ch_type channelGroup) GuildCategory) then
           throw (JsError "Channel group is not a category")
         else ret channelGroup
     end)
    (fun error =>
       console_error (FailedToFetchChannelGroup guildId channelGroupId error) ;;
       Index.removeChannelGroupId guildId ;;
       let* newChannelGroupId := createChannelGroup guildId in
       let* channelGroup := guild_channels_fetch guild newChannelGroupId in
       match channelGroup with
       | None => throw TypeError    (* [channelGroup.name] in the log line *)
       | Some channelGroup => ret channelGroup
       end).

(** No channel exists, create one.  The handler prints six lines. *)
Definition createChannel (guildId guild : string) (channelType : ChannelKind)
    (value : string) (position : Z) (channelGroup : Channel) : M unit :=
  try_catch
    (let* newChannel :=
       guild_channels_create guild value GuildVoice (Some (ch_id channelGroup)) position in
     Index.setChannelId channelType guildId (ch_id newChannel))
    (fun createError =>
       console_error (FailedToCreateChannelIn channelType guildId) ;;
       console_error (CreateErrorCode createError) ;;
       console_error (CreateErrorMessage createError) ;;
       console_error (CreateErrorGuildId guildId) ;;
       console_error (CreateErrorChannelGroupId (ch_id channelGroup)) ;;
       console_error CreateErrorBotUserId ;;
       throw createError).

(** Update the existing channel: only the name, no parent or position
    changes. *)
Definition updateExisting (guildId guild : string) (channelType : ChannelKind)
    (value : string) (channel : Channel) : M unit :=
  try_catch
    ((* Only update name if it's different *)
     if negb (String.eqb (ch_name channel) value) then
       try_catch
         (channel_setName guild channel value)
         (fun nameError =>
            console_error (FailedToUpdateName channelType guildId nameError))
     else ret tt)
    (fun editError =>
       console_error (FailedToEdit channelType guildId editError) ;;
       throw editError).

Definition updateChannel (guildId : string) (channelType : ChannelKind)
    (value : string) (position : Z) : M unit :=
  emit (EUpdateChannel guildId channelType value position) ;;
  try_catch
    (let* guild := client_guilds_fetch guildId in
     (* Comprehensive bot permissions check *)
     let* botMember := guild_members_fetch guild in
     let permissions := permissions botMember in
     if negb (ManageChannels permissions) then
       console_error (MissingManageChannels guildId)
     else if negb (ViewChannel permissions) then
       console_error (MissingViewChannel guildId)
     else
       (* Check bot's role hierarchy position *)
       let botRolePosition := roles_highest_position botMember in
       if botRolePosition =? 0 then
         console_error (BotHasNoRoles guildId)
       else
         (* Ensure channel group exists *)
         let* channelGroupId := ensureChannelGroupExists guildId in
         let* channelGroup := fetchChannelGroup guildId guild channelGroupId in
         (* Get existing channel ID from Redis *)
         let* channel := Index.fetchStoredChannel guildId guild channelType in
         match channel with
         | None => createChannel guildId guild channelType value position channelGroup
         | Some channel => updateExisting guildId guild channelType value channel
         end)
    (fun error => console_error (ErrorUpdatingChannel channelType guildId error)).

Section Formatting.

Variable currencyFormat : JsValue -> string.
Variable compactFormat : float -> string.

Definition updatePriceChannel (guildId : string) (price : JsValue) : M unit :=
  let newName := "$BIG: " +:+ currencyFormat price in
  updateChannel guildId Price newName 0.

Definition updateHalveningChannel (guildId : string) (blocksUntilHalving : JsValue) : M unit :=
  let* formatted := lift (formatNumber compactFormat blocksUntilHalving) in
  let newName := "HALVENING: " +:+ formatted in
  updateChannel guildId Halvening newName 1.

Definition updatePrice : M unit :=
  let* stats := getStats in
  let price := s_price stats in
  let blocksUntilHalving := s_blocksUntilHalving stats in
  let* guilds := Index.getGuilds in
  (* the log line formats the countdown *)
  let* _ := lift (formatNumber compactFormat blocksUntilHalving) in
  if (length guilds =? 0)%nat then ret tt
  else
    for_of guilds (fun guildId =>
      try_catch
        (updatePriceChannel guildId price ;;
         updateHalveningChannel guildId blocksUntilHalving)
        (fun error => console_error (FailedToUpdateGuild guildId error))).

(** [client.on('guildCreate', ...)] *)
Definition guildCreate (guild_id : string) : M unit :=
  try_catch
    ((* Check bot permissions immediately *)
     let* botMember := guild_members_fetch guild_id in
     let permissions := permissions botMember in
     if negb (ManageChannels permissions) then
       console_error (CannotCreateChannels guild_id)
     else
       let* stats := getStats in
       let price := s_price stats in
       let blocksUntilHalving := s_blocksUntilHalving stats in
       updatePriceChannel guild_id price ;;
       updateHalveningChannel guild_id blocksUntilHalving ;;
       Index.addGuild guild_id ;;
       ret tt)
    (fun error => console_error (FailedToSetUpChannels guild_id error)).

End Formatting.

End Revised.

(** * Vocabulary of the properties *)

(** The outcome [o] of a continuation, after the calls [t]. *)
Definition after {A} (t : list Event) (o : Outcome A) : Outcome A :=
  mkOutcome (result o) (final o) (t ++ emitted o).

(** The registry as [getGuilds] reads it. *)
Definition registry (w : World) : list string :=
  match r_guilds (w_redis w) with
  | Some l => l
  | None => []
  end.

(** The calls that mark a pass: the metrics request and the entry into
    [updateChannel]. *)
Definition is_marker (e : Event) : bool :=
  match e with
  | EHttpGet _ | EUpdateChannel _ _ _ _ => true
  | _ => false
  end.

Definition is_metrics_request (e : Event) : bool :=
  match e with
  | EHttpGet _ => true
  | _ => false
  end.

(** A read or write of the registry key. *)
Definition is_registry_access (e : Event) : bool :=
  match e with
  | ERedisGet key | ERedisSet key | ERedisDel key => String.eqb key GUILD_KEY
  | _ => false
  end.

(** What the body of [updateChannel] may issue: anything but a marker or
    an access to the registry. *)
Definition reconciling (e : Event) : bool :=
  negb (is_marker e) && negb (is_registry_access e).

Definition is_create_failure (e : Event) : bool :=
  match e with
  | EConsoleError (FailedToCreateChannel _ _ _) => true
  | _ => false
  end.

Definition no_create_failure (e : Event) : bool := negb (is_create_failure e).

Definition is_move_or_reposition (e : Event) : bool :=
  match e with
  | EEditParent _ _ _ | EEditPosition _ _ _ => true
  | _ => false
  end.



(** [respects P m]: [m] issues only calls accepted by [P], and leaves
    the environment and the registry as they are. *)
Definition respects {A} (P : Event -> bool) (m : M A) : Prop :=
  forall w,
    w_env (final (m w)) = w_env w /\
    r_guilds (w_redis (final (m w))) = r_guilds (w_redis w) /\
    forallb P (emitted (m w)) = true.

(** The store key of a channel kind. *)
Definition key_of (k : ChannelKind) (guildId : string) : string :=
  match k with
  | Price => guildId +:+ ":priceChannel"
  | Halvening => guildId +:+ ":halveningChannel"
  end.

(** The id [id] is stored under [key], as the accessors read it. *)
Definition stored (w : World) (key id : string) : Prop :=
  r_ids (w_redis w) !! key = Some id /\ string_falsy id = false.

(** [id] refers to the live channel [c] of the guild. *)
Definition live (w : World) (guildId id : string) (c : Channel) : Prop :=
  e_channelsFetch (w_env w) guildId id = FetchNormally /\
  lookup_channel guildId id (w_discord w) = Some c /\
  ch_id c = id.

(** The permission check of [updateChannel] passes. *)
Record permitted (w : World) (guildId : string) : Prop := {
  pm_guild : e_guildsFetch (w_env w) guildId = None;
  pm_member : e_membersFetch (w_env w) guildId = None;
  pm_rights : exists g,
    d_guilds (w_discord w) !! guildId = Some g /\
    ManageChannels (permissions (g_botMember g)) = true /\
    ViewChannel (permissions (g_botMember g)) = true /\
    (roles_highest_position (g_botMember g) =? 0) = false
}.

(** The stored group id refers to a live category [grp], and the stored
    id of the child [k] to a live voice channel [c]. *)
Record tracked (w : World) (guildId : string) (k : ChannelKind)
    (grp c : Channel) : Prop := {
  tr_group_stored : stored w (guildId +:+ ":channelGroup") (ch_id grp);
  tr_group_live : live w guildId (ch_id grp) grp;
  tr_group_type : ch_type grp = GuildCategory;
  tr_child_stored : stored w (key_of k guildId) (ch_id c);
  tr_child_live : live w guildId (ch_id c) c;
  tr_child_type : ch_type c = GuildVoice
}.

(** A tenant is converged for the child [k]: what is stored is live and
    has the desired name, parent and position. *)
Record converged (w : World) (guildId : string) (k : ChannelKind)
    (value : string) (position : Z) (grp c : Channel) : Prop := {
  cv_tracked : tracked w guildId k grp c;
  cv_name : ch_name c = value;
  cv_parent : ch_parentId c = Some (ch_id grp);
  cv_position : ch_position c = position
}.



Definition is_reconciliation (e : Event) : bool :=
  match e with
  | EUpdateChannel _ _ _ _ => true
  | _ => false
  end.


Definition is_update_of (guildId : string) (k : ChannelKind) (e : Event) : bool :=
  match e with
  | EUpdateChannel g k' _ _ =>
      String.eqb g guildId &&
      match k, k' with Price, Price | Halvening, Halvening => true | _, _ => false end
  | _ => false
  end.

Definition permission_denied_msg (guildId : string) (m : ErrorMsg) : Prop :=
  m = MissingManageChannels guildId \/
  m = MissingViewChannel guildId \/
  m = BotHasNoRoles guildId.

(** The two invocations of [updateChannel] a pass owes to a guild, for
    the snapshot with price [p] and formatted countdown [bs]. *)
Definition desired_calls (currencyFormat : JsValue -> string)
    (p : JsValue) (bs : string) (guildId : string) : list Event :=
  [ EUpdateChannel guildId Price ("$BIG: " +:+ currencyFormat p) 0;
    EUpdateChannel guildId Halvening ("HALVENING: " +:+ bs) 1 ].

(** The three calls around a failed creation of the price channel: the
    two log lines, then the entry into [updateChannel] for the countdown
    of the same guild. *)
Definition failure_then_halvening (guildId : string) (e : Error) (bs : string)
    : list Event :=
  [ EConsoleError (FailedToCreateChannel Price guildId e);
    EConsoleError (ErrorUpdatingChannel Price guildId e);
    EUpdateChannel guildId Halvening ("HALVENING: " +:+ bs) 1 ].

(** [m] logs a creation failure only as its last call, and then throws
    the error it has logged. *)
Definition create_failure_last {A} (k : ChannelKind) (guildId : string) (m : M A)
    : Prop :=
  forall w,
    forallb no_create_failure (emitted (m w)) = true \/
    exists t e,
      forallb no_create_failure t = true /\
      emitted (m w) = t ++ [EConsoleError (FailedToCreateChannel k guildId e)] /\
      result (m w) = Throw e.

(** The metrics request of [w] answers with price [p] and a countdown
    [b] that formats as [bs]. *)
Definition snapshot (compactFormat : float -> string) (w : World)
    (p b : JsValue) (bs : string) : Prop :=
  exists data,
    e_http (w_env w) = HttpResolves data /\
    data_bigPrice data = Ok p /\
    data_blocksUntilHalving data = Ok b /\
    Index.formatNumber compactFormat b = Ok bs.

(** The guild can be fetched. *)
Definition reachable (w : World) (guildId : string) : Prop :=
  e_guildsFetch (w_env w) guildId = None /\
  exists g, d_guilds (w_discord w) !! guildId = Some g.

(** Fetching the guild is rejected with [e]. *)
Definition unreachable (w : World) (guildId : string) (e : Error) : Prop :=
  e_guildsFetch (w_env w) guildId = Some e \/
  (e_guildsFetch (w_env w) guildId = None /\
   d_guilds (w_discord w) !! guildId = None /\
   e = DiscordAPIError 10004).

(** No key of the store holds the empty string. *)
Definition ids_nonempty (w : World) : Prop :=
  forall key id, r_ids (w_redis w) !! key = Some id -> string_falsy id = false.

(** What each of the three removers does inside its handlers: fetch the
    guild, read the stored id, delete the channel if it is there, and
    drop the id. *)
Definition remove_stored (key guildId : string) : M unit :=
  let* guild := client_guilds_fetch guildId in
  let* id := Index.get_id key in
  match id with
  | Some id => Index.delete_if_present guild id ;; redis_del key
  | None => ret tt
  end.

(** ** Vocabulary of the further properties *)

(** The three store keys of a guild. *)
Definition own_keys (guildId : string) : list string :=
  [ guildId +:+ ":channelGroup"; guildId +:+ ":priceChannel";
    guildId +:+ ":halveningChannel" ].

(** A deletion of a channel. *)
Definition is_delete (e : Event) : bool :=
  match e with
  | EDelete _ _ => true
  | _ => false
  end.

Definition no_delete (e : Event) : bool := negb (is_delete e).

(** A guild that is not one of [gs]; a key that is none of theirs. *)
Definition foreign_guild (gs : list string) (g : string) : Prop := ~ In g gs.

Definition foreign_key (gs : list string) (key : string) : Prop :=
  forall g, In g gs -> ~ In key (own_keys g).

(** [confined gs m]: [m] changes no channel of a guild outside [gs] and
    no stored id other than those of the guilds of [gs]. *)
Definition confined {A} (gs : list string) (m : M A) : Prop :=
  forall w,
    (forall g, foreign_guild gs g ->
       d_guilds (w_discord (final (m w))) !! g = d_guilds (w_discord w) !! g) /\
    (forall key, foreign_key gs key ->
       r_ids (w_redis (final (m w))) !! key = r_ids (w_redis w) !! key).

(** The channel [c] with the desired name, parent and position. *)
Definition desired_channel (c grp : Channel) (value : string) (position : Z) : Channel :=
  {| ch_id := ch_id c; ch_name := value; ch_type := ch_type c;
     ch_parentId := Some (ch_id grp); ch_position := position |}.

(** The calls that bring [c] to the desired state: one for each of name,
    parent and position that differs. *)
Definition repairs (guildId : string) (c grp : Channel) (value : string)
    (position : Z) : list Event :=
  (if String.eqb (ch_name c) value then [] else [ESetName guildId (ch_id c) value]) ++
  (if Index.option_string_eqb (ch_parentId c) (ch_id grp) then []
   else [EEditParent guildId (ch_id c) (ch_id grp)]) ++
  (if ch_position c =? position then [] else [EEditPosition guildId (ch_id c) position]).

(** None of the three edits of the channel is refused. *)
Definition editable (w : World) (guildId id : string) : Prop :=
  e_manageable (w_env w) guildId id = true /\
  e_setName (w_env w) guildId id = None /\
  e_editParent (w_env w) guildId id = None /\
  e_editPosition (w_env w) guildId id = None.

(** The platform refuses nothing in the guild. *)
Record cooperative (env : Env) (guildId : string) : Prop := {
  co_fetch : forall id, e_channelsFetch env guildId id = FetchNormally;
  co_create : forall name type, e_channelsCreate env guildId name type = None;
  co_manageable : forall id, e_manageable env guildId id = true;
  co_setName : forall id, e_setName env guildId id = None;
  co_editParent : forall id, e_editParent env guildId id = None;
  co_editPosition : forall id, e_editPosition env guildId id = None
}.

(** The ids the platform has yet to hand out are not in use. *)
Definition fresh_ids (d : Discord) (guildId : string) : Prop :=
  forall m, (d_nextId d <= m)%N -> lookup_channel guildId (pretty m) d = None.

(** Every channel is filed under its own id. *)
Definition well_keyed (d : Discord) (guildId : string) : Prop :=
  forall id c, lookup_channel guildId id d = Some c -> ch_id c = id.

(** A guild in which a reconciliation can do its work: the permission
    check passes, nothing is refused, and the channel ids are in order. *)
Record healthy (w : World) (guildId : string) : Prop := {
  h_permitted : permitted w guildId;
  h_cooperative : cooperative (w_env w) guildId;
  h_fresh : fresh_ids (w_discord w) guildId;
  h_keyed : well_keyed (w_discord w) guildId
}.

(** The channel [guild.channels.create] answers in [w]. *)
Definition new_channel (w : World) (name : string) (type : ChannelType)
    (parent : option string) (position : Z) : Channel :=
  {| ch_id := pretty (d_nextId (w_discord w)); ch_name := name; ch_type := type;
     ch_parentId := parent; ch_position := position |}.

(** The stored group id refers to the live category [grp]. *)
Record group_tracked (w : World) (guildId : string) (grp : Channel) : Prop := {
  gt_stored : stored w (guildId +:+ ":channelGroup") (ch_id grp);
  gt_live : live w guildId (ch_id grp) grp;
  gt_type : ch_type grp = GuildCategory
}.

(** The id stored for the child, if any. *)
Definition stored_child_ids (w : World) (guildId : string) (k : ChannelKind) : list string :=
  match r_ids (w_redis w) !! key_of k guildId with
  | Some id => [id]
  | None => []
  end.

(** [w1] has the channels of [w], except possibly the one under [id]. *)
Definition same_channels_but (guildId id : string) (w w1 : World) : Prop :=
  forall id', id' <> id ->
    lookup_channel guildId id' (w_discord w1) = lookup_channel guildId id' (w_discord w).

(** [frame keys ids w w1]: from [w] to [w1] the environment and the
    registry are kept, the store changes at most under [keys], the
    channels that exist in the guild are kept except possibly those
    under [ids], and the id counter does not go back. *)
Record frame (guildId : string) (keys ids : list string) (w w1 : World) : Prop := {
  fr_env : w_env w1 = w_env w;
  fr_registry : r_guilds (w_redis w1) = r_guilds (w_redis w);
  fr_store : forall key, ~ In key keys ->
    r_ids (w_redis w1) !! key = r_ids (w_redis w) !! key;
  fr_channels : forall id c, ~ In id ids ->
    lookup_channel guildId id (w_discord w) = Some c ->
    lookup_channel guildId id (w_discord w1) = Some c;
  fr_nextId : (d_nextId (w_discord w) <= d_nextId (w_discord w1))%N
}.

(** The id stored for the countdown child, if any, is not the one stored
    for the price child, and is not an id the platform has yet to hand
    out. *)
Definition children_apart (w : World) (guildId : string) : Prop :=
  forall id,
    r_ids (w_redis w) !! key_of Halvening guildId = Some id ->
    r_ids (w_redis w) !! key_of Price guildId <> Some id /\
    forall m, (d_nextId (w_discord w) <= m)%N -> id <> pretty m.

(** Both children of the guild are converged, under one category. *)
Definition tenant_converged (w : World) (guildId : string)
    (priceName countdownName : string) : Prop :=
  exists grp c1 c2,
    converged w guildId Price priceName 0 grp c1 /\
    converged w guildId Halvening countdownName 1 grp c2.

(** What is known of a guild is kept by steps that leave the guild and
    its keys alone. *)
Record undisturbed (g : string) (w w1 : World) : Prop := {
  un_env : w_env w1 = w_env w;
  un_guild : d_guilds (w_discord w1) !! g = d_guilds (w_discord w) !! g;
  un_keys : forall key, In key (own_keys g) ->
    r_ids (w_redis w1) !! key = r_ids (w_redis w) !! key;
  un_nextId : (d_nextId (w_discord w) <= d_nextId (w_discord w1))%N
}.

(** Neither a move, nor a reposition, nor a deletion. *)
Definition keeps_place (e : Event) : bool :=
  negb (is_move_or_reposition e) && negb (is_delete e).

Definition no_metrics_request (e : Event) : bool := negb (is_metrics_request e).

(** ** Statements of the specification that the code does not satisfy *)


(** A failed creation of the price channel ends the pass for the guild:
    the countdown channel of that guild is not processed. *)
Definition create_failure_stops_tenant : Prop :=
  forall currencyFormat compactFormat w p b bs guildId e,
    snapshot compactFormat w p b bs ->
    In (EConsoleError (FailedToCreateChannel Price guildId e))
       (emitted (Index.updatePrice currencyFormat compactFormat w)) ->
    existsb (is_update_of guildId Halvening)
       (emitted (Index.updatePrice currencyFormat compactFormat w)) = false.



(** ** Sample worlds *)

Definition sample_data : ResponseData :=
  DataObject (JsNumber 1234.5%float) (JsNumber 1500000%float).

(** Every call succeeds, every channel is manageable. *)
Definition calm : Env :=
  {| e_http := HttpResolves sample_data;
     e_guildsFetch := fun _ => None;
     e_membersFetch := fun _ => None;
     e_channelsFetch := fun _ _ => FetchNormally;
     e_channelsCreate := fun _ _ _ => None;
     e_setName := fun _ _ => None;
     e_editParent := fun _ _ => None;
     e_editPosition := fun _ _ => None;
     e_delete := fun _ _ => None;
     e_permissionOverwrites := fun _ _ => None;
     e_manageable := fun _ _ => true |}.

Definition with_http (h : HttpOutcome) (e : Env) : Env :=
  mkEnv h (e_guildsFetch e) (e_membersFetch e) (e_channelsFetch e)
        (e_channelsCreate e) (e_setName e) (e_editParent e) (e_editPosition e)
        (e_delete e) (e_permissionOverwrites e) (e_manageable e).

Definition with_channelsCreate (f : string -> string -> ChannelType -> option Error)
    (e : Env) : Env :=
  mkEnv (e_http e) (e_guildsFetch e) (e_membersFetch e) (e_channelsFetch e)
        f (e_setName e) (e_editParent e) (e_editPosition e)
        (e_delete e) (e_permissionOverwrites e) (e_manageable e).


Definition with_manageable (f : string -> string -> bool) (e : Env) : Env :=
  mkEnv (e_http e) (e_guildsFetch e) (e_membersFetch e) (e_channelsFetch e)
        (e_channelsCreate e) (e_setName e) (e_editParent e) (e_editPosition e)
        (e_delete e) (e_permissionOverwrites e) f.

Definition admin : GuildMember :=
  {| permissions := {| ManageChannels := true; ViewChannel := true; ManageRoles := true |};
     roles_highest_position := 3 |}.

Definition bystander : GuildMember :=
  {| permissions := {| ManageChannels := false; ViewChannel := true; ManageRoles := false |};
     roles_highest_position := 1 |}.

Definition sample_format (v : JsValue) : string :=
  match v with JsNumber _ => "$1,234.5000" | _ => "$NaN" end.

Definition sample_compact (x : float) : string := "1.5M".

Definition group10 : Channel :=
  {| ch_id := "10"; ch_name := Index.CHANNEL_GROUP_NAME; ch_type := GuildCategory;
     ch_parentId := None; ch_position := 0 |}.

Definition price11 : Channel :=
  {| ch_id := "11"; ch_name := "$BIG: $1,234.5000"; ch_type := GuildVoice;
     ch_parentId := Some "10"; ch_position := 0 |}.

Definition halvening12 : Channel :=
  {| ch_id := "12"; ch_name := "HALVENING: 1.5M"; ch_type := GuildVoice;
     ch_parentId := Some "10"; ch_position := 1 |}.

Definition settled_ids : gmap string string :=
  <["1:channelGroup" := "10"]> (<["1:priceChannel" := "11"]>
    (<["1:halveningChannel" := "12"]> ∅)).

Definition guild_with (member : GuildMember) (cs : list Channel) : Guild :=
  {| g_botMember := member;
     g_channels := list_to_map (List.map (fun c => (ch_id c, c)) cs) |}.

Definition world_of (env : Env) (member : GuildMember) (cs : list Channel)
    (guilds : option (list string)) (ids : gmap string string) : World :=
  {| w_env := env;
     w_discord := {| d_guilds := <["1" := guild_with member cs]> ∅; d_nextId := 20 |};
     w_redis := {| r_guilds := guilds; r_ids := ids |} |}.

(** Guild ["1"] with its three channels in place and registered. *)
Definition settled : World :=
  world_of calm admin [group10; price11; halvening12] (Some ["1"]) settled_ids.

(** The same, but the bot cannot manage the channels. *)
Definition settled_unmanageable : World :=
  world_of (with_manageable (fun _ _ => false) calm) admin
           [group10; price11; halvening12] (Some ["1"]) settled_ids.

(** The bot lacks ManageChannels in guild ["1"]. *)
Definition unprivileged : World :=
  world_of calm bystander [group10; price11; halvening12] (Some ["1"]) settled_ids.

(** A guild the bot has just joined: no channels, nothing stored. *)
Definition fresh : World := world_of calm admin [] None ∅.

(** The same guild, registered, where creating the price channel is
    refused. *)
Definition fresh_no_price : World :=
  world_of (with_channelsCreate
              (fun _ name _ =>
                 if String.prefix "$BIG" name then Some (DiscordAPIError 50013)
                 else None)
              calm)
           admin [] (Some ["1"]) ∅.

Definition stale_price11 : Channel :=
  {| ch_id := "11"; ch_name := "$BIG: $0.0000"; ch_type := GuildVoice;
     ch_parentId := None; ch_position := 5 |}.


(** The guild is gone from the platform; its ids are still stored. *)
Definition vanished : World :=
  {| w_env := calm;
     w_discord := {| d_guilds := ∅; d_nextId := 20 |};
     w_redis := {| r_guilds := Some ["1"]; r_ids := settled_ids |} |}.

(** The metrics payload lacks the countdown. *)
Definition no_countdown : World :=
  {| w_env := with_http (HttpResolves (DataObject (JsNumber 1234.5%float) JsUndefined)) calm;
     w_discord := w_discord settled;
     w_redis := w_redis settled |}.

(** The metrics endpoint cannot be reached. *)
Definition offline : World :=
  {| w_env := with_http (HttpRejects (AxiosError None)) calm;
     w_discord := w_discord settled;
     w_redis := w_redis settled |}.

(** The price channel has drifted in name, parent and position; nothing
    is refused. *)
Definition drifted : World :=
  world_of calm admin [group10; stale_price11; halvening12] (Some ["1"]) settled_ids.

Definition with_permissionOverwrites (f : string -> string -> option Error) (e : Env) : Env :=
  mkEnv (e_http e) (e_guildsFetch e) (e_membersFetch e) (e_channelsFetch e)
        (e_channelsCreate e) (e_setName e) (e_editParent e) (e_editPosition e)
        (e_delete e) f (e_manageable e).

(** A guild the bot has just joined, where editing permission overwrites
    is refused. *)
Definition fresh_no_overwrites : World :=
  world_of (with_permissionOverwrites (fun _ _ => Some (DiscordAPIError 50013)) calm)
           admin [] None ∅.

(** * Properties *)

(** ** Running a computation *)

Lemma bind_ok {A B} (m : M A) (f : A -> M B) w a w1 t1 :
  m w = mkOutcome (Ok a) w1 t1 -> bind m f w = after t1 (f a w1).
Proof. intros E. unfold bind, after. rewrite E. now destruct (f a w1). Qed.

Lemma bind_throw {A B} (m : M A) (f : A -> M B) w e w1 t1 :
  m w = mkOutcome (Throw e) w1 t1 -> bind m f w = mkOutcome (Throw e) w1 t1.
Proof. intros E. unfold bind. now rewrite E. Qed.

Lemma try_catch_ok {A} (m : M A) (h : Error -> M A) w a w1 t1 :
  m w = mkOutcome (Ok a) w1 t1 -> try_catch m h w = mkOutcome (Ok a) w1 t1.
Proof. intros E. unfold try_catch. now rewrite E. Qed.

Lemma try_catch_throw {A} (m : M A) (h : Error -> M A) w e w1 t1 :
  m w = mkOutcome (Throw e) w1 t1 -> try_catch m h w = after t1 (h e w1).
Proof. intros E. unfold try_catch, after. rewrite E. now destruct (h e w1). Qed.

Lemma string_length_append (a b : string) :
  String.length (a +:+ b) = (String.length a + String.length b)%nat.
Proof. induction a as [|c a IH]; simpl; [reflexivity|]. now f_equal. Qed.

(** A channel-id key is never the registry key. *)
Lemma channel_key_not_registry (guildId suffix : string) :
  (6 < String.length suffix)%nat ->
  String.eqb (guildId +:+ suffix) GUILD_KEY = false.
Proof.
  intros Hlen. apply String.eqb_neq. intros E.
  apply (f_equal String.length) in E. rewrite string_length_append in E.
  cbn in E. lia.
Qed.

(** Unfolds the program down to the client calls, and evaluates what the
    hypotheses decide. *)
Ltac red_proj :=
  cbn [w_env w_discord w_redis r_guilds r_ids result final emitted app negb
       d_guilds d_nextId g_channels g_botMember
       ch_id ch_name ch_type ch_parentId ch_position
       permissions roles_highest_position ManageChannels ViewChannel
       ChannelType_eqb Index.option_string_eqb andb orb after].

Ltac run :=
  cbv beta iota zeta delta
    [bind try_catch ret throw lift emit out console_error with_discord with_redis
     Index.updateChannel Index.updateExisting Index.createChannel
     Index.fetchStoredChannel Index.fetchChannelGroup
     Index.ensureChannelGroupExists Index.createChannelGroup Index.delete_if_present
     Index.getChannelId Index.setChannelId Index.removeChannelId
     Index.getChannelGroupId Index.setChannelGroupId Index.removeChannelGroupId
     Index.getPriceChannelId Index.setPriceChannelId Index.removePriceChannelId
     Index.getHalveningChannelId Index.setHalveningChannelId
     Index.removeHalveningChannelId Index.get_id
     channel_setName channel_edit_parent channel_edit_position channel_delete
     channel_permissionOverwrites_create channel_manageable channel_mutation
     client_guilds_fetch guild_members_fetch guild_channels_fetch
     guild_channels_create lookup_channel redis_get redis_set redis_del];
  red_proj.

Ltac rew_hyps :=
  repeat match goal with
         | H : ?l = _ |- _ => progress (rewrite H)
         end.

Ltac exec := repeat (progress (run; rew_hyps)).

(** Splits on the innermost scrutinee the goal is stuck on. *)
Ltac case_scrutinee :=
  match goal with
  | |- context [match ?x with _ => _ end] =>
      lazymatch x with
      | context [match _ with _ => _ end] => fail
      | _ => destruct x eqn:?
      end
  end.

(** Membership in an explicit list. *)
Ltac in_list := cbn [In]; repeat (first [left; reflexivity | right]).

(** The same evaluation for the teardown, where a deletion has changed
    the channels of the guild. *)
Ltac run_teardown :=
  cbv beta iota zeta delta [remove_stored set_channels];
  run;
  rewrite ?lookup_alter_eq;
  cbn [fmap option_fmap option_map g_channels g_botMember].

Ltac exec_teardown := repeat (progress (run_teardown; rew_hyps)).

(** A key is absent after the deletions that dropped it. *)
Ltac gone :=
  first
  [ assumption
  | apply lookup_delete_eq
  | apply lookup_delete_None; first [left; reflexivity | right; gone] ].

(** ** Calls a computation may issue *)

Section Respects.
Context (P : Event -> bool).

Lemma respects_ret {A} (a : A) : respects P (ret a).
Proof. intros w. cbn. auto. Qed.

Lemma respects_throw {A} (e : Error) : respects P (@throw A e).
Proof. intros w. cbn. auto. Qed.

Lemma respects_lift {A} (r : Result A) : respects P (lift r).
Proof. intros w. cbn. auto. Qed.

Lemma respects_emit (e : Event) : P e = true -> respects P (emit e).
Proof. intros He w. cbn. rewrite He. auto. Qed.

Lemma respects_console_error (m : ErrorMsg) :
  P (EConsoleError m) = true -> respects P (console_error m).
Proof. apply respects_emit. Qed.

Lemma respects_bind {A B} (m : M A) (f : A -> M B) :
  respects P m -> (forall a, respects P (f a)) -> respects P (bind m f).
Proof.
  intros Hm Hf w. unfold bind.
  destruct (Hm w) as (He & Hr & Ht).
  destruct (m w) as [[a|e] w1 t1]; cbn in *; [|auto].
  destruct (Hf a w1) as (He' & Hr' & Ht').
  destruct (f a w1) as [r w2 t2]; cbn in *.
  rewrite forallb_app, Ht, Ht'. repeat split; congruence.
Qed.

Lemma respects_try_catch {A} (m : M A) (h : Error -> M A) :
  respects P m -> (forall e, respects P (h e)) -> respects P (try_catch m h).
Proof.
  intros Hm Hh w. unfold try_catch.
  destruct (Hm w) as (He & Hr & Ht).
  destruct (m w) as [[a|e] w1 t1]; cbn in *; [auto|].
  destruct (Hh e w1) as (He' & Hr' & Ht').
  destruct (h e w1) as [r w2 t2]; cbn in *.
  rewrite forallb_app, Ht, Ht'. repeat split; congruence.
Qed.

Lemma respects_redis_get key : P (ERedisGet key) = true -> respects P (redis_get key).
Proof. intros He w. cbn. rewrite He. auto. Qed.

Lemma respects_redis_set key id : P (ERedisSet key) = true -> respects P (redis_set key id).
Proof. intros He w. cbn. rewrite He. auto. Qed.

Lemma respects_redis_del key : P (ERedisDel key) = true -> respects P (redis_del key).
Proof. intros He w. cbn. rewrite He. auto. Qed.

Lemma respects_client_guilds_fetch g :
  P (EGuildsFetch g) = true -> respects P (client_guilds_fetch g).
Proof. intros He w. cbn. rewrite He. auto. Qed.

Lemma respects_guild_members_fetch g :
  P (EMembersFetch g) = true -> respects P (guild_members_fetch g).
Proof. intros He w. cbn. rewrite He. auto. Qed.

Lemma respects_guild_channels_fetch g id :
  P (EChannelsFetch g id) = true -> respects P (guild_channels_fetch g id).
Proof. intros He w. cbn. rewrite He. auto. Qed.

Lemma respects_guild_channels_create g name type parent position :
  P (EChannelsCreate g name type parent position) = true ->
  respects P (guild_channels_create g name type parent position).
Proof.
  intros He w. unfold guild_channels_create.
  destruct (e_channelsCreate _ _ _ _); [cbn; rewrite He; auto|].
  destruct (d_guilds _ !! g); cbn; rewrite He; auto.
Qed.

Lemma respects_channel_mutation fault change ev g c :
  P ev = true -> respects P (channel_mutation fault change ev g c).
Proof.
  intros He w. unfold channel_mutation.
  destruct (fault _ _ _); [cbn; rewrite He; auto|].
  destruct (d_guilds _ !! g) as [gd|]; [|cbn; rewrite He; auto].
  destruct (g_channels gd !! ch_id c); cbn; rewrite He; auto.
Qed.

Lemma respects_channel_manageable g c : respects P (channel_manageable g c).
Proof. intros w. cbn. auto. Qed.

End Respects.

Lemma reconciling_channel_key (mk : string -> Event) (guildId suffix : string) :
  (forall key, is_marker (mk key) = false) ->
  (forall key, is_registry_access (mk key) = String.eqb key GUILD_KEY) ->
  (6 < String.length suffix)%nat ->
  reconciling (mk (guildId +:+ suffix)) = true.
Proof.
  intros Hm Hr Hlen. unfold reconciling.
  now rewrite Hm, Hr, channel_key_not_registry.
Qed.

Ltac accepted :=
  first
  [ reflexivity
  | apply (reconciling_channel_key ERedisGet); [reflexivity | reflexivity | cbn; lia]
  | apply (reconciling_channel_key ERedisSet); [reflexivity | reflexivity | cbn; lia]
  | apply (reconciling_channel_key ERedisDel); [reflexivity | reflexivity | cbn; lia] ].

Ltac respects_step :=
  first
  [ apply respects_bind; [|intros ?]
  | apply respects_try_catch; [|intros ?]
  | apply respects_ret
  | apply respects_throw
  | apply respects_lift
  | apply respects_console_error; accepted
  | apply respects_emit; accepted
  | apply respects_redis_get; accepted
  | apply respects_redis_set; accepted
  | apply respects_redis_del; accepted
  | apply respects_client_guilds_fetch; accepted
  | apply respects_guild_members_fetch; accepted
  | apply respects_guild_channels_fetch; accepted
  | apply respects_guild_channels_create; accepted
  | apply respects_channel_mutation; accepted
  | apply respects_channel_manageable
  | match goal with
    | |- respects _ (match ?x with _ => _ end) => destruct x
    | |- respects _ ((match ?x with _ => _ end) _) => destruct x; cbn beta
    | |- respects _ ((match ?x with _ => _ end) _ _) => destruct x; cbn beta
    end ].

Ltac unfold_index :=
  unfold Index.updateExisting, Index.createChannel, Index.fetchStoredChannel,
    Index.fetchChannelGroup, Index.ensureChannelGroupExists,
    Index.createChannelGroup, Index.delete_if_present,
    Index.getChannelId, Index.setChannelId, Index.removeChannelId,
    Index.getChannelGroupId, Index.setChannelGroupId, Index.removeChannelGroupId,
    Index.getPriceChannelId, Index.setPriceChannelId, Index.removePriceChannelId,
    Index.getHalveningChannelId, Index.setHalveningChannelId,
    Index.removeHalveningChannelId, Index.get_id,
    channel_setName, channel_edit_parent, channel_edit_position,
    channel_delete, channel_permissionOverwrites_create.

Ltac prove_respects := unfold_index; repeat respects_step.

Lemma filter_marker_reconciling (t : list Event) :
  forallb reconciling t = true -> List.filter is_marker t = [].
Proof.
  induction t as [|e t IH]; cbn; [reflexivity|].
  intros H. apply andb_prop in H as [H1 H2]. unfold reconciling in H1.
  destruct (is_marker e); [discriminate|auto].
Qed.

Lemma filter_registry_reconciling (t : list Event) :
  forallb reconciling t = true -> List.filter is_registry_access t = [].
Proof.
  induction t as [|e t IH]; cbn; [reflexivity|].
  intros H. apply andb_prop in H as [H1 H2]. unfold reconciling in H1.
  destruct (is_registry_access e); [now rewrite andb_false_r in H1|auto].
Qed.

(** ** [updateChannel] as a whole *)

(** [updateChannel] catches whatever its body throws. *)
Lemma updateChannel_returns guildId channelType value position w :
  result (Index.updateChannel guildId channelType value position w) = Ok tt.
Proof.
  unfold Index.updateChannel. unfold bind at 1. cbn [emit].
  unfold try_catch.
  match goal with
  | |- context [match ?m w with _ => _ end] => destruct (m w) as [[[]|e] w1 t1]
  end; reflexivity.
Qed.

(** Apart from the mark of its own entry, [updateChannel] issues only
    reconciling calls; it leaves the environment and the registry alone. *)
Lemma updateChannel_reconciles guildId channelType value position w :
  exists w1 t1,
    Index.updateChannel guildId channelType value position w
      = mkOutcome (Ok tt) w1 (EUpdateChannel guildId channelType value position :: t1) /\
    w_env w1 = w_env w /\
    r_guilds (w_redis w1) = r_guilds (w_redis w) /\
    forallb reconciling t1 = true.
Proof.
  pose proof (updateChannel_returns guildId channelType value position w) as Hres.
  revert Hres. unfold Index.updateChannel.
  match goal with
  | |- context [try_catch ?b ?h] =>
      assert (H : respects reconciling (try_catch b h)) by prove_respects;
      set (m := try_catch b h) in *
  end.
  unfold bind, emit. destruct (H w) as (He & Hr & Ht).
  destruct (m w) as [r w1 t1]. cbn in *. intros ->. eauto 10.
Qed.

(** ** The permission check *)

(** C2: when the bot lacks ManageChannels in the guild, or its highest
    role has position 0, [updateChannel] returns after logging the
    permission error: the only calls it has issued are the fetch of the
    guild and of its own member record, so it has issued no mutation and
    has neither read nor written the mapping store, and it leaves the
    platform and the store as they were. *)
Theorem updateChannel_permission_denied w guildId channelType value position g :
  e_guildsFetch (w_env w) guildId = None ->
  e_membersFetch (w_env w) guildId = None ->
  d_guilds (w_discord w) !! guildId = Some g ->
  ManageChannels (permissions (g_botMember g)) = false \/
    roles_highest_position (g_botMember g) = 0 ->
  let o := Index.updateChannel guildId channelType value position w in
  result o = Ok tt /\
  final o = w /\
  List.filter is_mutation (emitted o) = [] /\
  List.filter is_redis (emitted o) = [] /\
  exists m,
    permission_denied_msg guildId m /\
    emitted o = [ EUpdateChannel guildId channelType value position;
                  EGuildsFetch guildId; EMembersFetch guildId; EConsoleError m ].
Proof.
  intros Hg Hm Hl Hp.
  assert (H : exists m,
             permission_denied_msg guildId m /\
             Index.updateChannel guildId channelType value position w
               = mkOutcome (Ok tt) w
                   [ EUpdateChannel guildId channelType value position;
                     EGuildsFetch guildId; EMembersFetch guildId; EConsoleError m ]).
  { unfold permission_denied_msg.
    destruct (ManageChannels (permissions (g_botMember g))) eqn:E1;
      [destruct (ViewChannel (permissions (g_botMember g))) eqn:E2;
       [destruct Hp as [Hp|Hp]; [discriminate|] |] |];
      exec; eauto 10. }
  destruct H as (m & Hmsg & E). cbn zeta. rewrite E. cbn.
  repeat split; eauto.
Qed.

Lemma updateChannel_permission_denied_witness :
  let o := Index.updateChannel "1" Price "$BIG: $1,234.5000" 0 unprivileged in
  result o = Ok tt /\
  final o = unprivileged /\
  List.filter is_mutation (emitted o) = [] /\
  List.filter is_redis (emitted o) = [] /\
  exists m,
    permission_denied_msg "1" m /\
    emitted o = [ EUpdateChannel "1" Price "$BIG: $1,234.5000" 0;
                  EGuildsFetch "1"; EMembersFetch "1"; EConsoleError m ].
Proof.
  apply (updateChannel_permission_denied unprivileged "1" Price "$BIG: $1,234.5000" 0
           (guild_with bystander [group10; price11; halvening12])).
  - reflexivity.
  - reflexivity.
  - reflexivity.
  - left. reflexivity.
Defined.

(** ** One pass *)

(** [getStats] of [src/index.ts] lets a rejected request through. *)
Lemma getStats_propagates w e :
  e_http (w_env w) = HttpRejects e ->
  Index.getStats w = mkOutcome (Throw e) w [EHttpGet STATS_URL].
Proof.
  intros Hh. unfold Index.getStats, axios_get, bind, out. now rewrite Hh.
Qed.


Section Pass.
Variable currencyFormat : JsValue -> string.
Variable compactFormat : float -> string.

Local Abbreviation updatePriceChannel := (Index.updatePriceChannel currencyFormat).
Local Abbreviation updateHalveningChannel := (Index.updateHalveningChannel compactFormat).
Local Abbreviation updatePrice := (Index.updatePrice currencyFormat compactFormat).
Local Abbreviation guildCreate := (Index.guildCreate currencyFormat compactFormat).
Local Abbreviation formatNumber := (Index.formatNumber compactFormat).
Local Abbreviation desired_calls := (desired_calls currencyFormat).

Lemma updatePriceChannel_run guildId p w :
  exists w1 t1,
    updatePriceChannel guildId p w
      = mkOutcome (Ok tt) w1
          (EUpdateChannel guildId Price ("$BIG: " +:+ currencyFormat p) 0 :: t1) /\
    w_env w1 = w_env w /\
    r_guilds (w_redis w1) = r_guilds (w_redis w) /\
    forallb reconciling t1 = true.
Proof. unfold Index.updatePriceChannel. apply updateChannel_reconciles. Qed.

Lemma updateHalveningChannel_run guildId b bs w :
  formatNumber b = Ok bs ->
  exists w1 t1,
    updateHalveningChannel guildId b w
      = mkOutcome (Ok tt) w1
          (EUpdateChannel guildId Halvening ("HALVENING: " +:+ bs) 1 :: t1) /\
    w_env w1 = w_env w /\
    r_guilds (w_redis w1) = r_guilds (w_redis w) /\
    forallb reconciling t1 = true.
Proof.
  intros Hf.
  destruct (updateChannel_reconciles guildId Halvening ("HALVENING: " +:+ bs) 1 w)
    as (w1 & t1 & E & H).
  exists w1, t1. split; [|exact H].
  unfold Index.updateHalveningChannel.
  erewrite bind_ok by (unfold lift; rewrite Hf; reflexivity).
  cbn zeta. rewrite E. reflexivity.
Qed.

Lemma for_of_guilds_run p b bs (guilds : list string) w :
  formatNumber b = Ok bs ->
  exists w1 t1,
    for_of guilds (fun guildId =>
      updatePriceChannel guildId p ;; updateHalveningChannel guildId b) w
      = mkOutcome (Ok tt) w1 t1 /\
    List.filter is_marker t1 = flat_map (desired_calls p bs) guilds.
Proof.
  intros Hf. revert w. induction guilds as [|g guilds IH]; intros w.
  - cbn. eauto.
  - cbn [for_of flat_map].
    destruct (updatePriceChannel_run g p w) as (w1 & t1 & E1 & _ & _ & F1).
    destruct (updateHalveningChannel_run g b bs w1 Hf) as (w2 & t2 & E2 & _ & _ & F2).
    destruct (IH w2) as (w3 & t3 & E3 & F3).
    erewrite bind_ok; [|erewrite bind_ok; [|exact E1]; rewrite E2; reflexivity].
    cbn [after result final emitted]. rewrite E3.
    do 2 eexists. split; [reflexivity|].
    cbn [result final emitted app List.filter is_marker].
    rewrite !List.filter_app. cbn [List.filter is_marker].
    rewrite (filter_marker_reconciling _ F1), (filter_marker_reconciling _ F2), F3.
    reflexivity.
Qed.

Lemma getStats_run w data p b :
  e_http (w_env w) = HttpResolves data ->
  data_bigPrice data = Ok p ->
  data_blocksUntilHalving data = Ok b ->
  Index.getStats w
    = mkOutcome (Ok {| s_price := p; s_blocksUntilHalving := b |}) w [EHttpGet STATS_URL].
Proof.
  intros Hh Hp Hb. unfold Index.getStats, axios_get, bind, lift, out, ret.
  rewrite Hh, Hp, Hb. reflexivity.
Qed.

Lemma getGuilds_run w :
  Index.getGuilds w = mkOutcome (Ok (registry w)) w [ERedisGet GUILD_KEY].
Proof.
  unfold Index.getGuilds, redis_get_json, bind, out, ret, registry.
  now destruct (r_guilds (w_redis w)).
Qed.

Lemma updatePrice_snapshot_run w p b bs :
  snapshot compactFormat w p b bs ->
  let o := updatePrice w in
  result o = Ok tt /\
  List.filter is_marker (emitted o)
    = EHttpGet STATS_URL :: flat_map (desired_calls p bs) (registry w).
Proof.
  intros (data & Hh & Hp & Hb & Hf).
  destruct (for_of_guilds_run p b bs (registry w) w Hf) as (w1 & t1 & E & F).
  unfold Index.updatePrice. cbn zeta.
  erewrite bind_ok by (eapply getStats_run; eassumption).
  cbn [s_price s_blocksUntilHalving].
  erewrite bind_ok by apply getGuilds_run.
  erewrite bind_ok by (unfold lift; rewrite Hf; reflexivity).
  destruct (registry w) as [|g guilds] eqn:Eg.
  - cbn. auto.
  - cbn [length Nat.eqb]. rewrite E. cbn. rewrite F. auto.
Qed.

Lemma filter_metrics_request_marker (t : list Event) :
  List.filter is_metrics_request (List.filter is_marker t)
    = List.filter is_metrics_request t.
Proof.
  induction t as [|e t IH]; cbn; [reflexivity|].
  destruct e; cbn; auto. now rewrite IH.
Qed.

Lemma filter_metrics_request_desired p bs (guilds : list string) :
  List.filter is_metrics_request (flat_map (desired_calls p bs) guilds) = [].
Proof. induction guilds as [|g guilds IH]; cbn; auto. Qed.

(** A pass requests the metrics exactly once, whatever happens.  When
    the request yields a snapshot, the pass then enters [updateChannel]
    for every registered guild in turn, first for the price and then for
    the countdown, each time with the name computed from that one
    snapshot, and it completes. *)
Theorem updatePrice_single_snapshot w :
  let o := updatePrice w in
  List.filter is_metrics_request (emitted o) = [EHttpGet STATS_URL] /\
  forall p b bs,
    snapshot compactFormat w p b bs ->
    result o = Ok tt /\
    List.filter is_marker (emitted o)
      = EHttpGet STATS_URL :: flat_map (desired_calls p bs) (registry w).
Proof.
  cbn zeta. split; [|apply updatePrice_snapshot_run].
  destruct (e_http (w_env w)) as [e|data] eqn:Hh.
  { unfold Index.updatePrice.
    erewrite bind_throw by (apply getStats_propagates; exact Hh). reflexivity. }
  destruct (data_bigPrice data) as [p|e] eqn:Hp.
  2:{ unfold Index.updatePrice.
      erewrite bind_throw
        by (unfold Index.getStats, axios_get, bind, lift, out;
            rewrite Hh, Hp; reflexivity).
      reflexivity. }
  destruct (data_blocksUntilHalving data) as [b|e] eqn:Hb.
  2:{ destruct data; discriminate. }
  destruct (formatNumber b) as [bs|e] eqn:Hf.
  - assert (Hs : snapshot compactFormat w p b bs) by (exists data; auto).
    destruct (updatePrice_snapshot_run w p b bs Hs) as (_ & Hm).
    rewrite <- filter_metrics_request_marker, Hm. cbn.
    now rewrite filter_metrics_request_desired.
  - unfold Index.updatePrice. cbn zeta.
    erewrite bind_ok by (eapply getStats_run; eassumption).
    cbn [s_price s_blocksUntilHalving].
    erewrite bind_ok by apply getGuilds_run.
    erewrite bind_throw by (unfold lift; rewrite Hf; reflexivity).
    reflexivity.
Qed.

End Pass.

Lemma settled_snapshot :
  snapshot sample_compact settled (JsNumber 1234.5%float) (JsNumber 1500000%float) "1.5M".
Proof. exists sample_data. repeat split. Defined.

Lemma updatePrice_single_snapshot_witness :
  let o := Index.updatePrice sample_format sample_compact settled in
  List.filter is_metrics_request (emitted o) = [EHttpGet STATS_URL] /\
  result o = Ok tt /\
  List.filter is_marker (emitted o)
    = [ EHttpGet STATS_URL;
        EUpdateChannel "1" Price "$BIG: $1,234.5000" 0;
        EUpdateChannel "1" Halvening "HALVENING: 1.5M" 1 ].
Proof.
  destruct (updatePrice_single_snapshot sample_format sample_compact settled)
    as [Honce Hcalls].
  split; [exact Honce|].
  apply (Hcalls (JsNumber 1234.5%float) (JsNumber 1500000%float) "1.5M").
  exact settled_snapshot.
Defined.

(** ** Idempotence *)



(** In a converged guild whose child the bot can manage, [updateChannel]
    only reads. *)
Lemma updateChannel_converged_run w guildId k value position grp c :
  converged w guildId k value position grp c ->
  e_manageable (w_env w) guildId (ch_id c) = true ->
  exists t,
    Index.updateChannel guildId k value position w = mkOutcome (Ok tt) w t /\
    List.filter is_mutation t = [] /\
    List.filter is_redis_write t = [].
Proof.
  intros [[[Hgs Hgf] (Hgn & Hgl & _) Hgt [Hcs Hcf] (Hcn & Hcl & _) Hct]
          Hcname Hcpar Hcpos] Hman.
  assert (Hrefl : String.eqb value value = true) by apply String.eqb_refl.
  assert (Hrefl2 : String.eqb (ch_id grp) (ch_id grp) = true) by apply String.eqb_refl.
  assert (Hrefl3 : (position =? position) = true) by apply Z.eqb_refl.
  unfold lookup_channel in *.
  destruct (e_guildsFetch (w_env w) guildId) eqn:Egf;
    [eexists; split; [exec; reflexivity | split; reflexivity]|].
  destruct (d_guilds (w_discord w) !! guildId) as [g|] eqn:Eg; [|discriminate].
  destruct (e_membersFetch (w_env w) guildId) eqn:Emf;
    [eexists; split; [exec; reflexivity | split; reflexivity]|].
  destruct (ManageChannels (permissions (g_botMember g))) eqn:E1;
    [|eexists; split; [exec; reflexivity | split; reflexivity]].
  destruct (ViewChannel (permissions (g_botMember g))) eqn:E2;
    [|eexists; split; [exec; reflexivity | split; reflexivity]].
  destruct (roles_highest_position (g_botMember g) =? 0) eqn:E3;
    [eexists; split; [exec; reflexivity | split; reflexivity]|].
  destruct k; cbn [key_of] in *;
    (eexists; split; [exec; reflexivity | split; reflexivity]).
Qed.




(** Both children at once, as a pass and the join handler reconcile a
    guild. *)
Lemma reconcile_converged_guild currencyFormat compactFormat
    w guildId p b bs grp c1 c2 :
  Index.formatNumber compactFormat b = Ok bs ->
  converged w guildId Price ("$BIG: " +:+ currencyFormat p) 0 grp c1 ->
  converged w guildId Halvening ("HALVENING: " +:+ bs) 1 grp c2 ->
  e_manageable (w_env w) guildId (ch_id c1) = true ->
  e_manageable (w_env w) guildId (ch_id c2) = true ->
  let o := (Index.updatePriceChannel currencyFormat guildId p ;;
            Index.updateHalveningChannel compactFormat guildId b) w in
  result o = Ok tt /\
  final o = w /\
  List.filter is_mutation (emitted o) = [] /\
  List.filter is_redis_write (emitted o) = [].
Proof.
  intros Hf H1 H2 M1 M2. cbn zeta.
  destruct (updateChannel_converged_run _ _ _ _ _ _ _ H1 M1) as (t1 & E1 & Hm1 & Hr1).
  destruct (updateChannel_converged_run _ _ _ _ _ _ _ H2 M2) as (t2 & E2 & Hm2 & Hr2).
  erewrite bind_ok by (unfold Index.updatePriceChannel; exact E1).
  unfold Index.updateHalveningChannel.
  erewrite bind_ok by (unfold lift; rewrite Hf; reflexivity).
  cbn zeta. rewrite E2. cbn. rewrite !List.filter_app, Hm1, Hm2, Hr1, Hr2. auto.
Qed.

(** A guild joins, and the next pass finds nothing to change. *)
Example join_then_pass :
  let joined := final (Index.guildCreate sample_format sample_compact "1" fresh) in
  let o := Index.updatePrice sample_format sample_compact joined in
  registry joined = ["1"] /\
  result o = Ok tt /\
  final o = joined /\
  List.filter is_mutation (emitted o) = [].
Proof. vm_compute. repeat split. Qed.


(** ** The channel group *)

(** C10: when [ensureChannelGroupExists] returns an id, the store holds
    that id under the guild's group key.  Either the stored id was
    fetched successfully and nothing has changed, or the last two calls
    were the creation of a category and the write of its id, and the id
    is that of a category now live in the guild. *)
Theorem ensureChannelGroupExists_returns_stored guildId w id w1 t :
  Index.ensureChannelGroupExists guildId w = mkOutcome (Ok id) w1 t ->
  r_ids (w_redis w1) !! (guildId +:+ ":channelGroup") = Some id /\
  ((w1 = w /\
    e_channelsFetch (w_env w) guildId id = FetchNormally /\
    exists c, lookup_channel guildId id (w_discord w) = Some c)
   \/
   (exists t0 c,
      t = t0 ++ [ EChannelsCreate guildId Index.CHANNEL_GROUP_NAME GuildCategory None 0;
                  ERedisSet (guildId +:+ ":channelGroup") ] /\
      lookup_channel guildId id (w_discord w1) = Some c /\
      ch_id c = id /\ ch_type c = GuildCategory)).
Proof.
  revert id w1 t.
  match goal with
  | |- forall id w1 t, _ -> @?Q id w1 t =>
      cut (forall post : string -> World -> list Event -> Prop,
             (forall id w1 t, Q id w1 t -> post id w1 t) ->
             forall id w1 t,
               Index.ensureChannelGroupExists guildId w = mkOutcome (Ok id) w1 t ->
               post id w1 t);
      [intros Hcut; apply Hcut; auto |]
  end.
  intros post Hpost id w1 t. exec.
  repeat (first [ intros H; discriminate H | case_scrutinee; exec ]).
  all: intros H; injection H as <- <- <-; apply Hpost; red_proj.
  all: split; [first [apply lookup_insert_eq | congruence] |].
  all: first
    [ left; repeat split;
      solve [assumption | unfold lookup_channel; rew_hyps; eauto]
    | right;
      match goal with
      | |- exists t0 c, ?l = t0 ++ ?s /\ _ =>
          exists (firstn (length l - length s) l); eexists; split; [reflexivity|]
      end;
      unfold lookup_channel; red_proj;
      rewrite lookup_alter_eq; rew_hyps; cbn; rewrite lookup_insert_eq; auto ].
Qed.

Lemma ensureChannelGroupExists_returns_stored_witness :
  let o := Index.ensureChannelGroupExists "1" fresh in
  result o = Ok "20" /\
  r_ids (w_redis (final o)) !! "1:channelGroup" = Some "20" /\
  ((final o = fresh /\
    e_channelsFetch (w_env fresh) "1" "20" = FetchNormally /\
    exists c, lookup_channel "1" "20" (w_discord fresh) = Some c)
   \/
   (exists t0 c,
      emitted o
        = t0 ++ [ EChannelsCreate "1" Index.CHANNEL_GROUP_NAME GuildCategory None 0;
                  ERedisSet "1:channelGroup" ] /\
      lookup_channel "1" "20" (w_discord (final o)) = Some c /\
      ch_id c = "20" /\ ch_type c = GuildCategory)).
Proof.
  split; [reflexivity|].
  apply (ensureChannelGroupExists_returns_stored "1" fresh "20"
           (final (Index.ensureChannelGroupExists "1" fresh))
           (emitted (Index.ensureChannelGroupExists "1" fresh))).
  vm_compute. reflexivity.
Defined.

(** ** Drift repair *)







(** ** A failed creation *)

Lemma create_failure_last_respects {A} k guildId (m : M A) :
  respects no_create_failure m -> create_failure_last k guildId m.
Proof. intros H w. left. apply H. Qed.

Lemma create_failure_last_bind {A B} k guildId (m : M A) (f : A -> M B) :
  respects no_create_failure m ->
  (forall a, create_failure_last k guildId (f a)) ->
  create_failure_last k guildId (bind m f).
Proof.
  intros Hm Hf w. unfold bind.
  destruct (Hm w) as (_ & _ & Ht).
  destruct (m w) as [[a|e] w1 t1]; cbn in *; [|auto].
  destruct (Hf a w1) as [Hq|(t & e & Hq & Et & Er)];
    destruct (f a w1) as [r w2 t2]; cbn in *.
  - left. now rewrite forallb_app, Ht, Hq.
  - right. exists (t1 ++ t), e. subst.
    rewrite forallb_app, Ht, Hq, app_assoc. auto.
Qed.

Lemma createChannel_create_failure_last guildId guild k value position grp :
  create_failure_last k guildId
    (Index.createChannel guildId guild k value position grp).
Proof.
  intros w. unfold Index.createChannel, try_catch.
  assert (Hb : respects no_create_failure
            (let* newChannel :=
               guild_channels_create guild value GuildVoice (Some (ch_id grp)) position in
             Index.setChannelId k guildId (ch_id newChannel))) by prove_respects.
  destruct (Hb w) as (_ & _ & Ht).
  match goal with
  | |- context [match ?m w with _ => _ end] => destruct (m w) as [[[]|e] w1 t1]
  end; cbn in *; [auto|].
  right. exists t1, e. auto.
Qed.

Lemma forallb_In (P : Event -> bool) (t : list Event) (e : Event) :
  forallb P t = true -> In e t -> P e = true.
Proof. intros H Hin. rewrite forallb_forall in H. auto. Qed.

(** When [updateChannel] logs a creation failure, it is for its own
    guild and channel kind, and the last two calls it issues are that log
    line and the log line of its outer handler, with the same error. *)
Lemma updateChannel_create_failure guildId k value position w k' guildId' e :
  In (EConsoleError (FailedToCreateChannel k' guildId' e))
     (emitted (Index.updateChannel guildId k value position w)) ->
  k' = k /\ guildId' = guildId /\
  exists t,
    emitted (Index.updateChannel guildId k value position w)
      = t ++ [ EConsoleError (FailedToCreateChannel k guildId e);
               EConsoleError (ErrorUpdatingChannel k guildId e) ].
Proof.
  unfold Index.updateChannel.
  match goal with
  | |- context [try_catch ?b ?h] =>
      assert (H : create_failure_last k guildId b);
      [| set (body := b) in * ]
  end.
  { repeat first
      [ apply create_failure_last_bind; [prove_respects | intros ?]
      | apply createChannel_create_failure_last
      | match goal with
        | |- create_failure_last _ _ (match ?x with _ => _ end) => destruct x
        end
      | solve [apply create_failure_last_respects; prove_respects] ]. }
  unfold bind, emit, try_catch, console_error.
  destruct (H w) as [Hq|(t & e0 & Hq & Et & Er)];
    destruct (body w) as [[[]|e1] w1 t1]; cbn in *.
  - intros [Hin|Hin]; [discriminate|].
    apply (forallb_In _ _ _ Hq) in Hin. discriminate.
  - intros [Hin|Hin]; [discriminate|].
    apply in_app_or in Hin as [Hin|[Hin|[]]]; [|discriminate].
    apply (forallb_In _ _ _ Hq) in Hin. discriminate.
  - discriminate.
  - injection Er as ->. subst t1.
    intros [Hin|Hin]; [discriminate|].
    apply in_app_or in Hin as [Hin|[Hin|[]]]; [|discriminate].
    apply in_app_or in Hin as [Hin|[Hin|[]]].
    + apply (forallb_In _ _ _ Hq) in Hin. discriminate.
    + injection Hin as <- <- <-. repeat split.
      exists (EUpdateChannel guildId k value position :: t).
      cbn. now rewrite <- app_assoc.
Qed.

Section Failure.
Variable currencyFormat : JsValue -> string.
Variable compactFormat : float -> string.

Local Abbreviation updatePriceChannel := (Index.updatePriceChannel currencyFormat).
Local Abbreviation updateHalveningChannel := (Index.updateHalveningChannel compactFormat).
Local Abbreviation updatePrice := (Index.updatePrice currencyFormat compactFormat).
Local Abbreviation formatNumber := (Index.formatNumber compactFormat).

Lemma updateHalveningChannel_formatted guildId b bs w :
  formatNumber b = Ok bs ->
  updateHalveningChannel guildId b w
    = Index.updateChannel guildId Halvening ("HALVENING: " +:+ bs) 1 w.
Proof.
  intros Hf. unfold Index.updateHalveningChannel, bind, lift. rewrite Hf.
  now destruct (Index.updateChannel _ _ _ _ w).
Qed.

Lemma guild_create_failure g p b bs w guildId e :
  formatNumber b = Ok bs ->
  let o := (updatePriceChannel g p ;; updateHalveningChannel g b) w in
  result o = Ok tt /\
  (In (EConsoleError (FailedToCreateChannel Price guildId e)) (emitted o) ->
   exists t1 t2, emitted o = t1 ++ failure_then_halvening guildId e bs ++ t2).
Proof.
  intros Hf. cbn zeta.
  destruct (updatePriceChannel_run currencyFormat g p w) as (w1 & tp & Ep & _).
  destruct (updateHalveningChannel_run compactFormat g b bs w1 Hf) as (w2 & th & Eh & _).
  erewrite bind_ok by exact Ep. rewrite Eh. cbn [after result final emitted].
  split; [reflexivity|]. intros Hin.
  apply in_app_or in Hin as [Hin|Hin].
  - change (EUpdateChannel g Price ("$BIG: " +:+ currencyFormat p) 0 :: tp)
      with (emitted (mkOutcome (Ok tt) w1
              (EUpdateChannel g Price ("$BIG: " +:+ currencyFormat p) 0 :: tp))) in Hin.
    rewrite <- Ep in Hin. unfold Index.updatePriceChannel in Hin, Ep.
    apply updateChannel_create_failure in Hin as (_ & -> & t & Et).
    rewrite Ep in Et. cbn in Et. rewrite Et.
    exists t, th. unfold failure_then_halvening.
    rewrite <- app_assoc. reflexivity.
  - change (EUpdateChannel g Halvening ("HALVENING: " +:+ bs) 1 :: th)
      with (emitted (mkOutcome (Ok tt) w2
              (EUpdateChannel g Halvening ("HALVENING: " +:+ bs) 1 :: th))) in Hin.
    rewrite <- Eh, (updateHalveningChannel_formatted _ _ _ _ Hf) in Hin.
    apply updateChannel_create_failure in Hin as (Hk & _). discriminate Hk.
Qed.

Lemma for_of_create_failure p b bs guildId e (guilds : list string) w :
  formatNumber b = Ok bs ->
  let o := for_of guilds (fun g =>
             updatePriceChannel g p ;; updateHalveningChannel g b) w in
  result o = Ok tt /\
  (In (EConsoleError (FailedToCreateChannel Price guildId e)) (emitted o) ->
   exists t1 t2, emitted o = t1 ++ failure_then_halvening guildId e bs ++ t2).
Proof.
  intros Hf. revert w. induction guilds as [|g guilds IH]; intros w; cbn zeta.
  - cbn. split; [reflexivity | intros []].
  - cbn [for_of].
    destruct (guild_create_failure g p b bs w guildId e Hf) as (Hr & Hb).
    destruct ((updatePriceChannel g p;; updateHalveningChannel g b) w)
      as [r w1 t1] eqn:E1.
    cbn in Hr, Hb. subst r.
    erewrite bind_ok by exact E1.
    destruct (IH w1) as (Hr2 & Hl).
    destruct (for_of guilds _ w1) as [r2 w2 t2]. cbn in *.
    split; [assumption|]. intros Hin.
    apply in_app_or in Hin as [Hin|Hin].
    + destruct (Hb Hin) as (ta & tb & ->). exists ta, (tb ++ t2).
      now rewrite <- !app_assoc.
    + destruct (Hl Hin) as (ta & tb & ->). exists (t1 ++ ta), tb.
      now rewrite <- !app_assoc.
Qed.

(** C4, amended: when the creation of the price channel of a guild
    fails during a pass, [updateChannel] logs the failure and the error
    twice, once where the creation failed and once in its outer handler,
    and returns; the pass goes on at once with the countdown channel of
    the same guild, and completes. *)
Theorem create_failure_does_not_stop_pass w p b bs guildId e :
  snapshot compactFormat w p b bs ->
  In (EConsoleError (FailedToCreateChannel Price guildId e)) (emitted (updatePrice w)) ->
  result (updatePrice w) = Ok tt /\
  exists t1 t2,
    emitted (updatePrice w) = t1 ++ failure_then_halvening guildId e bs ++ t2.
Proof.
  intros (data & Hh & Hp & Hb & Hf).
  unfold Index.updatePrice. cbn zeta.
  erewrite bind_ok by (eapply getStats_run; eassumption).
  cbn [s_price s_blocksUntilHalving].
  erewrite bind_ok by apply getGuilds_run.
  erewrite bind_ok by (unfold lift; rewrite Hf; reflexivity).
  destruct (for_of_create_failure p b bs guildId e (registry w) w Hf) as (Hr & Hl).
  destruct (registry w) as [|g guilds] eqn:Eg.
  - cbn. intros [H|[H|[]]]; discriminate H.
  - cbn [length Nat.eqb].
    destruct (for_of (g :: guilds) _ w) as [r w1 t1]. cbn in *.
    intros [H|[H|Hin]]; try discriminate H.
    split; [assumption|].
    destruct (Hl Hin) as (ta & tb & ->).
    exists (EHttpGet STATS_URL :: ERedisGet GUILD_KEY :: ta), tb. reflexivity.
Qed.

End Failure.

Lemma fresh_no_price_snapshot :
  snapshot sample_compact fresh_no_price
    (JsNumber 1234.5%float) (JsNumber 1500000%float) "1.5M".
Proof. exists sample_data. repeat split. Defined.

Lemma fresh_no_price_fails :
  In (EConsoleError (FailedToCreateChannel Price "1" (DiscordAPIError 50013)))
     (emitted (Index.updatePrice sample_format sample_compact fresh_no_price)).
Proof. vm_compute. in_list. Defined.

(** C4 as stated fails: in [fresh_no_price] the creation of the price
    channel fails and the pass still enters [updateChannel] for the
    countdown of the same guild. *)
Lemma create_failure_counterexample : ~ create_failure_stops_tenant.
Proof.
  intros H.
  specialize (H sample_format sample_compact fresh_no_price
                (JsNumber 1234.5%float) (JsNumber 1500000%float) "1.5M" "1"
                (DiscordAPIError 50013) fresh_no_price_snapshot fresh_no_price_fails).
  vm_compute in H. discriminate H.
Qed.

Lemma create_failure_does_not_stop_pass_witness :
  let o := Index.updatePrice sample_format sample_compact fresh_no_price in
  result o = Ok tt /\
  exists t1 t2,
    emitted o = t1 ++ failure_then_halvening "1" (DiscordAPIError 50013) "1.5M" ++ t2.
Proof.
  apply (create_failure_does_not_stop_pass sample_format sample_compact fresh_no_price
           (JsNumber 1234.5%float) (JsNumber 1500000%float) "1.5M" "1"
           (DiscordAPIError 50013)).
  - exact fresh_no_price_snapshot.
  - exact fresh_no_price_fails.
Defined.

(** ** Joining *)

Lemma filter_other_notin (x : string) (l : list string) :
  ~ In x l -> List.filter (fun y => negb (String.eqb y x)) l = l.
Proof.
  induction l as [|a l IH]; cbn; [reflexivity|].
  intros H. destruct (String.eqb a x) eqn:E; cbn.
  - apply String.eqb_eq in E. tauto.
  - f_equal. apply IH. tauto.
Qed.

Lemma In_Array_from_Set (x : string) (l : list string) :
  In x (Array_from_Set l) <-> In x l.
Proof.
  induction l as [|a l IH]; cbn; [reflexivity|].
  rewrite filter_In, IH. split.
  - intros [H|[H _]]; auto.
  - intros [H|H]; [auto|].
    destruct (String.eqb x a) eqn:E.
    + apply String.eqb_eq in E. auto.
    + right. auto.
Qed.

Lemma Array_from_Set_NoDup (l : list string) :
  List.NoDup l -> Array_from_Set l = l.
Proof.
  induction 1 as [|a l Ha Hl IH]; cbn; [reflexivity|].
  rewrite IH. f_equal. now apply filter_other_notin.
Qed.


Lemma addGuild_run guildId w :
  Index.addGuild guildId w
    = mkOutcome (Ok (registry w ++ [guildId]))
        (with_redis {| r_guilds := Some (Array_from_Set (registry w ++ [guildId]));
                       r_ids := r_ids (w_redis w) |} w)
        [ERedisGet GUILD_KEY; ERedisSet GUILD_KEY].
Proof.
  unfold Index.addGuild.
  erewrite bind_ok by apply getGuilds_run.
  reflexivity.
Qed.



Section Join.
Variable currencyFormat : JsValue -> string.
Variable compactFormat : float -> string.

Local Abbreviation guildCreate := (Index.guildCreate currencyFormat compactFormat).
Local Abbreviation desired_calls := (desired_calls currencyFormat).


(** When the metrics request yields no snapshot, the handler throws and
    the registry is neither read nor written. *)
Lemma guildCreate_without_snapshot guildId w :
  (forall p b bs, ~ snapshot compactFormat w p b bs) ->
  let o := guildCreate guildId w in
  (exists e, result o = Throw e) /\
  registry (final o) = registry w /\
  List.filter is_registry_access (emitted o) = [].
Proof.
  intros Hno. cbn zeta.
  destruct (e_http (w_env w)) as [e|data] eqn:Hh.
  { unfold Index.guildCreate.
    erewrite bind_throw by (apply getStats_propagates; exact Hh).
    cbn. eauto. }
  destruct (data_bigPrice data) as [p|e] eqn:Hp.
  2:{ unfold Index.guildCreate.
      erewrite bind_throw
        by (unfold Index.getStats, axios_get, bind, lift, out;
            rewrite Hh, Hp; reflexivity).
      cbn. eauto. }
  destruct (data_blocksUntilHalving data) as [b|e] eqn:Hb.
  2:{ destruct data; discriminate. }
  destruct (Index.formatNumber compactFormat b) as [bs|e] eqn:Hf.
  { exfalso. apply (Hno p b bs). exists data. auto. }
  destruct (updatePriceChannel_run currencyFormat guildId p w)
    as (w1 & t1 & E1 & _ & R1 & Q1).
  unfold Index.guildCreate. cbn zeta.
  erewrite bind_ok by (eapply getStats_run; eassumption).
  cbn [s_price s_blocksUntilHalving].
  erewrite bind_ok by exact E1.
  erewrite bind_throw
    by (unfold Index.updateHalveningChannel;
        erewrite bind_throw by (unfold lift; rewrite Hf; reflexivity);
        reflexivity).
  cbn [after result final emitted app List.filter is_registry_access].
  rewrite app_nil_r, (filter_registry_reconciling _ Q1).
  split; [eauto|]. split; [|reflexivity].
  unfold registry. now rewrite R1.
Qed.


End Join.

Lemma fresh_snapshot :
  snapshot sample_compact fresh (JsNumber 1234.5%float) (JsNumber 1500000%float) "1.5M".
Proof. exists sample_data. repeat split. Defined.



(** ** Teardown *)

Lemma remove_stored_reachable key guildId w :
  reachable w guildId ->
  ids_nonempty w ->
  exists w1 t,
    remove_stored key guildId w = mkOutcome (Ok tt) w1 t /\
    reachable w1 guildId /\
    r_guilds (w_redis w1) = r_guilds (w_redis w) /\
    r_ids (w_redis w1) = delete key (r_ids (w_redis w)).
Proof.
  intros (Hf & g & Hg) Hne. unfold reachable.
  exec_teardown.
  destruct (r_ids (w_redis w) !! key) as [id|] eqn:Eid; exec_teardown.
  - rewrite (Hne _ _ Eid).
    repeat (case_scrutinee; exec_teardown).
    all: do 2 eexists; split; [reflexivity|]; red_proj.
    all: rewrite ?lookup_alter_eq, ?Hg; cbn; eauto 10.
  - do 2 eexists; split; [reflexivity|]; red_proj.
    rewrite delete_id by assumption. eauto 10.
Qed.

Lemma remove_stored_unreachable key guildId w e :
  unreachable w guildId e ->
  remove_stored key guildId w = mkOutcome (Throw e) w [EGuildsFetch guildId].
Proof.
  intros [Hf|(Hf & Hg & ->)]; exec_teardown; reflexivity.
Qed.

Lemma ids_nonempty_delete w w1 key :
  ids_nonempty w ->
  r_ids (w_redis w1) = delete key (r_ids (w_redis w)) ->
  ids_nonempty w1.
Proof.
  intros Hne E k id. rewrite E. intros H.
  apply lookup_delete_Some in H as [_ H]. eauto.
Qed.

Lemma not_in_removed (guildId : string) (l : list string) :
  ~ In guildId
      (Array_from_Set (List.filter (fun id => negb (String.eqb id guildId)) l)).
Proof.
  rewrite In_Array_from_Set, filter_In. intros [_ H].
  now rewrite String.eqb_refl in H.
Qed.

(** [removeGuild] touches the registry only, and leaves the guild out
    of it. *)
Lemma removeGuild_run guildId w :
  exists a w1 t,
    Index.removeGuild guildId w = mkOutcome (Ok a) w1 t /\
    w_env w1 = w_env w /\ w_discord w1 = w_discord w /\
    r_ids (w_redis w1) = r_ids (w_redis w) /\
    ~ In guildId (registry w1).
Proof.
  unfold Index.removeGuild.
  erewrite bind_ok by apply getGuilds_run.
  destruct (registry w) as [|g l] eqn:E.
  - exists None, w, [ERedisGet GUILD_KEY]. split; [reflexivity|].
    rewrite E. auto.
  - cbn [length Nat.eqb].
    do 3 eexists. split; [reflexivity|]. cbn.
    repeat split. apply (not_in_removed guildId (g :: l)).
Qed.

(** While the guild can still be fetched, the leave handler of
    [src/index.ts] unregisters the guild and drops the three ids,
    whatever becomes of the channel fetches and deletions. *)
Lemma guildDelete_clears_reachable guildId w :
  reachable w guildId ->
  ids_nonempty w ->
  let o := Index.guildDelete guildId w in
  result o = Ok tt /\
  ~ In guildId (registry (final o)) /\
  r_ids (w_redis (final o)) !! (guildId +:+ ":priceChannel") = None /\
  r_ids (w_redis (final o)) !! (guildId +:+ ":halveningChannel") = None /\
  r_ids (w_redis (final o)) !! (guildId +:+ ":channelGroup") = None.
Proof.
  intros Hr Hne. cbn zeta.
  destruct (removeGuild_run guildId w) as (a & w0 & t0 & E0 & He0 & Hd0 & Hi0 & Hn0).
  assert (Hr0 : reachable w0 guildId).
  { unfold reachable in *. now rewrite He0, Hd0. }
  assert (Hne0 : ids_nonempty w0).
  { unfold ids_nonempty in *. now rewrite Hi0. }
  destruct (remove_stored_reachable (guildId +:+ ":priceChannel") guildId w0 Hr0 Hne0)
    as (w1 & t1 & E1 & Hr1 & Hg1 & Hi1).
  pose proof (ids_nonempty_delete _ _ _ Hne0 Hi1) as Hne1.
  destruct (remove_stored_reachable (guildId +:+ ":halveningChannel") guildId w1 Hr1 Hne1)
    as (w2 & t2 & E2 & Hr2 & Hg2 & Hi2).
  pose proof (ids_nonempty_delete _ _ _ Hne1 Hi2) as Hne2.
  destruct (remove_stored_reachable (guildId +:+ ":channelGroup") guildId w2 Hr2 Hne2)
    as (w3 & t3 & E3 & Hr3 & Hg3 & Hi3).
  unfold Index.guildDelete.
  erewrite bind_ok by exact E0.
  erewrite bind_ok by (apply try_catch_ok; exact E1).
  erewrite bind_ok by (apply try_catch_ok; exact E2).
  change (Index.removeChannelGroup guildId w2)
    with (remove_stored (guildId +:+ ":channelGroup") guildId w2).
  rewrite E3. cbn [after result final emitted].
  split; [reflexivity|]. split.
  - unfold registry in *. now rewrite Hg3, Hg2, Hg1.
  - rewrite Hi3, Hi2, Hi1. repeat split; gone.
Qed.

(** When the guild cannot be fetched any more, the leave handler of
    [src/index.ts] logs twice, throws out of [removeChannelGroup], and
    leaves every stored id where it was. *)
Lemma guildDelete_unreachable_keeps_ids guildId w e :
  unreachable w guildId e ->
  let o := Index.guildDelete guildId w in
  result o = Throw e /\
  r_ids (w_redis (final o)) = r_ids (w_redis w).
Proof.
  intros Hu. cbn zeta.
  destruct (removeGuild_run guildId w) as (a & w0 & t0 & E0 & He0 & Hd0 & Hi0 & Hn0).
  assert (Hu0 : unreachable w0 guildId e).
  { unfold unreachable in *. now rewrite He0, Hd0. }
  assert (Hstep : forall k key,
            try_catch (remove_stored key guildId)
              (fun error => console_error (ErrorRemovingChannel k guildId error)) w0
            = mkOutcome (Ok tt) w0
                [EGuildsFetch guildId; EConsoleError (ErrorRemovingChannel k guildId e)]).
  { intros k key.
    erewrite try_catch_throw by (apply remove_stored_unreachable; exact Hu0).
    reflexivity. }
  unfold Index.guildDelete.
  erewrite bind_ok by exact E0.
  erewrite bind_ok by apply (Hstep Price (guildId +:+ ":priceChannel")).
  erewrite bind_ok by apply (Hstep Halvening (guildId +:+ ":halveningChannel")).
  change (Index.removeChannelGroup guildId w0)
    with (remove_stored (guildId +:+ ":channelGroup") guildId w0).
  rewrite (remove_stored_unreachable _ _ _ _ Hu0). cbn. auto.
Qed.

(** The later revision drops the three ids when the guild is unknown to
    the platform. *)
Lemma revised_guildDelete_clears_unknown guildId w :
  unreachable w guildId (DiscordAPIError 10004) ->
  let o := Revised.guildDelete guildId w in
  result o = Ok tt /\
  ~ In guildId (registry (final o)) /\
  r_ids (w_redis (final o)) !! (guildId +:+ ":priceChannel") = None /\
  r_ids (w_redis (final o)) !! (guildId +:+ ":halveningChannel") = None /\
  r_ids (w_redis (final o)) !! (guildId +:+ ":channelGroup") = None.
Proof.
  intros Hu. cbn zeta.
  destruct (removeGuild_run guildId w) as (a & w0 & t0 & E0 & He0 & Hd0 & Hi0 & Hn0).
  assert (Hu0 : unreachable w0 guildId (DiscordAPIError 10004)).
  { unfold unreachable in *. now rewrite He0, Hd0. }
  assert (Hstep : forall key h w1,
            unreachable w1 guildId (DiscordAPIError 10004) ->
            try_catch (remove_stored key guildId)
              (fun error =>
                 if error_code_is error 10004 then redis_del key else h error) w1
            = mkOutcome (Ok tt)
                (with_redis {| r_guilds := r_guilds (w_redis w1);
                               r_ids := delete key (r_ids (w_redis w1)) |} w1)
                [EGuildsFetch guildId; ERedisDel key]).
  { intros key h w1 H1.
    erewrite try_catch_throw by (apply remove_stored_unreachable; exact H1).
    reflexivity. }
  unfold Revised.guildDelete.
  erewrite bind_ok by exact E0.
  erewrite bind_ok
    by (apply (Hstep (guildId +:+ ":priceChannel")
                 (fun error => console_error (ErrorRemovingChannel Price guildId error)));
        exact Hu0).
  cbn [after result final emitted].
  erewrite bind_ok
    by (apply (Hstep (guildId +:+ ":halveningChannel")
                 (fun error => console_error (ErrorRemovingChannel Halvening guildId error)));
        exact Hu0).
  cbn [after result final emitted].
  unfold Revised.removeChannelGroup.
  rewrite (Hstep (guildId +:+ ":channelGroup")
             (fun error => console_error (ErrorRemovingChannelGroup guildId error)))
    by exact Hu0.
  cbn. split; [reflexivity|]. split; [exact Hn0|]. repeat split; gone.
Qed.

(** C7, at the input where it fails: the guild is gone from the
    platform when the leave handler of [src/index.ts] runs.  The guild
    leaves the registry, but the handler throws and the three ids stay
    in the store. *)
Theorem guildDelete_vanished_keeps_ids :
  let o := Index.guildDelete "1" vanished in
  result o = Throw (DiscordAPIError 10004) /\
  registry (final o) = [] /\
  r_ids (w_redis (final o)) !! "1:priceChannel" = Some "11" /\
  r_ids (w_redis (final o)) !! "1:halveningChannel" = Some "12" /\
  r_ids (w_redis (final o)) !! "1:channelGroup" = Some "10".
Proof. vm_compute. repeat split. Qed.

(** ** The metrics fetcher *)

(** It hands on whatever the payload holds, numbers or not. *)
Lemma getStats_unvalidated w p b :
  e_http (w_env w) = HttpResolves (DataObject p b) ->
  result (Index.getStats w) = Ok {| s_price := p; s_blocksUntilHalving := b |}.
Proof.
  intros Hh. now rewrite (getStats_run w (DataObject p b) p b Hh).
Qed.

(** [getStats] of the later revision never throws: it answers the two
    numbers of the payload when both are there, and zeros otherwise. *)
Lemma revised_getStats_never_raises w :
  exists stats t,
    Revised.getStats w = mkOutcome (Ok stats) w t /\
    ((exists x y,
        e_http (w_env w) = HttpResolves (DataObject (JsNumber x) (JsNumber y)) /\
        stats = {| s_price := JsNumber x; s_blocksUntilHalving := JsNumber y |})
     \/ stats = Revised.zero_stats).
Proof.
  unfold Revised.getStats, try_catch, bind, axios_get, out, lift, ret, console_error, emit.
  destruct (e_http (w_env w)) as [e|[|truthy|p b]]; cbn.
  - eauto.
  - eauto.
  - destruct truthy; cbn; eauto.
  - destruct p; cbn; eauto. destruct b; cbn; eauto 10.
Qed.

(** C3, at the input where it fails: the metrics endpoint cannot be
    reached, and [getStats] of [src/index.ts] throws the error of the
    request instead of answering zeros. *)
Theorem getStats_raises_when_offline :
  Index.getStats offline
    = mkOutcome (Throw (AxiosError None)) offline [EHttpGet STATS_URL].
Proof. reflexivity. Qed.

(** The pass of the later revision at the same input: the failed
    request is logged, zeros stand in for the metrics, and the
    registered guild is reconciled against them, both its channels
    renamed. *)
Lemma revised_updatePrice_offline :
  let o := Revised.updatePrice (fun _ => "$0.0000") (fun _ => "0") offline in
  result o = Ok tt /\
  List.filter is_metrics_request (emitted o) = [EHttpGet STATS_URL] /\
  List.filter is_mutation (emitted o)
    = [ESetName "1" "11" "$BIG: $0.0000"; ESetName "1" "12" "HALVENING: 0"] /\
  option_map ch_name (lookup_channel "1" "11" (w_discord (final o)))
    = Some "$BIG: $0.0000" /\
  option_map ch_name (lookup_channel "1" "12" (w_discord (final o)))
    = Some "HALVENING: 0".
Proof. vm_compute. repeat split. Qed.

(** C8, at the input where it fails: the metrics endpoint cannot be
    reached while guild ["1"] is registered.  Whatever the formatters,
    the pass of [src/index.ts] throws the error of the request, issues
    no call after the request and leaves the world as it was: the
    registered guild is not reconciled. *)
Theorem updatePrice_offline_reconciles_nobody :
  registry offline = ["1"] /\
  forall (currencyFormat : JsValue -> string) (compactFormat : float -> string),
    Index.updatePrice currencyFormat compactFormat offline
      = mkOutcome (Throw (AxiosError None)) offline [EHttpGet STATS_URL].
Proof. split; [reflexivity|]. intros. reflexivity. Qed.

(** ** The formatters *)

(** [formatNumber] of the later revision answers ["0"] for null and for
    undefined. *)
Lemma revised_formatNumber_nullish (compactFormat : float -> string) :
  Revised.formatNumber compactFormat JsNull = Ok "0" /\
  Revised.formatNumber compactFormat JsUndefined = Ok "0".
Proof. split; reflexivity. Qed.

(** A payload without the countdown makes a pass of [src/index.ts]
    throw before any guild is reconciled. *)
Lemma updatePrice_no_countdown :
  let o := Index.updatePrice sample_format sample_compact no_countdown in
  result o = Throw TypeError /\
  List.filter is_reconciliation (emitted o) = [].
Proof. vm_compute. split; reflexivity. Qed.

(** C9, at the input where it fails: [formatNumber] of [src/index.ts]
    calls [toLocaleString] on its argument without looking at it, so on
    null and on undefined it throws a [TypeError] instead of answering
    ["0"]. *)
Theorem formatNumber_nullish_throws (compactFormat : float -> string) :
  Index.formatNumber compactFormat JsNull = Throw TypeError /\
  Index.formatNumber compactFormat JsUndefined = Throw TypeError.
Proof. split; reflexivity. Qed.

(** * Further properties *)

(** ** The keys of the store *)

Lemma append_assoc (a b c : string) : (a +:+ b) +:+ c = a +:+ (b +:+ c).
Proof.
  induction a as [|x a IH]; [reflexivity|].
  change (String x ((a +:+ b) +:+ c) = String x (a +:+ (b +:+ c))).
  now rewrite IH.
Qed.

(** Two strings with suffixes of the same length are equal only when the
    suffixes and what precedes them are. *)
Lemma append_inj_suffix (a a' s s' : string) :
  String.length s = String.length s' ->
  a +:+ s = a' +:+ s' -> a = a' /\ s = s'.
Proof.
  intros Hlen. revert a'. induction a as [|x a IH]; intros [|x' a'] E.
  - auto.
  - exfalso. change (s = String x' (a' +:+ s')) in E.
    apply (f_equal String.length) in E. cbn [String.length] in E.
    rewrite string_length_append in E. lia.
  - exfalso. change (String x (a +:+ s) = s') in E.
    apply (f_equal String.length) in E. cbn [String.length] in E.
    rewrite string_length_append in E. lia.
  - change (String x (a +:+ s) = String x' (a' +:+ s')) in E.
    injection E as -> E. destruct (IH _ E) as [-> ->]. auto.
Qed.

Lemma own_keys_apart (g g' key : string) :
  g <> g' -> In key (own_keys g) -> ~ In key (own_keys g').
Proof.
  intros Hne Hin Hin'. unfold own_keys in *. cbn [In] in *.
  assert (H17 : forall a b, a +:+ ":halveningChannel" = b +:+ ":priceChannel" -> False).
  { intros a b E.
    change (a +:+ ":halveningChannel") with (a +:+ (":hal" +:+ "veningChannel")) in E.
    rewrite <- append_assoc in E.
    apply append_inj_suffix in E as [_ E]; [discriminate|reflexivity]. }
  assert (H17' : forall a b, a +:+ ":halveningChannel" = b +:+ ":channelGroup" -> False).
  { intros a b E.
    change (a +:+ ":halveningChannel") with (a +:+ (":hal" +:+ "veningChannel")) in E.
    rewrite <- append_assoc in E.
    apply append_inj_suffix in E as [_ E]; [discriminate|reflexivity]. }
  destruct Hin as [<-|[<-|[<-|[]]]]; destruct Hin' as [E|[E|[E|[]]]];
    first
    [ apply append_inj_suffix in E as [E1 E2]; [congruence|reflexivity]
    | apply H17 in E; exact E
    | symmetry in E; apply H17 in E; exact E
    | apply H17' in E; exact E
    | symmetry in E; apply H17' in E; exact E ].
Qed.

Lemma own_keys_distinct (g : string) : List.NoDup (own_keys g).
Proof.
  unfold own_keys.
  assert (H : forall s s', s <> s' -> g +:+ s <> g +:+ s').
  { intros s s' Hne E. apply Hne. now apply (inj (String.app g)) in E. }
  repeat constructor; cbn [In]; intros Hin;
    repeat match goal with
           | H0 : _ \/ _ |- _ => destruct H0
           | H0 : False |- _ => destruct H0
           | H0 : g +:+ _ = g +:+ _ |- _ => apply H in H0; [exact H0|discriminate]
           end.
Qed.

(** ** The registry *)

Lemma NoDup_Array_from_Set (l : list string) : List.NoDup (Array_from_Set l).
Proof.
  induction l as [|a l IH]; cbn; constructor.
  - rewrite filter_In. intros [_ H]. now rewrite String.eqb_refl in H.
  - now apply List.NoDup_filter.
Qed.

(** X8: [addGuild] keeps the registry a set.  Whatever the registry held,
    after the call it is duplicate-free and holds the guild and the ids
    it held before, and no other; a guild that a duplicate-free registry
    did not hold is appended.  The array the function returns is the old
    registry with the guild pushed, duplicates and all.  The platform
    and the stored channel ids are not touched. *)
Theorem addGuild_set_semantics guildId w :
  let o := Index.addGuild guildId w in
  result o = Ok (registry w ++ [guildId]) /\
  List.NoDup (registry (final o)) /\
  (forall x, In x (registry (final o)) <-> In x (registry w) \/ x = guildId) /\
  (List.NoDup (registry w) -> ~ In guildId (registry w) ->
   registry (final o) = registry w ++ [guildId]) /\
  w_discord (final o) = w_discord w /\
  r_ids (w_redis (final o)) = r_ids (w_redis w).
Proof.
  cbn zeta. rewrite addGuild_run. cbn [result final].
  change (registry (with_redis _ w)) with (Array_from_Set (registry w ++ [guildId])).
  split; [reflexivity|]. split; [apply NoDup_Array_from_Set|]. split; [|split].
  - intros x. rewrite In_Array_from_Set, in_app_iff. cbn. intuition.
  - intros Hnd Hnin. apply Array_from_Set_NoDup.
    apply NoDup_rev in Hnd. rewrite <- (rev_involutive (_ ++ _)).
    apply NoDup_rev. rewrite rev_app_distr. cbn.
    constructor; [|assumption]. now rewrite <- in_rev.
  - auto.
Qed.

(** X9: [removeGuild] drops the guild and nothing else: afterwards the
    registry holds exactly the ids it held before other than the guild.
    On an empty registry it only reads, and returns nothing; otherwise it
    writes back a duplicate-free array and returns the registry as it
    was before the removal.  The platform and the stored channel ids are
    not touched. *)
Theorem removeGuild_set_semantics guildId w :
  let o := Index.removeGuild guildId w in
  (forall x, In x (registry (final o)) <-> In x (registry w) /\ x <> guildId) /\
  (registry w = [] ->
     result o = Ok None /\ final o = w /\ emitted o = [ERedisGet GUILD_KEY]) /\
  (registry w <> [] ->
     result o = Ok (Some (registry w)) /\ List.NoDup (registry (final o)) /\
     emitted o = [ERedisGet GUILD_KEY; ERedisSet GUILD_KEY]) /\
  w_discord (final o) = w_discord w /\
  r_ids (w_redis (final o)) = r_ids (w_redis w).
Proof.
  cbn zeta. unfold Index.removeGuild.
  erewrite bind_ok by apply getGuilds_run.
  destruct (registry w) as [|g l] eqn:E.
  - cbn. rewrite E. repeat split; try tauto; try congruence.
  - cbn [length Nat.eqb].
    assert (Hreg : forall x,
              In x (Array_from_Set
                      (List.filter (fun id => negb (String.eqb id guildId)) (g :: l)))
              <-> In x (g :: l) /\ x <> guildId).
    { intros x. rewrite In_Array_from_Set, filter_In.
      rewrite negb_true_iff, String.eqb_neq. reflexivity. }
    cbn [bind redis_set_json ret out after result final emitted app
         with_redis registry w_redis r_guilds r_ids w_discord].
    split; [exact Hreg|]. split; [discriminate|]. split; [|auto].
    intros _. split; [reflexivity|]. split; [apply NoDup_Array_from_Set|reflexivity].
Qed.

(** X10: registering a guild that a duplicate-free registry does not hold
    and then removing it gives the registry back, order included, and
    the removal returns the registry with the guild in it. *)
Theorem addGuild_removeGuild_round_trip guildId w :
  List.NoDup (registry w) ->
  ~ In guildId (registry w) ->
  let o := (Index.addGuild guildId ;; Index.removeGuild guildId) w in
  result o = Ok (Some (registry w ++ [guildId])) /\
  registry (final o) = registry w /\
  w_discord (final o) = w_discord w /\
  r_ids (w_redis (final o)) = r_ids (w_redis w).
Proof.
  intros Hnd Hnin. cbn zeta.
  assert (Hset : Array_from_Set (registry w ++ [guildId]) = registry w ++ [guildId]).
  { apply Array_from_Set_NoDup.
    apply NoDup_rev in Hnd. rewrite <- (rev_involutive (_ ++ _)).
    apply NoDup_rev. rewrite rev_app_distr. cbn.
    constructor; [|assumption]. now rewrite <- in_rev. }
  erewrite bind_ok by apply addGuild_run.
  rewrite Hset. unfold Index.removeGuild.
  erewrite bind_ok by apply getGuilds_run.
  change (registry (with_redis _ w)) with (registry w ++ [guildId]).
  destruct (length (registry w ++ [guildId]) =? 0)%nat eqn:El.
  { apply Nat.eqb_eq in El. rewrite length_app in El. cbn in El. lia. }
  rewrite List.filter_app, filter_other_notin by assumption.
  cbn [List.filter]. rewrite String.eqb_refl. cbn [negb]. rewrite app_nil_r.
  rewrite (Array_from_Set_NoDup _ Hnd).
  cbn. auto.
Qed.

Lemma addGuild_removeGuild_round_trip_witness :
  let o := (Index.addGuild "2" ;; Index.removeGuild "2") settled in
  result o = Ok (Some (registry settled ++ ["2"])) /\
  registry (final o) = registry settled /\
  w_discord (final o) = w_discord settled /\
  r_ids (w_redis (final o)) = r_ids (w_redis settled).
Proof.
  apply (addGuild_removeGuild_round_trip "2" settled).
  - repeat constructor. cbn. tauto.
  - cbn. intros [H|[]]. discriminate.
Defined.

(** ** The id accessors *)

Lemma key_of_own (k : ChannelKind) (g : string) : In (key_of k g) (own_keys g).
Proof. destruct k; cbn; auto. Qed.

Lemma key_of_inj (k k' : ChannelKind) (g g' : string) :
  key_of k g = key_of k' g' -> k = k' /\ g = g'.
Proof.
  intros E. destruct (decide (g = g')) as [->|Hne].
  - split; [|reflexivity].
    destruct k, k'; try reflexivity; exfalso; cbn in E;
      apply (inj (String.app g')) in E; discriminate.
  - exfalso. apply (own_keys_apart g g' (key_of k g) Hne).
    + apply key_of_own.
    + rewrite E. apply key_of_own.
Qed.

Lemma key_of_not_group (k : ChannelKind) (g g' : string) :
  key_of k g <> g' +:+ ":channelGroup".
Proof.
  intros E. destruct (decide (g = g')) as [->|Hne].
  - destruct k; cbn in E; apply (inj (String.app g')) in E; discriminate.
  - apply (own_keys_apart g g' (key_of k g) Hne).
    + apply key_of_own.
    + rewrite E. cbn. auto.
Qed.

Lemma getChannelId_run k guildId w :
  Index.getChannelId k guildId w
    = mkOutcome
        (Ok match r_ids (w_redis w) !! key_of k guildId with
            | Some id => if string_falsy id then None else Some id
            | None => None
            end)
        w [ERedisGet (key_of k guildId)].
Proof.
  destruct k; cbn; unfold Index.getPriceChannelId, Index.getHalveningChannelId,
    Index.get_id, bind, redis_get, out, ret;
    destruct (r_ids (w_redis w) !! _) as [id|]; try reflexivity;
    destruct (string_falsy id); reflexivity.
Qed.

(** X11: the id accessors of the two children.  An id that has been set
    is read back, unless it is the empty string, which reads as absent;
    after the remover the id reads as absent; and setting the id of one
    child of one guild changes the id read for no other child, of that
    guild or of another, and for no channel group. *)
Theorem channel_id_round_trip k guildId id w :
  let w1 := final (Index.setChannelId k guildId id w) in
  result (Index.getChannelId k guildId w1)
    = Ok (if string_falsy id then None else Some id) /\
  result (Index.getChannelId k guildId (final (Index.removeChannelId k guildId w1)))
    = Ok None /\
  (forall k' g', (k', g') <> (k, guildId) ->
     result (Index.getChannelId k' g' w1) = result (Index.getChannelId k' g' w)) /\
  (forall g', result (Index.getChannelGroupId g' w1) = result (Index.getChannelGroupId g' w)).
Proof.
  cbn zeta.
  assert (E1 : final (Index.setChannelId k guildId id w)
               = with_redis {| r_guilds := r_guilds (w_redis w);
                               r_ids := <[key_of k guildId := id]> (r_ids (w_redis w)) |} w)
    by (destruct k; reflexivity).
  rewrite E1.
  assert (E2 : forall w0, final (Index.removeChannelId k guildId w0)
               = with_redis {| r_guilds := r_guilds (w_redis w0);
                               r_ids := delete (key_of k guildId) (r_ids (w_redis w0)) |} w0)
    by (intros w0; destruct k; reflexivity).
  rewrite E2, !getChannelId_run. cbn [result with_redis w_redis r_ids r_guilds].
  rewrite lookup_insert_eq, lookup_delete_eq.
  split; [reflexivity|]. split; [reflexivity|]. split.
  - intros k' g' Hne. rewrite !getChannelId_run. cbn [result with_redis w_redis r_ids].
    rewrite lookup_insert_ne; [reflexivity|].
    intros E. apply key_of_inj in E as [-> ->]. now apply Hne.
  - intros g'. unfold Index.getChannelGroupId, Index.get_id, bind, redis_get, out.
    cbn [with_redis w_redis r_ids].
    rewrite lookup_insert_ne by apply key_of_not_group.
    destruct (r_ids (w_redis w) !! _) as [x|]; [destruct (string_falsy x)|]; reflexivity.
Qed.

(** ** One guild at a time *)

Section Confined.
Context (gs : list string).

Lemma confined_ret {A} (a : A) : confined gs (ret a).
Proof. intros w. cbn. auto. Qed.

Lemma confined_throw {A} (e : Error) : confined gs (@throw A e).
Proof. intros w. cbn. auto. Qed.

Lemma confined_lift {A} (r : Result A) : confined gs (lift r).
Proof. intros w. cbn. auto. Qed.

Lemma confined_emit (e : Event) : confined gs (emit e).
Proof. intros w. cbn. auto. Qed.

Lemma confined_console_error (m : ErrorMsg) : confined gs (console_error m).
Proof. apply confined_emit. Qed.

Lemma confined_bind {A B} (m : M A) (f : A -> M B) :
  confined gs m -> (forall a, confined gs (f a)) -> confined gs (bind m f).
Proof.
  intros Hm Hf w. unfold bind.
  destruct (Hm w) as (Hg & Hk).
  destruct (m w) as [[a|e] w1 t1]; cbn in *; [|auto].
  destruct (Hf a w1) as (Hg' & Hk').
  destruct (f a w1) as [r w2 t2]; cbn in *.
  split; intros x Hx; [rewrite Hg', Hg|rewrite Hk', Hk]; auto.
Qed.

Lemma confined_try_catch {A} (m : M A) (h : Error -> M A) :
  confined gs m -> (forall e, confined gs (h e)) -> confined gs (try_catch m h).
Proof.
  intros Hm Hh w. unfold try_catch.
  destruct (Hm w) as (Hg & Hk).
  destruct (m w) as [[a|e] w1 t1]; cbn in *; [auto|].
  destruct (Hh e w1) as (Hg' & Hk').
  destruct (h e w1) as [r w2 t2]; cbn in *.
  split; intros x Hx; [rewrite Hg', Hg|rewrite Hk', Hk]; auto.
Qed.

(** The handle [client.guilds.fetch(g)] answers is the guild [g]. *)
Lemma confined_bind_guild {B} (g : string) (f : string -> M B) :
  confined gs (f g) -> confined gs (bind (client_guilds_fetch g) f).
Proof.
  intros Hf w. unfold bind, client_guilds_fetch, out.
  destruct (e_guildsFetch _ _); [cbn; auto|].
  destruct (d_guilds _ !! g); [|cbn; auto].
  destruct (Hf w) as (Hg & Hk).
  destruct (f g w) as [r w2 t2]; cbn in *. auto.
Qed.

Lemma confined_for_of {A} (l : list A) (body : A -> M unit) :
  (forall x, In x l -> confined gs (body x)) -> confined gs (for_of l body).
Proof.
  induction l as [|x l IH]; intros H; cbn [for_of].
  - apply confined_ret.
  - apply confined_bind; [apply H; now left|].
    intros _. apply IH. intros y Hy. apply H. now right.
Qed.

Lemma confined_redis_get key : confined gs (redis_get key).
Proof. intros w. cbn. auto. Qed.

Lemma confined_redis_set g key id :
  In g gs -> In key (own_keys g) -> confined gs (redis_set key id).
Proof.
  intros Hg Hin w. cbn. split; [auto|].
  intros key' Hf. apply lookup_insert_ne. intros <-. exact (Hf g Hg Hin).
Qed.

Lemma confined_redis_del g key :
  In g gs -> In key (own_keys g) -> confined gs (redis_del key).
Proof.
  intros Hg Hin w. cbn. split; [auto|].
  intros key' Hf. apply lookup_delete_ne. intros <-. exact (Hf g Hg Hin).
Qed.

Lemma confined_redis_get_json key : confined gs (redis_get_json key).
Proof. intros w. cbn. auto. Qed.

Lemma confined_redis_set_json key l : confined gs (redis_set_json key l).
Proof. intros w. cbn. auto. Qed.

Lemma confined_axios_get url : confined gs (axios_get url).
Proof. intros w. cbn. auto. Qed.

Lemma confined_guild_members_fetch g : confined gs (guild_members_fetch g).
Proof. intros w. cbn. auto. Qed.

Lemma confined_guild_channels_fetch g id : confined gs (guild_channels_fetch g id).
Proof. intros w. cbn. auto. Qed.

Lemma confined_guild_channels_create g name type parent position :
  In g gs -> confined gs (guild_channels_create g name type parent position).
Proof.
  intros Hin w. unfold guild_channels_create.
  destruct (e_channelsCreate _ _ _ _); [cbn; auto|].
  destruct (d_guilds _ !! g) eqn:E; cbn; [|auto].
  split; [|auto]. intros g' Hf. apply lookup_alter_ne. intros <-. exact (Hf Hin).
Qed.

Lemma confined_channel_mutation fault change ev g c :
  In g gs -> confined gs (channel_mutation fault change ev g c).
Proof.
  intros Hin w. unfold channel_mutation.
  destruct (fault _ _ _); [cbn; auto|].
  destruct (d_guilds _ !! g) as [gd|]; [|cbn; auto].
  destruct (g_channels gd !! ch_id c); cbn; [|auto].
  split; [|auto]. intros g' Hf. apply lookup_alter_ne. intros <-. exact (Hf Hin).
Qed.

Lemma confined_channel_manageable g c : confined gs (channel_manageable g c).
Proof. intros w. cbn. auto. Qed.

End Confined.

Lemma confined_weaken {A} (gs gs' : list string) (m : M A) :
  (forall g, In g gs -> In g gs') -> confined gs m -> confined gs' m.
Proof.
  intros Hsub Hm w. destruct (Hm w) as (Hg & Hk). split.
  - intros g Hf. apply Hg. intros Hin. exact (Hf (Hsub _ Hin)).
  - intros key Hf. apply Hk. intros g Hin. exact (Hf g (Hsub _ Hin)).
Qed.

Ltac own := first [ now left | cbn; auto 6 ].

Ltac confined_step :=
  first
  [ apply confined_bind_guild
  | apply confined_bind; [|intros ?]
  | apply confined_try_catch; [|intros ?]
  | apply confined_ret
  | apply confined_throw
  | apply confined_lift
  | apply confined_console_error
  | apply confined_emit
  | apply confined_redis_get
  | eapply confined_redis_set; [now left | own]
  | eapply confined_redis_del; [now left | own]
  | apply confined_guild_members_fetch
  | apply confined_guild_channels_fetch
  | apply confined_guild_channels_create; now left
  | apply confined_channel_mutation; now left
  | apply confined_channel_manageable
  | match goal with
    | |- confined _ (match ?x with _ => _ end) => destruct x
    | |- confined _ ((match ?x with _ => _ end) _) => destruct x; cbn beta
    | |- confined _ ((match ?x with _ => _ end) _ _) => destruct x; cbn beta
    end ].

Ltac prove_confined := unfold_index; repeat confined_step.

Lemma updateChannel_confined_to guildId k value position :
  confined [guildId] (Index.updateChannel guildId k value position).
Proof. unfold Index.updateChannel. prove_confined. Qed.

Lemma confined_own_keys {A} (guildId : string) (m : M A) w :
  confined [guildId] m ->
  let w1 := final (m w) in
  (forall g, g <> guildId ->
     d_guilds (w_discord w1) !! g = d_guilds (w_discord w) !! g) /\
  (forall key, ~ In key (own_keys guildId) ->
     r_ids (w_redis w1) !! key = r_ids (w_redis w) !! key) /\
  (forall g key, g <> guildId -> In key (own_keys g) ->
     r_ids (w_redis w1) !! key = r_ids (w_redis w) !! key).
Proof.
  intros Hm. destruct (Hm w) as (Hg & Hk). cbn zeta.
  assert (Hkey : forall key, ~ In key (own_keys guildId) ->
            r_ids (w_redis (final (m w))) !! key = r_ids (w_redis w) !! key).
  { intros key Hn. apply Hk. intros g [<-|[]]. exact Hn. }
  split; [|split].
  - intros g Hne. apply Hg. intros [E|[]]. now apply Hne.
  - exact Hkey.
  - intros g key Hne Hin. apply Hkey. now apply (own_keys_apart g guildId).
Qed.

(** X2: [updateChannel] for one guild leaves every other guild alone.  The
    channels of any other guild are as before, and so is every entry of
    the store other than the three keys of the guild it was called for,
    in particular the three keys of any other guild. *)
Theorem updateChannel_leaves_other_guilds guildId k value position w :
  let w1 := final (Index.updateChannel guildId k value position w) in
  (forall g, g <> guildId ->
     d_guilds (w_discord w1) !! g = d_guilds (w_discord w) !! g) /\
  (forall key, ~ In key (own_keys guildId) ->
     r_ids (w_redis w1) !! key = r_ids (w_redis w) !! key) /\
  (forall g key, g <> guildId -> In key (own_keys g) ->
     r_ids (w_redis w1) !! key = r_ids (w_redis w) !! key).
Proof. apply confined_own_keys, updateChannel_confined_to. Qed.

Lemma removeGuild_confined gs guildId : confined gs (Index.removeGuild guildId).
Proof.
  unfold Index.removeGuild, Index.getGuilds.
  repeat first [ apply confined_redis_get_json | apply confined_redis_set_json
               | confined_step ].
Qed.

Lemma guildDelete_confined_to guildId : confined [guildId] (Index.guildDelete guildId).
Proof.
  unfold Index.guildDelete, Index.removePriceChannel, Index.removeHalveningChannel,
    Index.removeChannelGroup.
  apply confined_bind; [apply removeGuild_confined|intros _].
  prove_confined.
Qed.

(** X14: [guildDelete] for one guild leaves every other guild alone,
    whether it completes or throws: the channels of any other guild and
    every entry of the store other than the three keys of the guild that
    was left are as before. *)
Theorem guildDelete_leaves_other_guilds guildId w :
  let w1 := final (Index.guildDelete guildId w) in
  (forall g, g <> guildId ->
     d_guilds (w_discord w1) !! g = d_guilds (w_discord w) !! g) /\
  (forall key, ~ In key (own_keys guildId) ->
     r_ids (w_redis w1) !! key = r_ids (w_redis w) !! key) /\
  (forall g key, g <> guildId -> In key (own_keys g) ->
     r_ids (w_redis w1) !! key = r_ids (w_redis w) !! key).
Proof. apply confined_own_keys, guildDelete_confined_to. Qed.

(** ** What the reconciler never does *)

Lemma respects_for_of {A} (P : Event -> bool) (l : list A) (body : A -> M unit) :
  (forall x, respects P (body x)) -> respects P (for_of l body).
Proof.
  intros H. induction l as [|x l IH]; cbn [for_of].
  - apply respects_ret.
  - apply respects_bind; auto.
Qed.

Lemma respects_axios_get (P : Event -> bool) url :
  P (EHttpGet url) = true -> respects P (axios_get url).
Proof. intros He w. cbn. rewrite He. auto. Qed.

Lemma respects_redis_get_json (P : Event -> bool) key :
  P (ERedisGet key) = true -> respects P (redis_get_json key).
Proof. intros He w. cbn. rewrite He. auto. Qed.

Lemma filter_is_delete (t : list Event) :
  forallb no_delete t = true -> List.filter is_delete t = [].
Proof.
  induction t as [|e t IH]; cbn; [reflexivity|].
  intros H. apply andb_prop in H as [H1 H2]. unfold no_delete in H1.
  destruct (is_delete e); [discriminate|auto].
Qed.

Lemma updateChannel_no_delete guildId k value position :
  respects no_delete (Index.updateChannel guildId k value position).
Proof. unfold Index.updateChannel. prove_respects. Qed.

(** X1: what [updateChannel] never does, in any world.  It never throws,
    never deletes a channel, never reads or writes the registry and never
    requests the metrics; the environment and the registry are as they
    were. *)
Theorem updateChannel_housekeeping guildId k value position w :
  let o := Index.updateChannel guildId k value position w in
  result o = Ok tt /\
  w_env (final o) = w_env w /\
  registry (final o) = registry w /\
  List.filter is_delete (emitted o) = [] /\
  List.filter is_registry_access (emitted o) = [] /\
  List.filter is_metrics_request (emitted o) = [].
Proof.
  cbn zeta.
  destruct (updateChannel_no_delete guildId k value position w) as (_ & _ & Hd).
  destruct (updateChannel_reconciles guildId k value position w)
    as (w1 & t1 & E & He & Hr & Ht).
  rewrite E in *. cbn [result final emitted] in *.
  split; [reflexivity|]. split; [exact He|]. split; [unfold registry; now rewrite Hr|].
  split; [now apply filter_is_delete|].
  cbn [List.filter is_registry_access is_metrics_request].
  rewrite (filter_registry_reconciling _ Ht).
  rewrite <- filter_metrics_request_marker, (filter_marker_reconciling _ Ht).
  auto.
Qed.

Section PassConfined.
Variable currencyFormat : JsValue -> string.
Variable compactFormat : float -> string.

Lemma tenant_confined guildId p b :
  confined [guildId]
    (Index.updatePriceChannel currencyFormat guildId p ;;
     Index.updateHalveningChannel compactFormat guildId b).
Proof.
  unfold Index.updatePriceChannel, Index.updateHalveningChannel.
  apply confined_bind; [apply updateChannel_confined_to|intros _].
  apply confined_bind; [apply confined_lift|intros ?].
  apply updateChannel_confined_to.
Qed.

Lemma getStats_final w : final (Index.getStats w) = w.
Proof.
  unfold Index.getStats, axios_get, bind, out, lift, ret.
  destruct (e_http (w_env w)) as [e|data]; [reflexivity|].
  destruct (data_bigPrice data); [|reflexivity].
  destruct (data_blocksUntilHalving data); reflexivity.
Qed.

Lemma updatePrice_no_delete :
  respects no_delete (Index.updatePrice currencyFormat compactFormat).
Proof.
  unfold Index.updatePrice, Index.getStats, Index.getGuilds,
    Index.updatePriceChannel, Index.updateHalveningChannel.
  repeat first
    [ apply respects_for_of; intros ?
    | apply respects_axios_get; reflexivity
    | apply respects_redis_get_json; reflexivity
    | apply updateChannel_no_delete
    | respects_step ].
Qed.

(** X7: a pass works on registered guilds only.  Whether it completes or
    throws, the registry is as it was, no channel has been deleted, and
    for a guild that is not registered the channels and the three stored
    ids are as they were. *)
Theorem updatePrice_touches_registered_only w :
  let o := Index.updatePrice currencyFormat compactFormat w in
  registry (final o) = registry w /\
  List.filter is_delete (emitted o) = [] /\
  (forall g, ~ In g (registry w) ->
     d_guilds (w_discord (final o)) !! g = d_guilds (w_discord w) !! g) /\
  (forall g key, ~ In g (registry w) -> In key (own_keys g) ->
     r_ids (w_redis (final o)) !! key = r_ids (w_redis w) !! key).
Proof.
  cbn zeta.
  destruct (updatePrice_no_delete w) as (_ & Hr & Hd).
  split; [unfold registry; now rewrite Hr|].
  split; [now apply filter_is_delete|]. clear Hr Hd.
  assert (H : forall p b, confined (registry w)
            (for_of (registry w) (fun guildId =>
               Index.updatePriceChannel currencyFormat guildId p ;;
               Index.updateHalveningChannel compactFormat guildId b))).
  { intros p b. apply confined_for_of. intros g Hg.
    apply (confined_weaken [g]); [|apply tenant_confined].
    intros g' [<-|[]]. exact Hg. }
  assert (Hfk : forall g key, ~ In g (registry w) -> In key (own_keys g) ->
            foreign_key (registry w) key).
  { intros g key Hn Hin g' Hg'. apply (own_keys_apart g g'); [|exact Hin].
    intros ->. exact (Hn Hg'). }
  unfold Index.updatePrice. cbn zeta.
  pose proof (getStats_final w) as Hw.
  destruct (Index.getStats w) as [[st|e] w0 t0] eqn:E; cbn in Hw; subst w0.
  2:{ erewrite bind_throw by exact E. cbn. auto. }
  erewrite bind_ok by exact E.
  erewrite bind_ok by apply getGuilds_run.
  destruct (Index.formatNumber compactFormat (s_blocksUntilHalving st)) as [bs|e] eqn:Ef.
  2:{ erewrite bind_throw by reflexivity. cbn. auto. }
  erewrite bind_ok by reflexivity.
  cbn [after final].
  destruct (registry w) as [|g0 l] eqn:Er.
  - cbn. auto.
  - cbn [length Nat.eqb]. rewrite <- Er in *.
    destruct (H (s_price st) (s_blocksUntilHalving st) w) as (Hg & Hk).
    split.
    + exact Hg.
    + intros g key Hn Hin. apply Hk. eapply Hfk; eassumption.
Qed.

End PassConfined.

(** ** Drift repair *)

Lemma pretty_N_go_length (x : N) (s : string) :
  (String.length s <= String.length (pretty_N_go x s))%nat.
Proof.
  revert s. induction (N.lt_wf_0 x) as [x _ IH]. intros s.
  destruct (decide (x = 0%N)) as [->|Hx].
  - rewrite pretty_N_go_0. lia.
  - rewrite pretty_N_go_step by lia.
    etransitivity; [|apply IH; apply N.div_lt; lia].
    cbn [String.length]. lia.
Qed.

(** The decimal numeral of a number is not the empty string. *)
Lemma pretty_N_nonempty (n : N) : string_falsy (pretty n) = false.
Proof.
  unfold string_falsy. apply String.eqb_neq. intros E.
  unfold pretty, pretty_N in E. destruct (decide (n = 0%N)); [discriminate|].
  rewrite pretty_N_go_step in E by lia.
  pose proof (pretty_N_go_length (n `div` 10)
                (String (pretty_N_char (n `mod` 10)) "")) as H.
  rewrite E in H. cbn in H. lia.
Qed.



Ltac run_repair :=
  cbv beta iota zeta delta [set_channels];
  run;
  rewrite ?lookup_alter_eq, ?lookup_insert_eq;
  cbn [fmap option_fmap option_map g_channels g_botMember].

Ltac exec_repair := repeat (progress (run_repair; rew_hyps)).

(** Evaluates [updateChannel] up to the point where the child is either
    created or updated. *)
Ltac run_prelude :=
  cbv beta iota zeta delta
    [bind try_catch ret throw lift emit out console_error with_discord with_redis
     Index.updateChannel Index.fetchStoredChannel Index.fetchChannelGroup
     Index.ensureChannelGroupExists
     Index.getChannelId Index.removeChannelId
     Index.getChannelGroupId Index.removeChannelGroupId
     Index.getPriceChannelId Index.removePriceChannelId
     Index.getHalveningChannelId Index.removeHalveningChannelId Index.get_id
     client_guilds_fetch guild_members_fetch guild_channels_fetch
     lookup_channel redis_get redis_del];
  red_proj.

Ltac exec_prelude := repeat (progress (run_prelude; rew_hyps)).

(** With the permissions in place and both stored ids live,
    [updateChannel] reads, and then updates the child. *)
Lemma updateChannel_tracked_run w guildId k value position grp c :
  permitted w guildId ->
  tracked w guildId k grp c ->
  Index.updateChannel guildId k value position w
    = after [ EUpdateChannel guildId k value position;
              EGuildsFetch guildId; EMembersFetch guildId; EGuildsFetch guildId;
              ERedisGet (guildId +:+ ":channelGroup");
              EChannelsFetch guildId (ch_id grp); EChannelsFetch guildId (ch_id grp);
              ERedisGet (key_of k guildId); EChannelsFetch guildId (ch_id c) ]
        (try_catch
           (Index.updateExisting guildId guildId k value position grp c)
           (fun error => console_error (ErrorUpdatingChannel k guildId error)) w).
Proof.
  intros [Hpg Hpm (g & Hg & Hp1 & Hp2 & Hp3)]
         [[Hgs Hgf] (Hgn & Hgl & _) Hgt [Hcs Hcf] (Hcn & Hcl & _) Hct].
  unfold lookup_channel in *. rewrite Hg in Hgl, Hcl.
  destruct k; cbn [key_of] in *; exec_prelude;
    destruct (Index.updateExisting _ _ _ _ _ _ _ w) as [[[]|e] w1 t1]; reflexivity.
Qed.

Lemma option_string_eqb_eq (a : option string) (b : string) :
  Index.option_string_eqb a b = true -> a = Some b.
Proof.
  destruct a as [a|]; [|discriminate]. cbn. intros H.
  apply String.eqb_eq in H. congruence.
Qed.

Lemma desired_channel_id (c grp : Channel) value position :
  Index.option_string_eqb (ch_parentId c) (ch_id grp) = true ->
  (ch_name c =? value)%string = true ->
  (ch_position c =? position) = true ->
  desired_channel c grp value position = c.
Proof.
  intros Hp Hn Hpos. destruct c as [id name type parent pos]. cbn in *.
  apply String.eqb_eq in Hn. apply Z.eqb_eq in Hpos.
  destruct parent as [p|]; [|discriminate]. apply String.eqb_eq in Hp.
  unfold desired_channel. cbn. congruence.
Qed.

(** With no call refused, [updateExisting] issues the repairs and
    nothing else, and leaves the child as desired. *)
Lemma updateExisting_run w guildId k value position grp c g :
  d_guilds (w_discord w) !! guildId = Some g ->
  g_channels g !! ch_id c = Some c ->
  editable w guildId (ch_id c) ->
  exists w1 g1,
    Index.updateExisting guildId guildId k value position grp c w
      = mkOutcome (Ok tt) w1 (repairs guildId c grp value position) /\
    w_env w1 = w_env w /\ w_redis w1 = w_redis w /\
    d_nextId (w_discord w1) = d_nextId (w_discord w) /\
    d_guilds (w_discord w1) !! guildId = Some g1 /\
    g_botMember g1 = g_botMember g /\
    g_channels g1 !! ch_id c = Some (desired_channel c grp value position) /\
    (forall id, id <> ch_id c -> g_channels g1 !! id = g_channels g !! id).
Proof.
  intros Hg Hcl (Hman & Hsn & Hep & Hepos).
  unfold repairs.
  destruct (String.eqb (ch_name c) value) eqn:En;
  destruct (Index.option_string_eqb (ch_parentId c) (ch_id grp)) eqn:Ep;
  destruct (ch_position c =? position) eqn:Epos.
  all: do 2 eexists; split; [exec_repair; reflexivity|].
  all: cbn [w_env w_redis w_discord d_nextId d_guilds].
  all: rewrite ?lookup_alter_eq, ?Hg; cbn [fmap option_fmap option_map].
  all: repeat (split; [reflexivity|]).
  all: cbn [g_channels]; rewrite ?lookup_insert_eq.
  all: try apply String.eqb_eq in En; try apply option_string_eqb_eq in Ep;
       try apply Z.eqb_eq in Epos.
  all: split;
    [ unfold desired_channel; first [rewrite Hcl | idtac];
      destruct c; cbn in *; congruence
    | intros id Hid; now rewrite ?lookup_insert_ne by congruence ].
Qed.

Lemma lookup_channel_guild w guildId g id :
  d_guilds (w_discord w) !! guildId = Some g ->
  lookup_channel guildId id (w_discord w) = g_channels g !! id.
Proof. intros H. unfold lookup_channel. now rewrite H. Qed.

(** X3: drift repair.  When the permission check passes, the stored group
    id and the stored child id are live, the child is manageable and none
    of rename, move and reposition is refused for it, [updateChannel]
    issues exactly the repairs that are due, in this order: a rename if
    the name differs, a move if the parent differs, a reposition if the
    position differs.  It writes nothing to the store and leaves the
    guild converged: the child has the desired name, the category as its
    parent and the desired position. *)
Theorem drift_repair_converges w guildId k value position grp c :
  permitted w guildId ->
  tracked w guildId k grp c ->
  editable w guildId (ch_id c) ->
  let o := Index.updateChannel guildId k value position w in
  result o = Ok tt /\
  List.filter is_mutation (emitted o) = repairs guildId c grp value position /\
  List.filter is_redis_write (emitted o) = [] /\
  converged (final o) guildId k value position grp
    (desired_channel c grp value position).
Proof.
  intros Hp Ht Hed. cbn zeta.
  rewrite (updateChannel_tracked_run _ _ _ _ _ _ _ Hp Ht).
  destruct Hp as [Hpg Hpm (g & Hg & Hp1 & Hp2 & Hp3)].
  destruct Ht as [[Hgs Hgf] (Hgn & Hgl & Hgid) Hgt [Hcs Hcf] (Hcn & Hcl & Hcid) Hct].
  rewrite (lookup_channel_guild _ _ _ _ Hg) in Hgl.
  rewrite (lookup_channel_guild _ _ _ _ Hg) in Hcl.
  destruct (updateExisting_run w guildId k value position grp c g Hg Hcl Hed)
    as (w1 & g1 & E & He & Hr & Hn & Hg1 & Hb & Hc1 & Hrest).
  erewrite try_catch_ok by exact E.
  cbn [after result final emitted].
  split; [reflexivity|].
  assert (Hmut : List.filter is_mutation (repairs guildId c grp value position)
                 = repairs guildId c grp value position).
  { unfold repairs. repeat case_scrutinee; reflexivity. }
  assert (Hwr : List.filter is_redis_write (repairs guildId c grp value position) = []).
  { unfold repairs. repeat case_scrutinee; reflexivity. }
  split; [|split].
  - destruct k; cbn; rewrite Hmut; reflexivity.
  - destruct k; cbn; rewrite Hwr; reflexivity.
  - assert (Hne : ch_id grp <> ch_id c).
    { intros E'. rewrite E' in Hgl. congruence. }
    repeat split; unfold stored, live; rewrite ?He, ?Hr,
      ?(lookup_channel_guild _ _ _ _ Hg1), ?Hc1, ?Hrest by assumption; auto.
Qed.

(** ** Convergence from any state of the store *)

(** Splits a conjunction, and nothing else. *)
Ltac conjs := repeat match goal with |- _ /\ _ => split end.

Lemma healthy_guild w guildId :
  healthy w guildId ->
  exists g,
    d_guilds (w_discord w) !! guildId = Some g /\
    e_guildsFetch (w_env w) guildId = None /\
    e_membersFetch (w_env w) guildId = None /\
    ManageChannels (permissions (g_botMember g)) = true /\
    ViewChannel (permissions (g_botMember g)) = true /\
    (roles_highest_position (g_botMember g) =? 0) = false.
Proof. intros [[Hg Hm (g & Hl & H1 & H2 & H3)] _ _ _]. eauto 10. Qed.

(** Health does not depend on the store. *)
Lemma healthy_same_platform w w1 guildId :
  w_env w1 = w_env w -> w_discord w1 = w_discord w ->
  healthy w guildId -> healthy w1 guildId.
Proof.
  intros He Hd [[Hg Hm Hr] Hc Hf Hk].
  split; [split|..]; rewrite ?He, ?Hd; assumption.
Qed.

(** Health is kept when the channels of the guild change in a way that
    keeps the bot member, the id counter and the two invariants. *)
Lemma healthy_step w w1 guildId g g1 :
  healthy w guildId ->
  w_env w1 = w_env w ->
  d_guilds (w_discord w) !! guildId = Some g ->
  d_guilds (w_discord w1) !! guildId = Some g1 ->
  g_botMember g1 = g_botMember g ->
  fresh_ids (w_discord w1) guildId ->
  well_keyed (w_discord w1) guildId ->
  healthy w1 guildId.
Proof.
  intros [[Hg Hm (g0 & Hl & H1 & H2 & H3)] Hc Hf Hk] He Hg0 Hg1 Hb Hf1 Hk1.
  rewrite Hg0 in Hl. injection Hl as <-.
  split; [split|..]; rewrite ?He; try assumption.
  exists g1. rewrite Hb. auto.
Qed.

Lemma guild_channels_create_run w guildId name type parent position :
  healthy w guildId ->
  let c := new_channel w name type parent position in
  exists w1,
    guild_channels_create guildId name type parent position w
      = mkOutcome (Ok c) w1 [EChannelsCreate guildId name type parent position] /\
    healthy w1 guildId /\
    w_env w1 = w_env w /\
    w_redis w1 = w_redis w /\
    d_nextId (w_discord w1) = N.succ (d_nextId (w_discord w)) /\
    lookup_channel guildId (ch_id c) (w_discord w) = None /\
    lookup_channel guildId (ch_id c) (w_discord w1) = Some c /\
    same_channels_but guildId (ch_id c) w w1.
Proof.
  intros H. destruct (healthy_guild _ _ H) as (g & Hg & _).
  pose proof (h_cooperative _ _ H) as Hc. pose proof (h_fresh _ _ H) as Hf.
  pose proof (h_keyed _ _ H) as Hk.
  cbn zeta. eexists. split.
  { unfold guild_channels_create. rewrite (co_create _ _ Hc), Hg. reflexivity. }
  unfold with_discord, set_channels.
  cbn [w_env w_redis w_discord d_guilds d_nextId new_channel ch_id].
  assert (Hnew : forall id,
            lookup_channel guildId id
              {| d_guilds :=
                   alter (fun g0 => {| g_botMember := g_botMember g0;
                                       g_channels :=
                                         <[pretty (d_nextId (w_discord w)) :=
                                             new_channel w name type parent position]>
                                           (g_channels g) |})
                         guildId (d_guilds (w_discord w));
                 d_nextId := N.succ (d_nextId (w_discord w)) |}
            = <[pretty (d_nextId (w_discord w)) :=
                  new_channel w name type parent position]> (g_channels g) !! id).
  { intros id. unfold lookup_channel. cbn [d_guilds].
    rewrite lookup_alter_eq, Hg. reflexivity. }
  assert (Hold : forall id, lookup_channel guildId id (w_discord w) = g_channels g !! id).
  { intros id. unfold lookup_channel. now rewrite Hg. }
  assert (Hnone : g_channels g !! pretty (d_nextId (w_discord w)) = None).
  { rewrite <- Hold. apply Hf. lia. }
  split; [|split; [reflexivity|split; [reflexivity|split; [reflexivity|split; [|split]]]]].
  - eapply (healthy_step w _ guildId g); [exact H|reflexivity|exact Hg| | | | ].
    + cbn [w_discord d_guilds]. rewrite lookup_alter_eq, Hg. reflexivity.
    + reflexivity.
    + intros m Hm. cbn [d_nextId w_discord] in Hm. cbn [w_discord].
      rewrite Hnew. rewrite lookup_insert_ne.
      * rewrite <- Hold. apply Hf. lia.
      * intros E. apply (inj pretty) in E. lia.
    + intros id c. cbn [w_discord]. rewrite Hnew.
      destruct (decide (id = pretty (d_nextId (w_discord w)))) as [->|Hne].
      * rewrite lookup_insert_eq. intros [= <-]. reflexivity.
      * rewrite lookup_insert_ne by congruence. rewrite <- Hold. apply Hk.
  - rewrite Hold. exact Hnone.
  - rewrite Hnew. apply lookup_insert_eq.
  - intros id Hne. cbn [w_discord]. rewrite Hnew, Hold. now apply lookup_insert_ne.
Qed.

Lemma client_guilds_fetch_run w guildId :
  healthy w guildId ->
  client_guilds_fetch guildId w = mkOutcome (Ok guildId) w [EGuildsFetch guildId].
Proof.
  intros H. destruct (healthy_guild _ _ H) as (g & Hg & Hgf & _).
  unfold client_guilds_fetch, out. now rewrite Hgf, Hg.
Qed.

Lemma guild_channels_fetch_run w guildId id :
  healthy w guildId ->
  guild_channels_fetch guildId id w
    = mkOutcome
        match lookup_channel guildId id (w_discord w) with
        | Some c => Ok (Some c)
        | None => Throw (DiscordAPIError 10003)
        end
        w [EChannelsFetch guildId id].
Proof.
  intros H. unfold guild_channels_fetch, out.
  now rewrite (co_fetch _ _ (h_cooperative _ _ H)).
Qed.

Lemma updateExisting_healthy w guildId k value position grp c :
  healthy w guildId ->
  lookup_channel guildId (ch_id c) (w_discord w) = Some c ->
  exists w1,
    Index.updateExisting guildId guildId k value position grp c w
      = mkOutcome (Ok tt) w1 (repairs guildId c grp value position) /\
    healthy w1 guildId /\
    w_env w1 = w_env w /\
    w_redis w1 = w_redis w /\
    d_nextId (w_discord w1) = d_nextId (w_discord w) /\
    lookup_channel guildId (ch_id c) (w_discord w1)
      = Some (desired_channel c grp value position) /\
    same_channels_but guildId (ch_id c) w w1.
Proof.
  intros H Hc. destruct (healthy_guild _ _ H) as (g & Hg & _).
  pose proof (h_cooperative _ _ H) as [_ _ Hm Hs Hp Hq].
  rewrite (lookup_channel_guild _ _ _ _ Hg) in Hc.
  destruct (updateExisting_run w guildId k value position grp c g Hg Hc)
    as (w1 & g1 & E & He & Hr & Hn & Hg1 & Hb & Hc1 & Hrest).
  { repeat split; auto. }
  assert (Hl1 : forall id, lookup_channel guildId id (w_discord w1) = g_channels g1 !! id).
  { intros id. now apply lookup_channel_guild. }
  assert (Hl : forall id, lookup_channel guildId id (w_discord w) = g_channels g !! id).
  { intros id. now apply lookup_channel_guild. }
  exists w1. split; [exact E|].
  split; [|split; [exact He|split; [exact Hr|split; [exact Hn|split]]]].
  - apply (healthy_step w w1 guildId g g1); auto.
    + intros m Hle. rewrite Hn in Hle. rewrite Hl1.
      destruct (decide (pretty m = ch_id c)) as [E'|Hne].
      * pose proof (h_fresh _ _ H m Hle) as Hf. rewrite Hl, E', Hc in Hf. discriminate.
      * rewrite Hrest by exact Hne. rewrite <- Hl. now apply (h_fresh _ _ H).
    + intros id c'. rewrite Hl1.
      destruct (decide (id = ch_id c)) as [->|Hne].
      * rewrite Hc1. intros [= <-]. reflexivity.
      * rewrite Hrest by exact Hne. rewrite <- Hl. apply (h_keyed _ _ H).
  - now rewrite Hl1.
  - intros id Hne. now rewrite Hl1, Hl, Hrest.
Qed.

Lemma createChannelGroup_run w guildId :
  healthy w guildId ->
  let grp := new_channel w Index.CHANNEL_GROUP_NAME GuildCategory None 0 in
  exists w1,
    Index.createChannelGroup guildId w
      = mkOutcome (Ok (ch_id grp)) w1
          [ EGuildsFetch guildId;
            EChannelsCreate guildId Index.CHANNEL_GROUP_NAME GuildCategory None 0;
            ERedisSet (guildId +:+ ":channelGroup") ] /\
    healthy w1 guildId /\
    w_env w1 = w_env w /\
    r_guilds (w_redis w1) = r_guilds (w_redis w) /\
    r_ids (w_redis w1) = <[guildId +:+ ":channelGroup" := ch_id grp]> (r_ids (w_redis w)) /\
    d_nextId (w_discord w1) = N.succ (d_nextId (w_discord w)) /\
    lookup_channel guildId (ch_id grp) (w_discord w) = None /\
    lookup_channel guildId (ch_id grp) (w_discord w1) = Some grp /\
    same_channels_but guildId (ch_id grp) w w1.
Proof.
  intros H. cbn zeta.
  destruct (guild_channels_create_run w guildId Index.CHANNEL_GROUP_NAME GuildCategory None 0 H)
    as (w1 & E & H1 & He & Hr & Hn & Hnone & Hnew & Hsame).
  eexists. split.
  { unfold Index.createChannelGroup.
    erewrite bind_ok by (apply client_guilds_fetch_run; exact H).
    erewrite bind_ok by exact E.
    unfold Index.setChannelGroupId, redis_set, bind, ret, out, after, with_redis.
    cbn [result final emitted app new_channel ch_id]. reflexivity. }
  cbn [w_env w_redis w_discord r_guilds r_ids].
  rewrite Hr. conjs; try assumption; try reflexivity.
  eapply healthy_same_platform; [| |exact H1]; reflexivity.
Qed.



Lemma frame_refl guildId keys ids w : frame guildId keys ids w w.
Proof. split; auto; lia. Qed.

Lemma frame_trans guildId keys ids keys' ids' w w1 w2 :
  frame guildId keys ids w w1 -> frame guildId keys' ids' w1 w2 ->
  frame guildId (keys ++ keys') (ids ++ ids') w w2.
Proof.
  intros [He Hr Hs Hc Hn] [He' Hr' Hs' Hc' Hn']. split.
  - congruence.
  - congruence.
  - intros key Hk. rewrite in_app_iff in Hk. rewrite Hs', Hs; tauto.
  - intros id c Hi Hl. rewrite in_app_iff in Hi. apply Hc'; [tauto|]. apply Hc; tauto.
  - lia.
Qed.

Lemma frame_weaken guildId keys ids keys' ids' w w1 :
  (forall key, In key keys -> In key keys') ->
  (forall id, In id ids -> In id ids') ->
  frame guildId keys ids w w1 -> frame guildId keys' ids' w w1.
Proof.
  intros Hk Hi [He Hr Hs Hc Hn]. split; auto.
Qed.

Lemma group_tracked_frame guildId keys ids w w1 grp :
  frame guildId keys ids w w1 ->
  ~ In (guildId +:+ ":channelGroup") keys ->
  ~ In (ch_id grp) ids ->
  group_tracked w guildId grp -> group_tracked w1 guildId grp.
Proof.
  intros [He Hr Hs Hc Hn] Hk Hi [[Hst Hf] (Hfe & Hl & Hid) Ht].
  split; [split|split; [|split]|]; rewrite ?He, ?Hs; auto.
Qed.

Lemma frame_created guildId keys w w1 id :
  w_env w1 = w_env w ->
  r_guilds (w_redis w1) = r_guilds (w_redis w) ->
  (forall key, ~ In key keys -> r_ids (w_redis w1) !! key = r_ids (w_redis w) !! key) ->
  d_nextId (w_discord w1) = N.succ (d_nextId (w_discord w)) ->
  lookup_channel guildId id (w_discord w) = None ->
  same_channels_but guildId id w w1 ->
  frame guildId keys [] w w1.
Proof.
  intros He Hr Hs Hn Hnone Hsame. split; [exact He|exact Hr|exact Hs| |lia].
  intros id' c _ Hl. rewrite Hsame; [exact Hl|]. intros ->. congruence.
Qed.

Lemma frame_store guildId key w r :
  r_guilds r = r_guilds (w_redis w) ->
  (forall key', key' <> key -> r_ids r !! key' = r_ids (w_redis w) !! key') ->
  frame guildId [key] [] w (with_redis r w).
Proof.
  intros Hr Hs. split; cbn; [reflexivity|exact Hr| |auto|lia].
  intros key' Hn. apply Hs. intros ->. apply Hn. now left.
Qed.

Section Phases.
Variable guildId : string.

Local Abbreviation gkey := (guildId +:+ ":channelGroup").

(** Dropping the group id leaves a healthy world healthy. *)
Lemma removeChannelGroupId_run w :
  Index.removeChannelGroupId guildId w
    = mkOutcome (Ok tt)
        (with_redis {| r_guilds := r_guilds (w_redis w);
                       r_ids := delete gkey (r_ids (w_redis w)) |} w)
        [ERedisDel gkey].
Proof. reflexivity. Qed.

Lemma createChannelGroup_from w w0 :
  healthy w guildId ->
  w_env w0 = w_env w -> w_discord w0 = w_discord w ->
  r_guilds (w_redis w0) = r_guilds (w_redis w) ->
  (forall key, key <> gkey -> r_ids (w_redis w0) !! key = r_ids (w_redis w) !! key) ->
  let grp := new_channel w Index.CHANNEL_GROUP_NAME GuildCategory None 0 in
  exists w1 t,
    Index.createChannelGroup guildId w0 = mkOutcome (Ok (ch_id grp)) w1 t /\
    healthy w1 guildId /\
    frame guildId [gkey] [] w w1 /\
    group_tracked w1 guildId grp.
Proof.
  intros H He0 Hd0 Hr0 Hs0. cbn zeta.
  assert (H0 : healthy w0 guildId) by (eapply healthy_same_platform; eassumption).
  destruct (createChannelGroup_run w0 guildId H0)
    as (w1 & E & H1 & He & Hr & Hi & Hn & Hnone & Hnew & Hsame).
  unfold new_channel in *. cbn [ch_id] in *.
  unfold same_channels_but in Hsame. rewrite Hd0 in *.
  exists w1. eexists. split; [exact E|]. split; [exact H1|]. split.
  - apply (frame_created guildId [gkey] w w1 (pretty (d_nextId (w_discord w)))); auto.
    + congruence.
    + congruence.
    + intros key Hk. rewrite Hi.
      assert (Hne : key <> gkey) by (intros ->; apply Hk; now left).
      rewrite lookup_insert_ne by congruence. now apply Hs0.
  - split.
    + split; [rewrite Hi; apply lookup_insert_eq|apply pretty_N_nonempty].
    + split; [rewrite He, He0; apply (co_fetch _ _ (h_cooperative _ _ H))|].
      split; [exact Hnew|reflexivity].
    + reflexivity.
Qed.

Lemma get_id_run key w :
  Index.get_id key w
    = mkOutcome
        (Ok match r_ids (w_redis w) !! key with
            | Some id => if string_falsy id then None else Some id
            | None => None
            end)
        w [ERedisGet key].
Proof.
  unfold Index.get_id, bind, redis_get, out, ret.
  destruct (r_ids (w_redis w) !! key) as [id|]; [destruct (string_falsy id)|]; reflexivity.
Qed.

Lemma ensureChannelGroupExists_run w :
  healthy w guildId ->
  exists id w1 t,
    Index.ensureChannelGroupExists guildId w = mkOutcome (Ok id) w1 t /\
    healthy w1 guildId /\
    frame guildId [gkey] [] w w1 /\
    stored w1 gkey id /\
    (exists c, lookup_channel guildId id (w_discord w1) = Some c) /\
    (forall grp0, group_tracked w guildId grp0 -> w1 = w /\ id = ch_id grp0).
Proof.
  intros H.
  assert (Hnew : forall w0 : World,
            w_env w0 = w_env w -> w_discord w0 = w_discord w ->
            r_guilds (w_redis w0) = r_guilds (w_redis w) ->
            (forall key, key <> gkey ->
               r_ids (w_redis w0) !! key = r_ids (w_redis w) !! key) ->
            exists id w1 t,
              Index.createChannelGroup guildId w0 = mkOutcome (Ok id) w1 t /\
              healthy w1 guildId /\
              frame guildId [gkey] [] w w1 /\
              stored w1 gkey id /\
              (exists c, lookup_channel guildId id (w_discord w1) = Some c)).
  { intros w0 He0 Hd0 Hr0 Hs0.
    destruct (createChannelGroup_from w w0 H He0 Hd0 Hr0 Hs0)
      as (w1 & t & E & H1 & Hf & [Hst (_ & Hl & _) _]).
    eauto 10. }
  unfold Index.ensureChannelGroupExists, Index.getChannelGroupId.
  erewrite bind_ok by (apply client_guilds_fetch_run; exact H).
  erewrite bind_ok by apply get_id_run.
  destruct (r_ids (w_redis w) !! gkey) as [s|] eqn:Es;
    [destruct (string_falsy s) eqn:Ef|].
  - destruct (Hnew w) as (id & w1 & t & E & H1 & Hf & Hst & Hl); auto.
    rewrite E. cbn [after result final emitted].
    do 3 eexists. split; [reflexivity|]. conjs; auto.
    intros grp0 [[Hst0 Hf0] _ _]. congruence.
  - destruct (lookup_channel guildId s (w_discord w)) as [c|] eqn:El.
    + erewrite bind_ok; cycle 1.
      { apply try_catch_ok. erewrite bind_ok; cycle 1.
        { rewrite (guild_channels_fetch_run _ _ _ H), El. reflexivity. }
        reflexivity. }
      cbn [after result final emitted ret app].
      do 3 eexists. split; [reflexivity|]. conjs.
      * exact H.
      * apply frame_weaken with (keys := []) (ids := []); [intros ? []..|apply frame_refl].
      * split; assumption.
      * eauto.
      * intros grp0 [[Hst0 Hf0] _ _]. split; [reflexivity|congruence].
    + erewrite bind_ok; cycle 1.
      { erewrite try_catch_throw; cycle 1.
        { erewrite bind_throw; [reflexivity|].
          rewrite (guild_channels_fetch_run _ _ _ H), El. reflexivity. }
        reflexivity. }
      cbn [after result final emitted ret app].
      erewrite bind_ok by apply removeChannelGroupId_run.
      edestruct Hnew as (id & w1 & t & E & H1 & Hf & Hst & Hl); cycle 4.
      { rewrite E. cbn [after result final emitted].
        do 3 eexists. split; [reflexivity|]. conjs; auto.
        intros grp0 [[Hst0 Hf0] (_ & Hl0 & _) _]. congruence. }
      all: cbn; try reflexivity.
      intros key Hne. now apply lookup_delete_ne.
  - destruct (Hnew w) as (id & w1 & t & E & H1 & Hf & Hst & Hl); auto.
    rewrite E. cbn [after result final emitted].
    do 3 eexists. split; [reflexivity|]. conjs; auto.
    intros grp0 [[Hst0 Hf0] _ _]. congruence.
Qed.

Lemma fetchChannelGroup_run w id c :
  healthy w guildId ->
  stored w gkey id ->
  lookup_channel guildId id (w_discord w) = Some c ->
  exists grp w1 t,
    Index.fetchChannelGroup guildId guildId id w = mkOutcome (Ok grp) w1 t /\
    healthy w1 guildId /\
    frame guildId [gkey] [] w w1 /\
    group_tracked w1 guildId grp /\
    (ch_type c = GuildCategory -> w1 = w /\ grp = c).
Proof.
  intros H [Hst Hf] Hl.
  unfold Index.fetchChannelGroup.
  destruct (ChannelType_eqb (ch_type c) GuildCategory) eqn:Et.
  - erewrite try_catch_ok; cycle 1.
    { erewrite bind_ok; cycle 1.
      { rewrite (guild_channels_fetch_run _ _ _ H), Hl. reflexivity. }
      cbn [after]. rewrite Et. reflexivity. }
    do 3 eexists. split; [reflexivity|]. conjs.
    + exact H.
    + apply frame_weaken with (keys := []) (ids := []); [intros ? []..|apply frame_refl].
    + pose proof (h_keyed _ _ H _ _ Hl) as Hid.
      split; [split| |]; rewrite ?Hid; auto.
      * split; [apply (co_fetch _ _ (h_cooperative _ _ H))|]. now split.
      * now destruct (ch_type c).
    + auto.
  - erewrite try_catch_throw; cycle 1.
    { erewrite bind_ok; cycle 1.
      { rewrite (guild_channels_fetch_run _ _ _ H), Hl. reflexivity. }
      cbn [after]. rewrite Et. reflexivity. }
    cbn [negb app].
    erewrite bind_ok by reflexivity.
    erewrite bind_ok by apply removeChannelGroupId_run.
    edestruct (createChannelGroup_from w) as (w1 & t & E & H1 & Hfr & Hgt); cycle 5.
    { erewrite bind_ok by exact E.
      destruct Hgt as [Hst1 (Hfe1 & Hl1 & Hid1) Ht1].
      erewrite bind_ok; cycle 1.
      { rewrite (guild_channels_fetch_run _ _ _ H1), Hl1. reflexivity. }
      cbn [after result final emitted ret app].
      do 3 eexists. split; [reflexivity|]. conjs.
      - exact H1.
      - exact Hfr.
      - split; [exact Hst1|split; [exact Hfe1|split; [exact Hl1|exact Hid1]]|exact Ht1].
      - intros Hc. rewrite Hc in Et. discriminate. }
    all: cbn; try reflexivity; try exact H.
    intros key Hne. now apply lookup_delete_ne.
Qed.

Lemma fetchStoredChannel_run k w :
  healthy w guildId ->
  exists r w1 t,
    Index.fetchStoredChannel guildId guildId k w = mkOutcome (Ok r) w1 t /\
    w_discord w1 = w_discord w /\
    frame guildId [key_of k guildId] [] w w1 /\
    List.filter is_mutation t = [] /\
    match r with
    | Some c =>
        w1 = w /\ stored w (key_of k guildId) (ch_id c) /\
        lookup_channel guildId (ch_id c) (w_discord w) = Some c /\
        ch_type c = GuildVoice
    | None => True
    end.
Proof.
  intros H.
  assert (Hget : Index.getChannelId k guildId w
                 = Index.get_id (key_of k guildId) w) by (destruct k; reflexivity).
  assert (Hdel : Index.removeChannelId k guildId w
                 = mkOutcome (Ok tt)
                     (with_redis {| r_guilds := r_guilds (w_redis w);
                                    r_ids := delete (key_of k guildId) (r_ids (w_redis w)) |} w)
                     [ERedisDel (key_of k guildId)]) by (destruct k; reflexivity).
  assert (Hfr : frame guildId [key_of k guildId] []
                  w (with_redis {| r_guilds := r_guilds (w_redis w);
                                   r_ids := delete (key_of k guildId) (r_ids (w_redis w)) |} w)).
  { apply frame_store; [reflexivity|]. intros key Hne. cbn. now apply lookup_delete_ne. }
  assert (Hsame : frame guildId [key_of k guildId] [] w w).
  { apply frame_refl. }
  unfold Index.fetchStoredChannel.
  erewrite bind_ok by (rewrite Hget; apply get_id_run).
  destruct (r_ids (w_redis w) !! key_of k guildId) as [s|] eqn:Es;
    [destruct (string_falsy s) eqn:Ef|].
  2:{ rewrite (guild_channels_fetch_run _ _ _ H) || idtac.
      destruct (lookup_channel guildId s (w_discord w)) as [c|] eqn:El.
      - destruct (ChannelType_eqb (ch_type c) GuildVoice) eqn:Et.
        + erewrite try_catch_ok; cycle 1.
          { erewrite bind_ok; cycle 1.
            { rewrite (guild_channels_fetch_run _ _ _ H), El. reflexivity. }
            cbn [after]. rewrite Et. reflexivity. }
          cbn [after result final emitted ret app negb].
          do 3 eexists. split; [reflexivity|]. conjs; auto.
          * pose proof (h_keyed _ _ H _ _ El) as Hid. rewrite Hid. split; assumption.
          * pose proof (h_keyed _ _ H _ _ El) as Hid. now rewrite Hid.
          * now destruct (ch_type c).
        + erewrite try_catch_ok; cycle 1.
          { erewrite bind_ok; cycle 1.
            { rewrite (guild_channels_fetch_run _ _ _ H), El. reflexivity. }
            cbn [after]. rewrite Et. cbn [negb].
            erewrite bind_ok by reflexivity.
            erewrite bind_ok by exact Hdel. reflexivity. }
          cbn [after result final emitted ret app].
          do 3 eexists. split; [reflexivity|]. conjs; auto.
      - erewrite try_catch_throw; cycle 1.
        { erewrite bind_throw; [reflexivity|].
          rewrite (guild_channels_fetch_run _ _ _ H), El. reflexivity. }
        erewrite bind_ok by exact Hdel.
        cbn [after result final emitted ret app].
        do 3 eexists. split; [reflexivity|]. conjs; auto. }
  all: cbn [after result final emitted ret app].
  all: do 3 eexists; (split; [reflexivity|]); conjs; auto.
Qed.

Lemma createChannel_run k value position grp w :
  healthy w guildId ->
  let c := new_channel w value GuildVoice (Some (ch_id grp)) position in
  exists w1,
    Index.createChannel guildId guildId k value position grp w
      = mkOutcome (Ok tt) w1
          [ EChannelsCreate guildId value GuildVoice (Some (ch_id grp)) position;
            ERedisSet (key_of k guildId) ] /\
    healthy w1 guildId /\
    frame guildId [key_of k guildId] [] w w1 /\
    stored w1 (key_of k guildId) (ch_id c) /\
    lookup_channel guildId (ch_id c) (w_discord w1) = Some c.
Proof.
  intros H. cbn zeta.
  destruct (guild_channels_create_run w guildId value GuildVoice (Some (ch_id grp)) position H)
    as (w1 & E & H1 & He & Hr & Hn & Hnone & Hnew & Hsame).
  assert (Hset : forall id w0, Index.setChannelId k guildId id w0
                 = mkOutcome (Ok tt)
                     (with_redis {| r_guilds := r_guilds (w_redis w0);
                                    r_ids := <[key_of k guildId := id]> (r_ids (w_redis w0)) |} w0)
                     [ERedisSet (key_of k guildId)]) by (intros; destruct k; reflexivity).
  eexists. split.
  { unfold Index.createChannel. apply try_catch_ok.
    erewrite bind_ok by exact E. rewrite Hset. reflexivity. }
  unfold new_channel in *. cbn [ch_id] in *. conjs.
  - eapply healthy_same_platform; [| |exact H1]; reflexivity.
  - apply (frame_created guildId _ w _ (pretty (d_nextId (w_discord w)))); cbn; auto.
    + now rewrite Hr.
    + intros key Hk. rewrite Hr. apply lookup_insert_ne. intros <-. apply Hk. now left.
  - split; [cbn; apply lookup_insert_eq|apply pretty_N_nonempty].
  - exact Hnew.
Qed.

Lemma frame_updated w w1 id :
  w_env w1 = w_env w ->
  w_redis w1 = w_redis w ->
  d_nextId (w_discord w1) = d_nextId (w_discord w) ->
  same_channels_but guildId id w w1 ->
  frame guildId [] [id] w w1.
Proof.
  intros He Hr Hn Hsame. split; [exact He|now rewrite Hr|now rewrite Hr| |lia].
  intros id' c Hni Hl. rewrite Hsame; [exact Hl|]. intros ->. apply Hni. now left.
Qed.

Lemma healthy_frame_same_platform keys ids w w1 :
  frame guildId keys ids w w1 -> w_discord w1 = w_discord w ->
  healthy w guildId -> healthy w1 guildId.
Proof. intros [He _ _ _ _] Hd. now apply healthy_same_platform. Qed.

(** From a healthy guild, one call of [updateChannel] leaves the guild
    healthy and converged for the child. *)
Lemma updateChannel_converges_run k value position w :
  healthy w guildId ->
  exists grp c w1 t,
    Index.updateChannel guildId k value position w = mkOutcome (Ok tt) w1 t /\
    healthy w1 guildId /\
    converged w1 guildId k value position grp c /\
    frame guildId [gkey; key_of k guildId] (stored_child_ids w guildId k) w w1 /\
    (forall grp0, group_tracked w guildId grp0 -> grp = grp0) /\
    (r_ids (w_redis w) !! key_of k guildId = Some (ch_id c) \/
     exists m, (d_nextId (w_discord w) <= m)%N /\ ch_id c = pretty m).
Proof.
  intros H.
  destruct (healthy_guild _ _ H) as (g & Hg & Hgf & Hmf & Hp1 & Hp2 & Hp3).
  destruct (ensureChannelGroupExists_run w H)
    as (id & w1 & t1 & E1 & H1 & F1 & St1 & (c0 & Hl0) & Hsame1).
  destruct (fetchChannelGroup_run w1 id c0 H1 St1 Hl0)
    as (grp & w2 & t2 & E2 & H2 & F2 & Gt2 & Hcat).
  destruct (fetchStoredChannel_run k w2 H2)
    as (r & w3 & t3 & E3 & Hd3 & F3 & Hm3 & Hr).
  pose proof (healthy_frame_same_platform _ _ _ _ F3 Hd3 H2) as H3.
  assert (Gt3 : group_tracked w3 guildId grp).
  { apply (group_tracked_frame _ _ _ _ _ _ F3); [|intros []|exact Gt2].
    intros [E|[]]. now apply key_of_not_group in E. }
  assert (F13 : frame guildId [gkey; key_of k guildId] [] w w3).
  { eapply frame_weaken; [| |exact (frame_trans _ _ _ _ _ _ _ _
                                     (frame_trans _ _ _ _ _ _ _ _ F1 F2) F3)].
    - cbn. tauto.
    - cbn. tauto. }
  assert (Hgrp : forall grp0, group_tracked w guildId grp0 -> grp = grp0).
  { intros grp0 Hgt0. destruct (Hsame1 _ Hgt0) as [-> ->].
    destruct Hgt0 as [_ (_ & Hl & _) Ht0]. rewrite Hl in Hl0. injection Hl0 as <-.
    now destruct (Hcat Ht0). }
  assert (Hrun : forall w4 t4,
            match r with
            | None => Index.createChannel guildId guildId k value position grp
            | Some channel => Index.updateExisting guildId guildId k value position grp channel
            end w3 = mkOutcome (Ok tt) w4 t4 ->
            Index.updateChannel guildId k value position w
              = mkOutcome (Ok tt) w4
                  ([EUpdateChannel guildId k value position] ++
                   [EGuildsFetch guildId] ++ [EMembersFetch guildId] ++
                   t1 ++ t2 ++ t3 ++ t4)).
  { intros w4 t4 E4. unfold Index.updateChannel.
    erewrite bind_ok by reflexivity.
    erewrite try_catch_ok; [reflexivity|].
    erewrite bind_ok by (apply client_guilds_fetch_run; exact H).
    erewrite bind_ok; cycle 1.
    { unfold guild_members_fetch, out. rewrite Hmf, Hg. reflexivity. }
    cbn zeta. rewrite Hp1, Hp2, Hp3. cbn [negb].
    erewrite bind_ok by exact E1.
    erewrite bind_ok by exact E2.
    erewrite bind_ok by exact E3.
    rewrite E4. reflexivity. }
  destruct r as [c|].
  - destruct Hr as (-> & Hcs & Hcl & Hct).
    destruct (updateExisting_healthy w2 guildId k value position grp c H2 Hcl)
      as (w4 & E4 & H4 & He4 & Hr4 & Hn4 & Hl4 & Hsame4).
    pose proof (frame_updated _ _ _ He4 Hr4 Hn4 Hsame4) as F4.
    destruct Gt2 as [[Hgs Hgf'] (Hgfe & Hgl & Hgid) Hgt].
    assert (Hne : ch_id grp <> ch_id c).
    { intros E'. rewrite E' in Hgl. congruence. }
    assert (Hkey : r_ids (w_redis w) !! key_of k guildId = Some (ch_id c)).
    { destruct Hcs as [Hcs _]. rewrite <- Hcs. symmetry.
      apply (fr_store _ _ _ _ _ (frame_trans _ _ _ _ _ _ _ _ F1 F2)).
      cbn. intros [E|[E|[]]]; symmetry in E; now apply key_of_not_group in E. }
    exists grp, (desired_channel c grp value position), w4. eexists.
    split; [apply Hrun; exact E4|]. conjs.
    + exact H4.
    + destruct Hcs as [Hcs Hcf].
      split; [split|..]; try reflexivity;
        unfold stored, live; cbn [desired_channel ch_id ch_type]; rewrite ?Hr4, ?He4.
      * split; assumption.
      * split; [exact Hgfe|]. split; [|exact Hgid]. rewrite Hsame4; assumption.
      * exact Hgt.
      * split; assumption.
      * split; [apply (co_fetch _ _ (h_cooperative _ _ H2))|].
        split; [exact Hl4|reflexivity].
      * exact Hct.
    + eapply frame_weaken; [| |exact (frame_trans _ _ _ _ _ _ _ _ F13 F4)].
      * cbn. tauto.
      * unfold stored_child_ids. rewrite Hkey. cbn. tauto.
    + exact Hgrp.
    + left. exact Hkey.
  - destruct (createChannel_run k value position grp w3 H3)
      as (w4 & E4 & H4 & F4 & Hcs & Hcl).
    exists grp, (new_channel w3 value GuildVoice (Some (ch_id grp)) position), w4.
    eexists. split; [apply Hrun; exact E4|]. conjs.
    + exact H4.
    + assert (Gt4 : group_tracked w4 guildId grp).
      { apply (group_tracked_frame _ _ _ _ _ _ F4); [|intros []|exact Gt3].
        intros [E|[]]. now apply key_of_not_group in E. }
      destruct Gt4 as [Hgs Hgl Hgt].
      split; [split|..]; try reflexivity; try assumption.
      split; [apply (co_fetch _ _ (h_cooperative _ _ H4))|]. split; [exact Hcl|reflexivity].
    + eapply frame_weaken; [| |exact (frame_trans _ _ _ _ _ _ _ _ F13 F4)].
      * cbn. tauto.
      * cbn. tauto.
    + exact Hgrp.
    + right. exists (d_nextId (w_discord w3)). split; [apply (fr_nextId _ _ _ _ _ F13)|reflexivity].
Qed.

End Phases.

(** X4: one call converges.  In a guild where the permission check passes
    and the platform refuses nothing, whatever the store holds (no ids,
    ids of channels that are gone, ids of channels of another type), one
    call of [updateChannel] returns with the child converged under a
    live category, and the guild is as healthy as before. *)
Theorem updateChannel_converges w guildId k value position :
  healthy w guildId ->
  let o := Index.updateChannel guildId k value position w in
  result o = Ok tt /\
  healthy (final o) guildId /\
  exists grp c, converged (final o) guildId k value position grp c.
Proof.
  intros H. cbn zeta.
  destruct (updateChannel_converges_run guildId k value position w H)
    as (grp & c & w1 & t & E & H1 & Hc & _).
  rewrite E. cbn. eauto.
Qed.

Lemma converged_group_tracked w guildId k value position grp c :
  converged w guildId k value position grp c -> group_tracked w guildId grp.
Proof. intros [[Hs Hl Ht _ _ _] _ _ _]. now split. Qed.

(** The two calls a pass owes to a guild leave it converged. *)
Lemma tenant_converges_run w guildId v0 v1 :
  healthy w guildId ->
  children_apart w guildId ->
  exists w2 t,
    (Index.updateChannel guildId Price v0 0 ;;
     Index.updateChannel guildId Halvening v1 1) w = mkOutcome (Ok tt) w2 t /\
    healthy w2 guildId /\
    tenant_converged w2 guildId v0 v1 /\
    w_env w2 = w_env w /\
    r_guilds (w_redis w2) = r_guilds (w_redis w) /\
    (d_nextId (w_discord w) <= d_nextId (w_discord w2))%N.
Proof.
  intros H Hap.
  destruct (updateChannel_converges_run guildId Price v0 0 w H)
    as (grp & c1 & w1 & t1 & E1 & H1 & Hc1 & F1 & _ & Hid1).
  destruct (updateChannel_converges_run guildId Halvening v1 1 w1 H1)
    as (grp' & c2 & w2 & t2 & E2 & H2 & Hc2 & F2 & Hgrp & _).
  assert (grp' = grp) as ->.
  { apply Hgrp. eapply converged_group_tracked; exact Hc1. }
  exists w2. eexists. split.
  { erewrite bind_ok by exact E1. rewrite E2. reflexivity. }
  split; [exact H2|].
  destruct F1 as [He1 Hr1 Hs1 Hch1 Hn1]. destruct F2 as [He2 Hr2 Hs2 Hch2 Hn2].
  split; [|split; [congruence|split; [congruence|lia]]].
  exists grp, c1, c2. split; [|exact Hc2].
  pose proof (converged_group_tracked _ _ _ _ _ _ _ Hc2) as [Hgs Hgl Hgt].
  destruct Hc1 as [[_ _ _ [Hcs Hcf] (Hcfe & Hcl & Hcid) Hct] Hname Hpar Hpos].
  assert (Hk1 : key_of Price guildId <> key_of Halvening guildId).
  { intros E. apply key_of_inj in E as [E _]. discriminate. }
  split; [split|..]; try assumption.
  - split; [|exact Hcf]. rewrite Hs2; [exact Hcs|].
    intros [E|[E|[]]]; [symmetry in E; now apply key_of_not_group in E|congruence].
  - split; [rewrite He2; exact Hcfe|]. split; [|exact Hcid].
    apply Hch2; [|exact Hcl].
    unfold stored_child_ids.
    assert (Hh : r_ids (w_redis w1) !! key_of Halvening guildId
                 = r_ids (w_redis w) !! key_of Halvening guildId).
    { apply Hs1.
      intros [E|[E|[]]]; [symmetry in E; now apply key_of_not_group in E|congruence]. }
    rewrite Hh.
    destruct (r_ids (w_redis w) !! key_of Halvening guildId) as [id|] eqn:Eh; [|intros []].
    destruct (Hap id Eh) as [Hp Hfut].
    intros [->|[]].
    destruct Hid1 as [Hst|(m & Hm & Em)]; [congruence|].
    exact (Hfut m Hm Em).
Qed.

(** ** Guilds do not disturb each other *)

Lemma lookup_channel_same_guild w w1 g :
  d_guilds (w_discord w1) !! g = d_guilds (w_discord w) !! g ->
  forall id, lookup_channel g id (w_discord w1) = lookup_channel g id (w_discord w).
Proof. intros E id. unfold lookup_channel. now rewrite E. Qed.

Lemma healthy_undisturbed g w w1 :
  undisturbed g w w1 -> healthy w g -> healthy w1 g.
Proof.
  intros [He Hg Hk Hn] [[Hgf Hmf Hr] Hc Hf Hwk].
  pose proof (lookup_channel_same_guild _ _ _ Hg) as Hl.
  split; [split|..]; rewrite ?He; try assumption.
  - now rewrite Hg.
  - intros m Hm. rewrite Hl. apply Hf. lia.
  - intros id c. rewrite Hl. apply Hwk.
Qed.

Lemma children_apart_undisturbed g w w1 :
  undisturbed g w w1 -> children_apart w g -> children_apart w1 g.
Proof.
  intros [He Hg Hk Hn] Hap id.
  rewrite !Hk by (cbn; auto). intros Hid.
  destruct (Hap id Hid) as [Hp Hfut]. split; [exact Hp|].
  intros m Hm. apply Hfut. lia.
Qed.

Lemma converged_undisturbed g w w1 k value position grp c :
  undisturbed g w w1 ->
  converged w g k value position grp c -> converged w1 g k value position grp c.
Proof.
  intros [He Hg Hk Hn]
    [[[Hgs Hgf] (Hgfe & Hgl & Hgid) Hgt [Hcs Hcf] (Hcfe & Hcl & Hcid) Hct] Hname Hpar Hpos].
  pose proof (lookup_channel_same_guild _ _ _ Hg) as Hl.
  split; [split|..]; try assumption; unfold stored, live;
    rewrite ?He, ?Hl, ?Hk; auto using key_of_own.
  cbn. auto.
Qed.

Lemma tenant_converged_undisturbed g w w1 v0 v1 :
  undisturbed g w w1 -> tenant_converged w g v0 v1 -> tenant_converged w1 g v0 v1.
Proof.
  intros Hu (grp & c1 & c2 & H1 & H2).
  exists grp, c1, c2. split; eapply converged_undisturbed; eassumption.
Qed.

Lemma undisturbed_trans g w w1 w2 :
  undisturbed g w w1 -> undisturbed g w1 w2 -> undisturbed g w w2.
Proof.
  intros [He Hg Hk Hn] [He' Hg' Hk' Hn']. split.
  - congruence.
  - congruence.
  - intros key Hin. rewrite Hk', Hk; auto.
  - lia.
Qed.

Lemma undisturbed_refl g w : undisturbed g w w.
Proof. split; auto; lia. Qed.

Section Convergence.
Variable currencyFormat : JsValue -> string.
Variable compactFormat : float -> string.

Local Abbreviation updatePriceChannel := (Index.updatePriceChannel currencyFormat).
Local Abbreviation updateHalveningChannel := (Index.updateHalveningChannel compactFormat).
Local Abbreviation formatNumber := (Index.formatNumber compactFormat).

Lemma tenant_run g p b bs w :
  formatNumber b = Ok bs ->
  healthy w g ->
  children_apart w g ->
  exists w2 t,
    (updatePriceChannel g p ;; updateHalveningChannel g b) w = mkOutcome (Ok tt) w2 t /\
    healthy w2 g /\
    tenant_converged w2 g ("$BIG: " +:+ currencyFormat p) ("HALVENING: " +:+ bs) /\
    (d_nextId (w_discord w) <= d_nextId (w_discord w2))%N /\
    w_env w2 = w_env w /\
    r_guilds (w_redis w2) = r_guilds (w_redis w) /\
    forall g', g' <> g -> undisturbed g' w w2.
Proof.
  intros Hf H Hap.
  destruct (tenant_converges_run w g ("$BIG: " +:+ currencyFormat p) ("HALVENING: " +:+ bs)
              H Hap) as (w2 & t & E & H2 & Hc & He & Hr & Hn).
  assert (E' : (updatePriceChannel g p ;; updateHalveningChannel g b) w
               = mkOutcome (Ok tt) w2 t).
  { rewrite <- E. unfold bind, Index.updatePriceChannel.
    destruct (Index.updateChannel g Price _ 0 w) as [[[]|e] w1 t1]; [|reflexivity].
    now rewrite (updateHalveningChannel_formatted compactFormat g b bs w1 Hf). }
  exists w2, t. split; [exact E'|]. conjs; try assumption.
  intros g' Hne.
  destruct (confined_own_keys g _ w (tenant_confined currencyFormat compactFormat g p b))
    as (Hg & _ & Hk).
  rewrite E' in Hg, Hk. cbn [final] in Hg, Hk.
  split; [exact He|exact (Hg g' Hne)|intros key Hin; exact (Hk g' key Hne Hin)|exact Hn].
Qed.

Lemma for_of_converges p b bs (l : list string) w :
  formatNumber b = Ok bs ->
  List.NoDup l ->
  (forall g, In g l -> healthy w g /\ children_apart w g) ->
  exists w1 t,
    for_of l (fun guildId =>
      updatePriceChannel guildId p ;; updateHalveningChannel guildId b) w
      = mkOutcome (Ok tt) w1 t /\
    (forall g, In g l ->
       tenant_converged w1 g ("$BIG: " +:+ currencyFormat p) ("HALVENING: " +:+ bs)) /\
    (forall g, ~ In g l -> undisturbed g w w1) /\
    r_guilds (w_redis w1) = r_guilds (w_redis w).
Proof.
  intros Hf Hnd. revert w. induction Hnd as [|g l Hnin Hnd IH]; intros w Hall.
  - exists w, []. split; [reflexivity|]. split; [intros g []|].
    split; [intros; apply undisturbed_refl|reflexivity].
  - destruct (Hall g (or_introl eq_refl)) as [Hg Hap].
    destruct (tenant_run g p b bs w Hf Hg Hap)
      as (w1 & t1 & E1 & H1 & Hc1 & Hn1 & He1 & Hr1 & Hu1).
    destruct (IH w1) as (w2 & t2 & E2 & Hc2 & Hu2 & Hr2).
    { intros g' Hin. destruct (Hall g' (or_intror Hin)) as [Hg' Hap'].
      assert (Hne : g' <> g) by (intros ->; contradiction).
      split; [eapply healthy_undisturbed|eapply children_apart_undisturbed];
        eauto. }
    exists w2. eexists. split.
    { cbn [for_of]. erewrite bind_ok by exact E1. rewrite E2. reflexivity. }
    split; [|split; [|congruence]].
    + intros g' [<-|Hin]; [|now apply Hc2].
      eapply tenant_converged_undisturbed; [apply Hu2; exact Hnin|exact Hc1].
    + intros g' Hn. eapply undisturbed_trans; [apply Hu1|apply Hu2].
      * intros ->. apply Hn. now left.
      * intros Hin. apply Hn. now right.
Qed.

(** X5: one pass converges every registered guild.  With a snapshot of the
    metrics, a duplicate-free registry, and every registered guild
    healthy with the ids of its two children apart, [updatePrice]
    completes, leaves the registry as it was, and leaves every registered
    guild with both children converged under one category, named after
    the snapshot. *)
Theorem updatePrice_converges w p b bs :
  snapshot compactFormat w p b bs ->
  List.NoDup (registry w) ->
  (forall g, In g (registry w) -> healthy w g /\ children_apart w g) ->
  let o := Index.updatePrice currencyFormat compactFormat w in
  result o = Ok tt /\
  registry (final o) = registry w /\
  forall g, In g (registry w) ->
    tenant_converged (final o) g ("$BIG: " +:+ currencyFormat p) ("HALVENING: " +:+ bs).
Proof.
  intros (data & Hh & Hp & Hb & Hf) Hnd Hall. cbn zeta.
  destruct (for_of_converges p b bs (registry w) w Hf Hnd Hall)
    as (w1 & t1 & E & Hc & _ & Hr).
  unfold Index.updatePrice. cbn zeta.
  erewrite bind_ok by (eapply getStats_run; eassumption).
  cbn [s_price s_blocksUntilHalving].
  erewrite bind_ok by apply getGuilds_run.
  erewrite bind_ok by (unfold lift; rewrite Hf; reflexivity).
  destruct (registry w) as [|g0 l] eqn:Er.
  - cbn. rewrite Er. split; [reflexivity|]. split; [reflexivity|]. intros g [].
  - cbn [length Nat.eqb]. rewrite E. cbn [after result final].
    split; [reflexivity|]. split; [|exact Hc].
    unfold registry in *. now rewrite Hr.
Qed.

(** X6: the join handler sets the guild up.  With a snapshot of the
    metrics, in a healthy guild with the ids of its two children apart
    (a guild with nothing stored, for one), [guildCreate] completes with
    the guild registered and both children converged under one category,
    named after the snapshot. *)
Theorem guildCreate_sets_up guildId w p b bs :
  snapshot compactFormat w p b bs ->
  healthy w guildId ->
  children_apart w guildId ->
  let o := Index.guildCreate currencyFormat compactFormat guildId w in
  result o = Ok tt /\
  In guildId (registry (final o)) /\
  tenant_converged (final o) guildId
    ("$BIG: " +:+ currencyFormat p) ("HALVENING: " +:+ bs).
Proof.
  intros (data & Hh & Hp & Hb & Hf) H Hap. cbn zeta.
  destruct (tenant_run guildId p b bs w Hf H Hap)
    as (w2 & t2 & E2 & H2 & Hc2 & Hn2 & He2 & Hr2 & _).
  destruct (updatePriceChannel_run currencyFormat guildId p w)
    as (w1 & tp & Ep & _).
  destruct (updateHalveningChannel_run compactFormat guildId b bs w1 Hf)
    as (w2' & th & Eh & _).
  erewrite bind_ok in E2 by exact Ep. rewrite Eh in E2.
  cbn [after result final emitted] in E2. injection E2 as -> _.
  unfold Index.guildCreate. cbn zeta.
  erewrite bind_ok by (eapply getStats_run; eassumption).
  cbn [s_price s_blocksUntilHalving].
  erewrite bind_ok by exact Ep.
  erewrite bind_ok by exact Eh.
  erewrite bind_ok by apply addGuild_run.
  cbn [after result final emitted ret].
  split; [reflexivity|]. split.
  - change (registry (with_redis _ w2))
      with (Array_from_Set (registry w2 ++ [guildId])).
    rewrite In_Array_from_Set, in_app_iff. right. now left.
  - eapply tenant_converged_undisturbed; [|exact Hc2].
    split; cbn; auto; lia.
Qed.

End Convergence.

(** ** Teardown of a converged guild *)

Lemma remove_stored_live key guildId w id c :
  reachable w guildId ->
  stored w key id ->
  live w guildId id c ->
  e_delete (w_env w) guildId id = None ->
  exists w1,
    remove_stored key guildId w
      = mkOutcome (Ok tt) w1
          [ EGuildsFetch guildId; ERedisGet key; EChannelsFetch guildId id;
            EDelete guildId id; ERedisDel key ] /\
    reachable w1 guildId /\
    w_env w1 = w_env w /\
    r_guilds (w_redis w1) = r_guilds (w_redis w) /\
    r_ids (w_redis w1) = delete key (r_ids (w_redis w)) /\
    lookup_channel guildId id (w_discord w1) = None /\
    same_channels_but guildId id w w1.
Proof.
  intros (Hf & g & Hg) [Hs Hfalsy] (Hfe & Hl & Hid) Hdel.
  unfold lookup_channel in Hl. rewrite Hg in Hl. subst id.
  eexists. split; [exec_teardown; reflexivity|].
  unfold reachable, same_channels_but, lookup_channel.
  red_proj. rewrite !lookup_alter_eq, Hg. cbn.
  conjs; eauto.
  - apply lookup_delete_eq.
  - intros id' Hne. now apply lookup_delete_ne.
Qed.

Lemma removeGuild_no_mutation guildId w :
  List.filter is_mutation (emitted (Index.removeGuild guildId w)) = [].
Proof.
  unfold Index.removeGuild.
  erewrite bind_ok by apply getGuilds_run.
  destruct (registry w); reflexivity.
Qed.

(** X12: leaving a converged guild takes down what was set up.  When the
    guild can be fetched, both children are converged under the category
    and none of the three deletions is refused, [guildDelete] completes
    with the guild out of the registry, the three keys of the guild
    gone from the store and the three channels gone from the platform;
    the mutations it issues are the three deletions: price child,
    countdown child, category. *)
Theorem guildDelete_tears_down w guildId v0 v1 grp c1 c2 :
  reachable w guildId ->
  converged w guildId Price v0 0 grp c1 ->
  converged w guildId Halvening v1 1 grp c2 ->
  e_delete (w_env w) guildId (ch_id c1) = None ->
  e_delete (w_env w) guildId (ch_id c2) = None ->
  e_delete (w_env w) guildId (ch_id grp) = None ->
  let o := Index.guildDelete guildId w in
  result o = Ok tt /\
  ~ In guildId (registry (final o)) /\
  (forall key, In key (own_keys guildId) -> r_ids (w_redis (final o)) !! key = None) /\
  (forall id, In id [ch_id c1; ch_id c2; ch_id grp] ->
     lookup_channel guildId id (w_discord (final o)) = None) /\
  List.filter is_mutation (emitted o)
    = [ EDelete guildId (ch_id c1); EDelete guildId (ch_id c2);
        EDelete guildId (ch_id grp) ].
Proof.
  intros Hr
    [[[Hgs Hgf] (Hgfe & Hgl & Hgid) Hgt [Hps Hpf] (Hpfe & Hpl & Hpid) Hpt] _ _ Hppos]
    [[_ _ _ [Hhs Hhf] (Hhfe & Hhl & Hhid) Hht] _ _ Hhpos] Hd1 Hd2 Hd3.
  cbn zeta. cbn [key_of] in *.
  assert (N12 : ch_id c1 <> ch_id c2).
  { intros E. rewrite E, Hhl in Hpl. injection Hpl as ->. lia. }
  assert (N1g : ch_id c1 <> ch_id grp).
  { intros E. rewrite E, Hgl in Hpl. congruence. }
  assert (N2g : ch_id c2 <> ch_id grp).
  { intros E. rewrite E, Hgl in Hhl. congruence. }
  pose proof (key_of_not_group Price guildId guildId) as Kpg.
  pose proof (key_of_not_group Halvening guildId guildId) as Khg.
  assert (Kph : key_of Price guildId <> key_of Halvening guildId).
  { intros E. apply key_of_inj in E as [E _]. discriminate. }
  cbn [key_of] in Kpg, Khg, Kph.
  destruct (removeGuild_run guildId w) as (a & w0 & t0 & E0 & He0 & Hd0 & Hi0 & Hn0).
  assert (Ht0 : List.filter is_mutation t0 = []).
  { pose proof (removeGuild_no_mutation guildId w) as X. now rewrite E0 in X. }
  assert (Hr0 : reachable w0 guildId).
  { unfold reachable in *. now rewrite He0, Hd0. }
  destruct (remove_stored_live (guildId +:+ ":priceChannel") guildId w0 (ch_id c1) c1)
    as (w1 & E1 & Hr1 & He1 & Hg1 & Hi1 & Hl1 & Hs1).
  { exact Hr0. }
  { split; [now rewrite Hi0|exact Hpf]. }
  { split; [now rewrite He0|]. rewrite Hd0. now split. }
  { now rewrite He0. }
  destruct (remove_stored_live (guildId +:+ ":halveningChannel") guildId w1 (ch_id c2) c2)
    as (w2 & E2 & Hr2 & He2 & Hg2 & Hi2 & Hl2 & Hs2).
  { exact Hr1. }
  { split; [|exact Hhf]. rewrite Hi1, lookup_delete_ne, Hi0 by congruence. exact Hhs. }
  { split; [now rewrite He1, He0|]. split; [|exact Hhid].
    rewrite Hs1 by congruence. now rewrite Hd0. }
  { now rewrite He1, He0. }
  destruct (remove_stored_live (guildId +:+ ":channelGroup") guildId w2 (ch_id grp) grp)
    as (w3 & E3 & Hr3 & He3 & Hg3 & Hi3 & Hl3 & Hs3).
  { exact Hr2. }
  { split; [|exact Hgf].
    rewrite Hi2, lookup_delete_ne, Hi1, lookup_delete_ne, Hi0 by congruence.
    exact Hgs. }
  { split; [now rewrite He2, He1, He0|]. split; [|exact Hgid].
    rewrite Hs2, Hs1 by congruence. now rewrite Hd0. }
  { now rewrite He2, He1, He0. }
  unfold Index.guildDelete.
  erewrite bind_ok by exact E0.
  erewrite bind_ok by (apply try_catch_ok; exact E1).
  erewrite bind_ok by (apply try_catch_ok; exact E2).
  change (Index.removeChannelGroup guildId w2)
    with (remove_stored (guildId +:+ ":channelGroup") guildId w2).
  rewrite E3. cbn [after result final emitted].
  split; [reflexivity|]. split; [|split; [|split]].
  - unfold registry in *. now rewrite Hg3, Hg2, Hg1.
  - rewrite Hi3, Hi2, Hi1. intros key [<-|[<-|[<-|[]]]]; gone.
  - intros id [<-|[<-|[<-|[]]]].
    + rewrite Hs3, Hs2 by congruence. exact Hl1.
    + rewrite Hs3 by congruence. exact Hl2.
    + exact Hl3.
  - rewrite List.filter_app, Ht0. reflexivity.
Qed.

(** ** Leaving a guild that can still be fetched *)

(** X13: while the guild can still be fetched, [guildDelete] forgets it
    whatever becomes of the channel fetches and deletions: the handler
    completes, the guild is out of the registry and none of its three
    keys is left in the store, also when a deletion was refused and the
    channel is still on the platform. *)
Theorem guildDelete_forgets_reachable guildId w :
  reachable w guildId ->
  ids_nonempty w ->
  let o := Index.guildDelete guildId w in
  result o = Ok tt /\
  ~ In guildId (registry (final o)) /\
  forall key, In key (own_keys guildId) -> r_ids (w_redis (final o)) !! key = None.
Proof.
  intros Hr Hne. cbn zeta.
  destruct (guildDelete_clears_reachable guildId w Hr Hne) as (Hres & Hreg & K1 & K2 & K3).
  split; [exact Hres|]. split; [exact Hreg|].
  intros key [<-|[<-|[<-|[]]]]; assumption.
Qed.

(** ** Joining while the metrics cannot be had *)

Section JoinWithoutMetrics.
Variable currencyFormat : JsValue -> string.
Variable compactFormat : float -> string.

(** X15: when [getStats] throws (the request is rejected, or the payload
    is null or undefined), the join handler and the pass throw the same
    error after the metrics request alone: the joining guild is not
    registered, nothing is created, and the world is as it was. *)
Theorem guildCreate_needs_metrics guildId w e :
  result (Index.getStats w) = Throw e ->
  Index.guildCreate currencyFormat compactFormat guildId w
    = mkOutcome (Throw e) w [EHttpGet STATS_URL] /\
  Index.updatePrice currencyFormat compactFormat w
    = mkOutcome (Throw e) w [EHttpGet STATS_URL].
Proof.
  intros Hres.
  assert (E : Index.getStats w = mkOutcome (Throw e) w [EHttpGet STATS_URL]).
  { revert Hres. unfold Index.getStats, axios_get, bind, out, lift, ret.
    destruct (e_http (w_env w)) as [e0|data]; cbn; [congruence|].
    destruct (data_bigPrice data); cbn; [|congruence].
    destruct (data_blocksUntilHalving data); cbn; [discriminate|congruence]. }
  split.
  - unfold Index.guildCreate. now erewrite bind_throw by exact E.
  - unfold Index.updatePrice. now erewrite bind_throw by exact E.
Qed.

End JoinWithoutMetrics.

(** ** The later revision of the reconciler *)

Ltac unfold_revised :=
  unfold Revised.updateChannel, Revised.updateExisting, Revised.createChannel,
    Revised.fetchChannelGroup, Revised.ensureChannelGroupExists,
    Revised.createChannelGroup, Revised.channel_permissionOverwrites_edit.

Ltac prove_respects_revised := unfold_revised; prove_respects.

Ltac run_revised :=
  cbv beta iota zeta delta
    [Revised.updateChannel Revised.updateExisting Revised.createChannel
     Revised.fetchChannelGroup Revised.ensureChannelGroupExists
     Revised.createChannelGroup Revised.channel_permissionOverwrites_edit];
  run.

Ltac exec_revised := repeat (progress (run_revised; rew_hyps)).

Lemma filter_keeps_place (t : list Event) :
  forallb keeps_place t = true ->
  List.filter is_move_or_reposition t = [] /\ List.filter is_delete t = [].
Proof.
  induction t as [|e t IH]; cbn; [auto|].
  intros H. apply andb_prop in H as [H1 H2]. unfold keeps_place in H1.
  apply andb_prop in H1 as [Ha Hb]. apply negb_true_iff in Ha, Hb.
  rewrite Ha, Hb. auto.
Qed.

(** A handler that only logs makes the block return. *)
Lemma try_catch_logged (m : M unit) (msg : Error -> ErrorMsg) w :
  result (try_catch m (fun error => console_error (msg error)) w) = Ok tt.
Proof. unfold try_catch. destruct (m w) as [[[]|e] w1 t1]; reflexivity. Qed.

Lemma for_of_returns {A} (l : list A) (body : A -> M unit) w :
  (forall x w0, result (body x w0) = Ok tt) -> result (for_of l body w) = Ok tt.
Proof.
  intros H. revert w. induction l as [|x l IH]; intros w; cbn [for_of]; [reflexivity|].
  unfold bind. pose proof (H x w) as Hx.
  destruct (body x w) as [[[]|e] w1 t1]; cbn in Hx; [|discriminate].
  pose proof (IH w1) as Hl. destruct (for_of l body w1) as [r w2 t2]. exact Hl.
Qed.

Lemma revised_updateChannel_returns guildId k value position w :
  result (Revised.updateChannel guildId k value position w) = Ok tt.
Proof.
  unfold Revised.updateChannel. unfold bind at 1. cbn [emit].
  match goal with
  | |- context [try_catch ?b ?h w] =>
      pose proof (try_catch_logged b (ErrorUpdatingChannel k guildId) w) as H;
      destruct (try_catch b h w) as [r w1 t1]
  end.
  exact H.
Qed.

Lemma revised_updateChannel_keeps_place guildId k value position :
  respects keeps_place (Revised.updateChannel guildId k value position).
Proof. prove_respects_revised. Qed.

Lemma revised_updateChannel_reconciling guildId k value position w :
  exists w1 t1,
    Revised.updateChannel guildId k value position w
      = mkOutcome (Ok tt) w1 (EUpdateChannel guildId k value position :: t1) /\
    w_env w1 = w_env w /\
    r_guilds (w_redis w1) = r_guilds (w_redis w) /\
    forallb reconciling t1 = true.
Proof.
  pose proof (revised_updateChannel_returns guildId k value position w) as Hres.
  revert Hres. unfold Revised.updateChannel.
  match goal with
  | |- context [try_catch ?b ?h] =>
      assert (H : respects reconciling (try_catch b h)) by prove_respects_revised;
      set (m := try_catch b h) in *
  end.
  unfold bind, emit. destruct (H w) as (He & Hr & Ht).
  destruct (m w) as [r w1 t1]. cbn in *. intros ->. eauto 10.
Qed.

(** X17: [updateChannel] of the later revision never throws, never moves,
    repositions or deletes a channel, and leaves the registry as it
    was, in any world. *)
Theorem revised_updateChannel_never_moves guildId k value position w :
  let o := Revised.updateChannel guildId k value position w in
  result o = Ok tt /\
  List.filter is_move_or_reposition (emitted o) = [] /\
  List.filter is_delete (emitted o) = [] /\
  registry (final o) = registry w.
Proof.
  cbn zeta.
  destruct (revised_updateChannel_keeps_place guildId k value position w) as (_ & Hr & Ht).
  apply filter_keeps_place in Ht as [H1 H2].
  split; [apply revised_updateChannel_returns|]. conjs; auto.
  unfold registry. now rewrite Hr.
Qed.

(** X18: in the later revision the name is all that is reconciled.  When
    the permission check passes, both stored ids are live and the child
    has the desired name, [updateChannel] changes nothing and issues no
    mutation and no write to the store, wherever the child is filed,
    whatever its position, and whether or not the bot can manage it. *)
Theorem revised_updateChannel_name_only w guildId k value position grp c :
  permitted w guildId ->
  tracked w guildId k grp c ->
  ch_name c = value ->
  let o := Revised.updateChannel guildId k value position w in
  result o = Ok tt /\
  final o = w /\
  List.filter is_mutation (emitted o) = [] /\
  List.filter is_redis_write (emitted o) = [].
Proof.
  intros [Hpg Hpm (g & Hg & Hp1 & Hp2 & Hp3)]
         [[Hgs Hgf] (Hgn & Hgl & _) Hgt [Hcs Hcf] (Hcn & Hcl & _) Hct] Hname.
  unfold lookup_channel in *. rewrite Hg in Hgl, Hcl.
  assert (Hrefl : String.eqb value value = true) by apply String.eqb_refl.
  cbn zeta.
  assert (E : exists t, Revised.updateChannel guildId k value position w
                        = mkOutcome (Ok tt) w t /\
                        List.filter is_mutation t = [] /\
                        List.filter is_redis_write t = []).
  { destruct k; cbn [key_of] in *;
      (eexists; split; [exec_revised; reflexivity | split; reflexivity]). }
  destruct E as (t & E & Hm & Hw). rewrite E. cbn. auto.
Qed.

(** ** The metrics fetcher of the later revision *)

Lemma revised_getStats_run w :
  exists stats t,
    Revised.getStats w = mkOutcome (Ok stats) w (EHttpGet STATS_URL :: t) /\
    List.filter is_metrics_request t = [] /\
    List.filter is_mutation t = [] /\
    List.filter is_redis t = [] /\
    typeof_number (s_price stats) = true /\
    typeof_number (s_blocksUntilHalving stats) = true.
Proof.
  unfold Revised.getStats, try_catch, bind, axios_get, out, lift, ret, console_error, emit.
  destruct (e_http (w_env w)) as [e|[|truthy|p b]]; cbn.
  - do 2 eexists. split; [reflexivity|]. auto.
  - do 2 eexists. split; [reflexivity|]. auto.
  - destruct truthy; cbn; do 2 eexists; (split; [reflexivity|]); auto.
  - destruct p; cbn; try (do 2 eexists; (split; [reflexivity|]); auto; fail).
    destruct b; cbn; do 2 eexists; (split; [reflexivity|]); auto.
Qed.

(** X16: [getStats] of the later revision is total.  It never throws and
    changes nothing, requests the metrics once, and always answers two
    numbers: those of the payload when the payload holds two numbers,
    zeros when the request is rejected. *)
Theorem revised_getStats_total w :
  exists stats,
    result (Revised.getStats w) = Ok stats /\
    final (Revised.getStats w) = w /\
    List.filter is_metrics_request (emitted (Revised.getStats w)) = [EHttpGet STATS_URL] /\
    typeof_number (s_price stats) = true /\
    typeof_number (s_blocksUntilHalving stats) = true /\
    (forall x y,
       e_http (w_env w) = HttpResolves (DataObject (JsNumber x) (JsNumber y)) ->
       stats = {| s_price := JsNumber x; s_blocksUntilHalving := JsNumber y |}) /\
    (forall e, e_http (w_env w) = HttpRejects e -> stats = Revised.zero_stats).
Proof.
  destruct (revised_getStats_run w) as (stats & t & E & Hm & _ & _ & Hp & Hb).
  exists stats. rewrite E. cbn [result final emitted List.filter is_metrics_request].
  rewrite Hm. conjs; auto.
  - intros x y Hh. revert E.
    unfold Revised.getStats, try_catch, bind, axios_get, out, lift, ret. rewrite Hh. cbn.
    congruence.
  - intros e Hh. revert E.
    unfold Revised.getStats, try_catch, bind, axios_get, out, lift, ret, console_error, emit.
    rewrite Hh. cbn. congruence.
Qed.

(** ** A pass of the later revision *)

Section RevisedPass.
Variable currencyFormat : JsValue -> string.
Variable compactFormat : float -> string.

Lemma revised_formatNumber_total (v : JsValue) :
  exists s, Revised.formatNumber compactFormat v = Ok s.
Proof. destruct v; cbn; eauto. Qed.

Lemma revised_tenant_returns guildId p b w :
  result (try_catch
            (Revised.updatePriceChannel currencyFormat guildId p ;;
             Revised.updateHalveningChannel compactFormat guildId b)
            (fun error => console_error (FailedToUpdateGuild guildId error)) w) = Ok tt.
Proof. apply try_catch_logged. Qed.

Lemma revised_tenant_respects P guildId p b :
  (forall g k v z, respects P (Revised.updateChannel g k v z)) ->
  (forall m, P (EConsoleError m) = true) ->
  respects P
    (try_catch
       (Revised.updatePriceChannel currencyFormat guildId p ;;
        Revised.updateHalveningChannel compactFormat guildId b)
       (fun error => console_error (FailedToUpdateGuild guildId error))).
Proof.
  intros Hu Hc. unfold Revised.updatePriceChannel, Revised.updateHalveningChannel.
  apply respects_try_catch.
  - apply respects_bind; [apply Hu|intros _].
    apply respects_bind; [apply respects_lift|intros ?]. apply Hu.
  - intros e. apply respects_console_error, Hc.
Qed.

Lemma revised_updateChannel_no_metrics g k v z :
  respects no_metrics_request (Revised.updateChannel g k v z).
Proof. prove_respects_revised. Qed.

(** X19: with the store answering every call, a pass of the later
    revision completes whatever the metrics request and the platform
    answer: [updatePrice] returns normally, with the registry as it was,
    having requested the metrics exactly once and having moved,
    repositioned and deleted nothing.  The read of the registry stands
    outside the [try] of the loop, and a rejected read is not among the
    failures a world holds. *)
Theorem revised_updatePrice_completes w :
  let o := Revised.updatePrice currencyFormat compactFormat w in
  result o = Ok tt /\
  registry (final o) = registry w /\
  List.filter is_metrics_request (emitted o) = [EHttpGet STATS_URL] /\
  List.filter is_move_or_reposition (emitted o) = [] /\
  List.filter is_delete (emitted o) = [].
Proof.
  cbn zeta.
  destruct (revised_getStats_run w) as (stats & t & E & Hm & Hmu & _ & _ & _).
  destruct (revised_formatNumber_total (s_blocksUntilHalving stats)) as (s & Ef).
  unfold Revised.updatePrice. cbn zeta.
  erewrite bind_ok by exact E.
  erewrite bind_ok by apply getGuilds_run.
  erewrite bind_ok by (unfold lift; rewrite Ef; reflexivity).
  cbn [after result final emitted app].
  assert (Hnm : forall e, is_mutation e = false -> is_move_or_reposition e = false)
    by (intros []; cbn; congruence).
  assert (Hnd : forall e, is_mutation e = false -> is_delete e = false)
    by (intros []; cbn; congruence).
  assert (Ht1 : List.filter is_move_or_reposition t = [] /\ List.filter is_delete t = []).
  { clear -Hmu Hnm Hnd. induction t as [|e t IH]; cbn in *; [auto|].
    destruct (is_mutation e) eqn:Ee; [discriminate|].
    rewrite (Hnm _ Ee), (Hnd _ Ee). auto. }
  destruct Ht1 as [Ht1 Ht2].
  set (body := fun guildId : string => try_catch _ _).
  assert (Hif : (if (length (registry w) =? 0)%nat then ret tt
                 else for_of (registry w) body) = for_of (registry w) body)
    by (destruct (registry w); reflexivity).
  rewrite Hif.
  pose proof (for_of_returns (registry w) body w
                (fun x w0 => revised_tenant_returns x _ _ w0)) as Hres.
  assert (Hk : respects keeps_place (for_of (registry w) body)).
  { apply respects_for_of. intros x. apply revised_tenant_respects; [|reflexivity].
    apply revised_updateChannel_keeps_place. }
  assert (Hn : respects no_metrics_request (for_of (registry w) body)).
  { apply respects_for_of. intros x. apply revised_tenant_respects; [|reflexivity].
    apply revised_updateChannel_no_metrics. }
  destruct (Hk w) as (_ & Hr & Hkp). destruct (Hn w) as (_ & _ & Hnm').
  destruct (for_of (registry w) body w) as [r w1 t1].
  cbn [result final emitted] in *.
  apply filter_keeps_place in Hkp as [Hk1 Hk2].
  assert (Hm1 : List.filter is_metrics_request t1 = []).
  { clear -Hnm'. induction t1 as [|e t1 IH]; cbn in *; [reflexivity|].
    apply andb_prop in Hnm' as [Ha Hb]. unfold no_metrics_request in Ha.
    apply negb_true_iff in Ha. rewrite Ha. auto. }
  split; [exact Hres|]. split; [unfold registry; now rewrite Hr|].
  change (EHttpGet STATS_URL :: t ++ ERedisGet GUILD_KEY :: t1)
    with ([EHttpGet STATS_URL] ++ t ++ [ERedisGet GUILD_KEY] ++ t1).
  rewrite !List.filter_app, Hm, Ht1, Ht2, Hk1, Hk2, Hm1. cbn. auto.
Qed.

(** ** Joining, in the later revision *)

Lemma revised_guildCreate_returns guildId w :
  result (Revised.guildCreate currencyFormat compactFormat guildId w) = Ok tt.
Proof. apply try_catch_logged. Qed.

(** X20: the join handler of the later revision never throws, and stops
    at its first check.  When fetching its member record fails, or when
    the bot lacks ManageChannels, it logs one line and returns, having
    fetched the member record and nothing else: no metrics request, no
    channel, no registration; the world is as it was. *)
Theorem revised_guildCreate_gate guildId w :
  let o := Revised.guildCreate currencyFormat compactFormat guildId w in
  result o = Ok tt /\
  (forall e,
     e_membersFetch (w_env w) guildId = Some e ->
     o = mkOutcome (Ok tt) w
           [EMembersFetch guildId; EConsoleError (FailedToSetUpChannels guildId e)]) /\
  (forall g,
     e_membersFetch (w_env w) guildId = None ->
     d_guilds (w_discord w) !! guildId = Some g ->
     ManageChannels (permissions (g_botMember g)) = false ->
     o = mkOutcome (Ok tt) w
           [EMembersFetch guildId; EConsoleError (CannotCreateChannels guildId)]).
Proof.
  cbn zeta. split; [apply revised_guildCreate_returns|]. split.
  - intros e Hm.
    unfold Revised.guildCreate, try_catch, bind, guild_members_fetch, out,
      console_error, emit.
    rewrite Hm. reflexivity.
  - intros g Hm Hg Hp.
    unfold Revised.guildCreate, try_catch, bind, guild_members_fetch, out,
      console_error, emit.
    rewrite Hm, Hg. cbn. rewrite Hp. reflexivity.
Qed.

End RevisedPass.

(** ** The channel group of the later revision *)

(** X21: [createChannelGroup] of the later revision stores the id of the
    new category only after both permission edits.  When the category is
    created and the edit is refused, the function logs and rethrows the
    refusal; the category is on the platform, and its id is nowhere in
    the store. *)
Theorem revised_createChannelGroup_orphans guildId w g e :
  e_guildsFetch (w_env w) guildId = None ->
  e_membersFetch (w_env w) guildId = None ->
  d_guilds (w_discord w) !! guildId = Some g ->
  ManageChannels (permissions (g_botMember g)) = true ->
  roles_highest_position (g_botMember g) <> 0 ->
  e_channelsCreate (w_env w) guildId Revised.CHANNEL_GROUP_NAME GuildCategory = None ->
  e_permissionOverwrites (w_env w) guildId (pretty (d_nextId (w_discord w))) = Some e ->
  let o := Revised.createChannelGroup guildId w in
  let grp := new_channel w Revised.CHANNEL_GROUP_NAME GuildCategory None 0 in
  result o = Throw e /\
  lookup_channel guildId (ch_id grp) (w_discord (final o)) = Some grp /\
  w_redis (final o) = w_redis w /\
  List.filter is_redis_write (emitted o) = [] /\
  last (emitted o) = Some (EConsoleError (FailedToCreateChannelGroup guildId e)).
Proof.
  intros Hgf Hmf Hg Hp Hpos Hc Ho. apply Z.eqb_neq in Hpos. cbn zeta.
  assert (E : exists w1,
            Revised.createChannelGroup guildId w
              = mkOutcome (Throw e) w1
                  [ EGuildsFetch guildId; EMembersFetch guildId;
                    EChannelsCreate guildId Revised.CHANNEL_GROUP_NAME GuildCategory None 0;
                    EPermissionOverwritesCreate guildId (pretty (d_nextId (w_discord w)));
                    EConsoleError (FailedToCreateChannelGroup guildId e) ] /\
            w_redis w1 = w_redis w /\
            lookup_channel guildId (pretty (d_nextId (w_discord w))) (w_discord w1)
              = Some (new_channel w Revised.CHANNEL_GROUP_NAME GuildCategory None 0)).
  { eexists. split; [|split].
    - repeat (progress (run_revised; run_repair; rew_hyps)). reflexivity.
    - reflexivity.
    - unfold lookup_channel. cbn. rewrite lookup_alter_eq, Hg. cbn.
      apply lookup_insert_eq. }
  destruct E as (w1 & E & Hr & Hl). rewrite E. cbn. auto.
Qed.

(** ** Leaving, in the later revision *)

Lemma try_catch_total {A} (m : M A) (h : Error -> M A) (a : A) w :
  (forall x, a = x) ->
  (forall e w0, exists w1 t, h e w0 = mkOutcome (Ok a) w1 t) ->
  result (try_catch m h w) = Ok a.
Proof.
  intros Hu Hh. unfold try_catch. destruct (m w) as [[x|e] w1 t1]; cbn.
  - now rewrite (Hu x).
  - destruct (Hh e w1) as (w2 & t2 & ->). reflexivity.
Qed.

Lemma revised_remover_returns key guildId (msg : Error -> ErrorMsg) w :
  result (try_catch (remove_stored key guildId)
            (fun error =>
               if error_code_is error 10004 then redis_del key
               else console_error (msg error)) w) = Ok tt.
Proof.
  apply try_catch_total; [now intros []|].
  intros e w0. destruct (error_code_is e 10004); do 2 eexists; reflexivity.
Qed.

Lemma revised_remover_registry key guildId (msg : Error -> ErrorMsg) :
  respects (fun _ => true)
    (try_catch (remove_stored key guildId)
       (fun error =>
          if error_code_is error 10004 then redis_del key
          else console_error (msg error))).
Proof. unfold remove_stored. prove_respects. Qed.

(** X22: with the store answering every call, the leave handler of the
    later revision completes whatever the platform answers, with the
    guild out of the registry.  When the guild can be fetched and no
    stored id is empty, or when the platform no longer knows the guild
    (error 10004), none of the three keys of the guild is left in the
    store.  The rewrite of the registry stands outside every [try], and
    the [redis.del] of a 10004 handler inside a [catch] with nothing
    around it; a rejected store call is not among the failures a world
    holds. *)
Theorem revised_guildDelete_completes guildId w :
  let o := Revised.guildDelete guildId w in
  result o = Ok tt /\
  ~ In guildId (registry (final o)) /\
  ((reachable w guildId /\ ids_nonempty w) \/
   unreachable w guildId (DiscordAPIError 10004) ->
   forall key, In key (own_keys guildId) -> r_ids (w_redis (final o)) !! key = None).
Proof.
  cbn zeta.
  destruct (removeGuild_run guildId w) as (a & w0 & t0 & E0 & He0 & Hd0 & Hi0 & Hn0).
  split; [|split].
  - unfold Revised.guildDelete.
    erewrite bind_ok by exact E0. cbn [after result].
    set (kp := guildId +:+ ":priceChannel"). set (kh := guildId +:+ ":halveningChannel").
    set (kg := guildId +:+ ":channelGroup").
    pose proof (revised_remover_returns kp guildId (ErrorRemovingChannel Price guildId) w0) as R1.
    change (try_catch _ _ w0) with (Revised.removePriceChannel guildId w0) in R1.
    unfold bind at 1.
    destruct (Revised.removePriceChannel guildId w0) as [[[]|e1] w1 t1]; [|discriminate].
    pose proof (revised_remover_returns kh guildId (ErrorRemovingChannel Halvening guildId) w1)
      as R2.
    change (try_catch _ _ w1) with (Revised.removeHalveningChannel guildId w1) in R2.
    unfold bind at 1.
    destruct (Revised.removeHalveningChannel guildId w1) as [[[]|e2] w2 t2]; [|discriminate].
    pose proof (revised_remover_returns kg guildId (ErrorRemovingChannelGroup guildId) w2) as R3.
    change (try_catch _ _ w2) with (Revised.removeChannelGroup guildId w2) in R3.
    destruct (Revised.removeChannelGroup guildId w2) as [r3 w3 t3]. exact R3.
  - unfold Revised.guildDelete.
    erewrite bind_ok by exact E0. cbn [after final].
    pose proof (revised_remover_registry (guildId +:+ ":priceChannel") guildId
                  (ErrorRemovingChannel Price guildId) w0) as (_ & R1 & _).
    change (try_catch _ _ w0) with (Revised.removePriceChannel guildId w0) in R1.
    unfold bind at 1.
    destruct (Revised.removePriceChannel guildId w0) as [[[]|e1] w1 t1]; cbn [final] in *.
    2:{ unfold registry in *. now rewrite R1. }
    pose proof (revised_remover_registry (guildId +:+ ":halveningChannel") guildId
                  (ErrorRemovingChannel Halvening guildId) w1) as (_ & R2 & _).
    change (try_catch _ _ w1) with (Revised.removeHalveningChannel guildId w1) in R2.
    unfold bind at 1.
    destruct (Revised.removeHalveningChannel guildId w1) as [[[]|e2] w2 t2]; cbn [final] in *.
    2:{ unfold registry in *. now rewrite R2, R1. }
    pose proof (revised_remover_registry (guildId +:+ ":channelGroup") guildId
                  (ErrorRemovingChannelGroup guildId) w2) as (_ & R3 & _).
    change (try_catch _ _ w2) with (Revised.removeChannelGroup guildId w2) in R3.
    destruct (Revised.removeChannelGroup guildId w2) as [r3 w3 t3]; cbn [final] in *.
    unfold registry in *. now rewrite R3, R2, R1.
  - intros [[Hr Hne]|Hu] key Hin.
    + assert (Hr0 : reachable w0 guildId).
      { unfold reachable in *. now rewrite He0, Hd0. }
      assert (Hne0 : ids_nonempty w0).
      { unfold ids_nonempty in *. now rewrite Hi0. }
      destruct (remove_stored_reachable (guildId +:+ ":priceChannel") guildId w0 Hr0 Hne0)
        as (w1 & t1 & E1 & Hr1 & Hg1 & Hi1).
      pose proof (ids_nonempty_delete _ _ _ Hne0 Hi1) as Hne1.
      destruct (remove_stored_reachable (guildId +:+ ":halveningChannel") guildId w1 Hr1 Hne1)
        as (w2 & t2 & E2 & Hr2 & Hg2 & Hi2).
      pose proof (ids_nonempty_delete _ _ _ Hne1 Hi2) as Hne2.
      destruct (remove_stored_reachable (guildId +:+ ":channelGroup") guildId w2 Hr2 Hne2)
        as (w3 & t3 & E3 & Hr3 & Hg3 & Hi3).
      unfold Revised.guildDelete.
      erewrite bind_ok by exact E0.
      erewrite bind_ok by (apply try_catch_ok; exact E1).
      erewrite bind_ok by (apply try_catch_ok; exact E2).
      unfold Revised.removeChannelGroup.
      erewrite try_catch_ok by exact E3.
      cbn [after result final emitted].
      rewrite Hi3, Hi2, Hi1. destruct Hin as [<-|[<-|[<-|[]]]]; gone.
    + destruct (revised_guildDelete_clears_unknown guildId w Hu) as (_ & _ & K1 & K2 & K3).
      destruct Hin as [<-|[<-|[<-|[]]]]; assumption.
Qed.

(** ** The further properties at the sample guilds *)

Lemma calm_cooperative guildId : cooperative calm guildId.
Proof. split; reflexivity. Qed.

Lemma admin_permitted cs guilds ids : permitted (world_of calm admin cs guilds ids) "1".
Proof. split; [reflexivity | reflexivity |]. eexists. repeat split. Qed.

Lemma fresh_healthy : healthy fresh "1".
Proof.
  split.
  - apply admin_permitted.
  - apply calm_cooperative.
  - intros m _. reflexivity.
  - intros id c H. discriminate H.
Qed.

Lemma fresh_children_apart : children_apart fresh "1".
Proof. intros id H. discriminate H. Qed.

Lemma drifted_channels id :
  lookup_channel "1" id (w_discord drifted)
    = (<["10" := group10]> (<["11" := stale_price11]> (<["12" := halvening12]>
         (∅ : gmap string Channel)))) !! id.
Proof. reflexivity. Qed.

Lemma pretty_from_20 (m n : N) (s : string) :
  pretty n = s -> (n < 20)%N -> (20 <= m)%N -> s <> pretty m.
Proof. intros <- Hn Hm E. apply (inj pretty) in E. lia. Qed.

Lemma drifted_healthy : healthy drifted "1".
Proof.
  split.
  - apply admin_permitted.
  - apply calm_cooperative.
  - intros m Hm. cbn in Hm. rewrite drifted_channels.
    rewrite !lookup_insert_ne; [reflexivity|..].
    + apply (pretty_from_20 m 12); [reflexivity|lia|exact Hm].
    + apply (pretty_from_20 m 11); [reflexivity|lia|exact Hm].
    + apply (pretty_from_20 m 10); [reflexivity|lia|exact Hm].
  - intros id c. rewrite drifted_channels.
    rewrite !lookup_insert_Some, lookup_empty.
    intros [[<- <-]|[_ [[<- <-]|[_ [[<- <-]|[_ H]]]]]]; try reflexivity. discriminate H.
Qed.

Lemma drifted_children_apart : children_apart drifted "1".
Proof.
  intros id H. injection H as <-. split; [discriminate|].
  intros m Hm. apply (pretty_from_20 m 12); [reflexivity|lia|exact Hm].
Qed.

Lemma drifted_snapshot :
  snapshot sample_compact drifted (JsNumber 1234.5%float) (JsNumber 1500000%float) "1.5M".
Proof. exists sample_data. repeat split. Defined.

Lemma settled_reachable : reachable settled "1".
Proof. split; [reflexivity|]. eexists. reflexivity. Qed.

Lemma settled_ids_nonempty : ids_nonempty settled.
Proof.
  intros key id. change (r_ids (w_redis settled)) with settled_ids. unfold settled_ids.
  rewrite !lookup_insert_Some, lookup_empty.
  intros [[_ <-]|[_ [[_ <-]|[_ [[_ <-]|[_ H]]]]]]; try reflexivity. discriminate H.
Qed.

Lemma settled_converged_price :
  converged settled "1" Price "$BIG: $1,234.5000" 0 group10 price11.
Proof. repeat split. Qed.

Lemma settled_converged_halvening :
  converged settled "1" Halvening "HALVENING: 1.5M" 1 group10 halvening12.
Proof. repeat split. Qed.

Lemma drift_repair_converges_witness :
  let o := Index.updateChannel "1" Price "$BIG: $1,234.5000" 0 drifted in
  result o = Ok tt /\
  List.filter is_mutation (emitted o)
    = repairs "1" stale_price11 group10 "$BIG: $1,234.5000" 0 /\
  List.filter is_redis_write (emitted o) = [] /\
  converged (final o) "1" Price "$BIG: $1,234.5000" 0 group10
    (desired_channel stale_price11 group10 "$BIG: $1,234.5000" 0).
Proof.
  apply (drift_repair_converges drifted "1" Price "$BIG: $1,234.5000" 0
           group10 stale_price11).
  - apply admin_permitted.
  - repeat split.
  - repeat split.
Defined.

Lemma updateChannel_converges_witness :
  let o := Index.updateChannel "1" Price "$BIG: $1,234.5000" 0 fresh in
  result o = Ok tt /\
  healthy (final o) "1" /\
  exists grp c, converged (final o) "1" Price "$BIG: $1,234.5000" 0 grp c.
Proof.
  apply (updateChannel_converges fresh "1" Price "$BIG: $1,234.5000" 0 fresh_healthy).
Defined.

Lemma updatePrice_converges_witness :
  let o := Index.updatePrice sample_format sample_compact drifted in
  result o = Ok tt /\
  registry (final o) = registry drifted /\
  forall g, In g (registry drifted) ->
    tenant_converged (final o) g "$BIG: $1,234.5000" "HALVENING: 1.5M".
Proof.
  apply (updatePrice_converges sample_format sample_compact drifted
           (JsNumber 1234.5%float) (JsNumber 1500000%float) "1.5M").
  - exact drifted_snapshot.
  - repeat constructor. cbn. tauto.
  - intros g [<-|[]]. split; [exact drifted_healthy|exact drifted_children_apart].
Defined.

Lemma guildCreate_sets_up_witness :
  let o := Index.guildCreate sample_format sample_compact "1" fresh in
  result o = Ok tt /\
  In "1" (registry (final o)) /\
  tenant_converged (final o) "1" "$BIG: $1,234.5000" "HALVENING: 1.5M".
Proof.
  apply (guildCreate_sets_up sample_format sample_compact "1" fresh
           (JsNumber 1234.5%float) (JsNumber 1500000%float) "1.5M").
  - exact fresh_snapshot.
  - exact fresh_healthy.
  - exact fresh_children_apart.
Defined.

Lemma guildDelete_tears_down_witness :
  let o := Index.guildDelete "1" settled in
  result o = Ok tt /\
  ~ In "1" (registry (final o)) /\
  (forall key, In key (own_keys "1") -> r_ids (w_redis (final o)) !! key = None) /\
  (forall id, In id ["11"; "12"; "10"] ->
     lookup_channel "1" id (w_discord (final o)) = None) /\
  List.filter is_mutation (emitted o)
    = [ EDelete "1" "11"; EDelete "1" "12"; EDelete "1" "10" ].
Proof.
  apply (guildDelete_tears_down settled "1" "$BIG: $1,234.5000" "HALVENING: 1.5M"
           group10 price11 halvening12).
  - exact settled_reachable.
  - exact settled_converged_price.
  - exact settled_converged_halvening.
  - reflexivity.
  - reflexivity.
  - reflexivity.
Defined.

Lemma revised_updateChannel_name_only_witness :
  let o := Revised.updateChannel "1" Price "$BIG: $1,234.5000" 0 settled_unmanageable in
  result o = Ok tt /\
  final o = settled_unmanageable /\
  List.filter is_mutation (emitted o) = [] /\
  List.filter is_redis_write (emitted o) = [].
Proof.
  apply (revised_updateChannel_name_only settled_unmanageable "1" Price
           "$BIG: $1,234.5000" 0 group10 price11).
  - split; [reflexivity | reflexivity |]. eexists. repeat split.
  - repeat split.
  - reflexivity.
Defined.

Lemma revised_guildCreate_gate_witness :
  Revised.guildCreate sample_format sample_compact "1" unprivileged
    = mkOutcome (Ok tt) unprivileged
        [EMembersFetch "1"; EConsoleError (CannotCreateChannels "1")].
Proof.
  destruct (revised_guildCreate_gate sample_format sample_compact "1" unprivileged)
    as (_ & _ & Hgate).
  apply (Hgate (guild_with bystander [group10; price11; halvening12])).
  - reflexivity.
  - reflexivity.
  - reflexivity.
Defined.

Lemma revised_createChannelGroup_orphans_witness :
  let o := Revised.createChannelGroup "1" fresh_no_overwrites in
  let grp := new_channel fresh_no_overwrites Revised.CHANNEL_GROUP_NAME GuildCategory None 0 in
  result o = Throw (DiscordAPIError 50013) /\
  lookup_channel "1" (ch_id grp) (w_discord (final o)) = Some grp /\
  w_redis (final o) = w_redis fresh_no_overwrites /\
  List.filter is_redis_write (emitted o) = [] /\
  last (emitted o)
    = Some (EConsoleError (FailedToCreateChannelGroup "1" (DiscordAPIError 50013))).
Proof.
  apply (revised_createChannelGroup_orphans "1" fresh_no_overwrites
           (guild_with admin []) (DiscordAPIError 50013)).
  - reflexivity.
  - reflexivity.
  - reflexivity.
  - reflexivity.
  - discriminate.
  - reflexivity.
  - reflexivity.
Defined.

Lemma guildDelete_forgets_reachable_witness :
  let o := Index.guildDelete "1" settled in
  result o = Ok tt /\
  ~ In "1" (registry (final o)) /\
  forall key, In key (own_keys "1") -> r_ids (w_redis (final o)) !! key = None.
Proof.
  apply (guildDelete_forgets_reachable "1" settled).
  - exact settled_reachable.
  - exact settled_ids_nonempty.
Defined.

Lemma guildCreate_needs_metrics_witness :
  Index.guildCreate sample_format sample_compact "1" offline
    = mkOutcome (Throw (AxiosError None)) offline [EHttpGet STATS_URL] /\
  Index.updatePrice sample_format sample_compact offline
    = mkOutcome (Throw (AxiosError None)) offline [EHttpGet STATS_URL].
Proof.
  apply (guildCreate_needs_metrics sample_format sample_compact "1" offline
           (AxiosError None)).
  reflexivity.
Defined.
